(** * Pix CSV consolidator (app.py): model and checked properties

    The program reads semicolon-delimited bank statements with pandas,
    reconciles their columns, parses the Brazilian number format, stacks
    the files, classifies rows by their normalised type and writes a
    three-sheet workbook.

    Layout of this file:
    - Python text ([str] is a sequence of code points) and the [str]
      methods the program calls;
    - binary64 numbers, on the Standard Library's [SpecFloat];
    - the parts of pandas the program calls (numeric conversion, the CSV
      tokenizer, column operations of a DataFrame, sorting, grouping);
    - the functions of app.py, under their own names;
    - the properties. *)

From Stdlib Require Import ZArith NArith QArith Qabs List String Ascii Bool Lia.
From Stdlib Require Import Floats.SpecFloat DecimalString Strings.Byte.
From Stdlib Require Import Sorting.Sorted Sorting.Permutation.
From stdpp Require Import base option list gmap sorting.

Close Scope Q_scope.
Local Open Scope Z_scope.
Local Open Scope list_scope.

(* ===================================================================== *)
(** ** Python text *)
(* ===================================================================== *)

(** A Python [str] is a sequence of Unicode code points. *)
Abbreviation str := (list N).
Abbreviation bytes := (list Byte.byte).

(** Literals are written as Rocq strings, whose bytes are the UTF-8
    encoding of the text; [utf8] turns them into code points. [fuel] only
    bounds the recursion and is the number of bytes. *)
Fixpoint utf8 (fuel : nat) (l : list N) : str :=
  match fuel with
  | O => []
  | S fuel =>
    match l with
    | [] => []
    | b :: l =>
      if (b <? 128)%N then b :: utf8 fuel l
      else if (b <? 224)%N then
        match l with
        | c :: l => ((b - 192) * 64 + (c - 128))%N :: utf8 fuel l
        | _ => [b]
        end
      else if (b <? 240)%N then
        match l with
        | c :: d :: l =>
            ((b - 224) * 4096 + (c - 128) * 64 + (d - 128))%N :: utf8 fuel l
        | _ => [b]
        end
      else
        match l with
        | c :: d :: e :: l =>
            ((b - 240) * 262144 + (c - 128) * 4096 + (d - 128) * 64 + (e - 128))%N
              :: utf8 fuel l
        | _ => [b]
        end
    end
  end.

Definition py (s : string) : str :=
  let l := map N_of_ascii (list_ascii_of_string s) in utf8 (length l) l.

Definition ch (s : string) : N := List.hd 0%N (py s).

Definition str_eqb (a b : str) : bool := bool_decide (a = b).

(** [s.startswith(p)] *)
Fixpoint startswith (p s : str) : bool :=
  match p, s with
  | [], _ => true
  | a :: p, b :: s => (a =? b)%N && startswith p s
  | _ :: _, [] => false
  end.

(** [p in s] *)
Fixpoint contains (p s : str) : bool :=
  startswith p s ||
  match s with
  | [] => false
  | _ :: s' => contains p s'
  end.

(** [s.replace(old, new)] for a non-empty [old]: matches are taken left to
    right and do not overlap. [skip] counts the characters of a match that
    are still to be dropped. *)
Fixpoint replace_from (old new : str) (skip : nat) (s : str) : str :=
  match s with
  | [] => []
  | c :: s' =>
    match skip with
    | S k => replace_from old new k s'
    | O =>
      if startswith old s
      then new ++ replace_from old new (length old - 1) s'
      else c :: replace_from old new 0 s'
    end
  end.

Definition replace (old new s : str) : str := replace_from old new 0 s.

(** [sep.join(parts)] *)
Fixpoint join (sep : str) (parts : list str) : str :=
  match parts with
  | [] => []
  | [p] => p
  | p :: rest => p ++ sep ++ join sep rest
  end.

(** Line boundaries of [str.splitlines()]. *)
Definition is_linebreak (c : N) : bool :=
  bool_decide (c ∈ [10; 11; 12; 13; 28; 29; 30; 133; 8232; 8233]%N).

(** [s.splitlines()]: a carriage return followed by a line feed is one
    boundary, and no empty line is produced after a final boundary. *)
Fixpoint splitlines_from (cur : str) (s : str) : list str :=
  match s with
  | [] => match cur with [] => [] | _ => [rev cur] end
  | c :: s' =>
    if is_linebreak c then
      match c, s' with
      | 13%N, 10%N :: s'' => rev cur :: splitlines_from [] s''
      | _, _ => rev cur :: splitlines_from [] s'
      end
    else splitlines_from (c :: cur) s'
  end.

Definition splitlines (s : str) : list str := splitlines_from [] s.

(** Characters removed by [str.strip()] (those for which [str.isspace]
    holds). *)
Definition isspace (c : N) : bool :=
  ((9 <=? c) && (c <=? 13) || (28 <=? c) && (c <=? 32)
   || (8192 <=? c) && (c <=? 8202)
   || bool_decide (c ∈ [133; 160; 5760; 8232; 8233; 8239; 8287; 12288]))%N.

Fixpoint lstrip (s : str) : str :=
  match s with
  | c :: s' => if isspace c then lstrip s' else s
  | [] => []
  end.

Definition strip (s : str) : str := rev (lstrip (rev (lstrip s))).

(** Decimal text of a natural number, [str(n)]. *)
Definition str_of_nat (n : nat) : str :=
  py (NilEmpty.string_of_uint (Nat.to_uint n)).

(** Lexicographic order on code points: [a < b] and [a <= b] on [str]. *)
Fixpoint str_ltb (a b : str) : bool :=
  match a, b with
  | _, [] => false
  | [], _ :: _ => true
  | x :: a', y :: b' => (x <? y)%N || ((x =? y)%N && str_ltb a' b')
  end.

Definition str_leb (a b : str) : bool := negb (str_ltb b a).

(* ===================================================================== *)
(** ** binary64 *)
(* ===================================================================== *)

Module F64.
Definition prec := 53.
Definition emax := 1024.
Abbreviation float := spec_float.

Definition add : float -> float -> float := SFadd prec emax.
Definition mul : float -> float -> float := SFmul prec emax.
Definition div : float -> float -> float := SFdiv prec emax.
Definition opp : float -> float := SFopp.

(** The integer [n] rounded to the nearest binary64 (ties to even). *)
Definition of_Z (n : Z) : float := binary_normalize prec emax n 0 false.

Definition zero : float := S754_zero false.
Definition nan : float := S754_nan.

Definition is_nan (x : float) : bool :=
  match x with S754_nan => true | _ => false end.
Definition is_inf (x : float) : bool :=
  match x with S754_infinity _ => true | _ => false end.
Definition is_finite (x : float) : bool :=
  match x with S754_zero _ | S754_finite _ _ _ => true | _ => false end.
Definition is_neg (x : float) : bool :=
  match x with
  | S754_zero s | S754_infinity s | S754_finite s _ _ => s
  | S754_nan => false
  end.


(** The exact value of a finite number. *)
Definition to_Q (x : float) : option Q :=
  match x with
  | S754_zero _ => Some 0%Q
  | S754_finite s m e =>
      Some ((if s then Qopp else fun q => q)
              (inject_Z (Z.pos m) * Qpower 2 e)%Q)
  | _ => None
  end.

Definition succ : float -> float := SFsucc prec emax.
Definition pred : float -> float := SFpred prec emax.

(** [x] is no farther from the rational [q] than the binary64 [y]
    (an infinite [y] is farther than everything). *)
Definition closer (q : Q) (x y : float) : bool :=
  match to_Q x, to_Q y with
  | Some v, Some w => Qle_bool (Qabs (v - q)) (Qabs (w - q))
  | Some _, None => true
  | None, _ => false
  end.

(** [x] is a binary64 closest to the rational [q]: what a decimal
    literal of value [q] denotes in Python. *)
Definition nearest (q : Q) (x : float) : bool :=
  valid_binary prec emax x && closer q x (succ x) && closer q x (pred x).
End F64.
Abbreviation float := F64.float.

(* ===================================================================== *)
(** ** Exceptions *)
(* ===================================================================== *)

Inductive exn :=
| KeyError | ValueError | TypeError | AttributeError | LookupError | ParserError
| InvalidIndexError       (* pandas.errors; not a ValueError *)
| IllegalCharacterError.  (* openpyxl.utils.exceptions; not a ValueError *)

(** The outcome of code that may raise. *)
Inductive result (A : Type) :=
| Ok (a : A)
| Raise (e : exn).
Arguments Ok {A} a.
Arguments Raise {A} e.

#[global] Instance result_ret : MRet result := fun _ a => Ok a.
#[global] Instance result_bind : MBind result := fun _ _ f m =>
  match m with Ok a => f a | Raise e => Raise e end.

Definition raises {A} (m : result A) : bool :=
  match m with Ok _ => false | Raise _ => true end.

(** [mapM]: run [f] on each element in order, stopping at the first
    exception. *)
Fixpoint traverse {A B} (f : A -> result B) (l : list A) : result (list B) :=
  match l with
  | [] => Ok []
  | a :: l => b ← f a; bs ← traverse f l; Ok (b :: bs)
  end.

(* ===================================================================== *)
(** ** What the program takes from its runtime

    The Unicode database, float printing, the codec registry and chardet's
    statistical detector are data of the interpreter and of a library. The
    model takes them as given; every general property below holds for
    whatever they are. *)
(* ===================================================================== *)

Class Runtime := {
  (** [unicodedata.normalize("NFKD", s)] *)
  nfkd : str -> str;
  (** [unicodedata.combining(ch)], the canonical combining class *)
  combining : N -> N;
  (** [s.lower()] *)
  lower : str -> str;
  (** [str(x)] of a float *)
  float_str : float -> str;
  (** [chardet.detect(b).get("encoding")] *)
  chardet_detect : bytes -> option str;
  (** [b.decode(enc, errors="replace")]: undecodable bytes become U+FFFD,
      an unknown codec name raises LookupError *)
  decode : str -> bytes -> result str
}.

(* ===================================================================== *)
(** ** pandas: numeric conversion of text

    [pd.to_numeric(s, errors="coerce")] on an object column of text goes
    through [maybe_convert_numeric], which calls [floatify], which calls
    [to_double], which is [precise_xstrtod] with decimal point ['.'],
    exponent marker ['E'] and no thousands separator. *)
(* ===================================================================== *)

Definition isspace_ascii (c : N) : bool :=
  ((c =? 32) || (9 <=? c) && (c <=? 13))%N.
Definition isdigit_ascii (c : N) : bool := ((48 <=? c) && (c <=? 57))%N.
Definition digit_val (c : N) : Z := Z.of_N c - 48.

Fixpoint skip_space (s : str) : str :=
  match s with
  | c :: s' => if isspace_ascii c then skip_space s' else s
  | [] => []
  end.

Fixpoint skip_digits (s : str) : str :=
  match s with
  | c :: s' => if isdigit_ascii c then skip_digits s' else s
  | [] => []
  end.

Definition max_digits : nat := 17.

(** [number = number * 10. + digit] *)
Definition push_digit (number : float) (c : N) : float :=
  F64.add (F64.mul number (F64.of_Z 10)) (F64.of_Z (digit_val c)).

(** Digits before the decimal point: the first 17 digits are accumulated,
    each further one raises the decimal exponent. *)
Fixpoint scan_int (s : str) (number : float) (num_digits : nat) (exponent : Z)
  : float * nat * Z * str :=
  match s with
  | c :: s' =>
    if isdigit_ascii c then
      if (num_digits <? max_digits)%nat
      then scan_int s' (push_digit number c) (S num_digits) exponent
      else scan_int s' number num_digits (exponent + 1)
    else (number, num_digits, exponent, s)
  | [] => (number, num_digits, exponent, [])
  end.

(** Digits after the decimal point, while fewer than 17 digits are held. *)
Fixpoint scan_frac (s : str) (number : float) (num_digits : nat) (num_decimals : Z)
  : float * nat * Z * str :=
  match s with
  | c :: s' =>
    if (num_digits <? max_digits)%nat && isdigit_ascii c
    then scan_frac s' (push_digit number c) (S num_digits) (num_decimals + 1)
    else (number, num_digits, num_decimals, s)
  | [] => (number, num_digits, num_decimals, [])
  end.

(** A C [int] of 32 bits: arithmetic that leaves the range wraps around
    in the compiled parser. *)
Definition wrap_int (z : Z) : Z := (z + 2 ^ 31) mod 2 ^ 32 - 2 ^ 31.

(** Digits of the exponent, at most 17 of them, accumulated in an [int]. *)
Fixpoint scan_exp (s : str) (n : Z) (num_digits : nat) : Z * nat * str :=
  match s with
  | c :: s' =>
    if (num_digits <? max_digits)%nat && isdigit_ascii c
    then scan_exp s' (wrap_int (n * 10 + digit_val c)) (S num_digits)
    else (n, num_digits, s)
  | [] => (n, num_digits, [])
  end.

(** The table [e[]] of powers of ten, [1e0 .. 1e308]. *)
Definition e10 (k : Z) : float := F64.of_Z (10 ^ k).

Definition scale (number : float) (exponent : Z) : float :=
  if 0 <? exponent then F64.mul number (e10 exponent)
  else if exponent <? -308 then
    if exponent <? -616 then F64.zero
    else F64.div (F64.div number (e10 (-308 - exponent))) (e10 308)
  else F64.div number (e10 (- exponent)).

(** [precise_xstrtod]: the value, the unread rest of the text and the
    [maybe_int] flag, or [None] when [error] is set. *)
Definition precise_xstrtod (s : str) : option (float * str * bool) :=
  let p := skip_space s in
  let '(negative, p) :=
    match p with
    | 45%N :: p' => (true, p')
    | 43%N :: p' => (false, p')
    | _ => (false, p)
    end in
  let '(number, num_digits, exponent, p) := scan_int p F64.zero 0%nat 0 in
  let '(number, num_digits, exponent, p, maybe_int) :=
    match p with
    | 46%N :: p' =>
      let '(number, num_digits, num_decimals, p') :=
        scan_frac p' number num_digits 0 in
      let p' := if (max_digits <=? num_digits)%nat then skip_digits p' else p' in
      (number, num_digits, exponent - num_decimals, p', false)
    | _ => (number, num_digits, exponent, p, true)
    end in
  if (num_digits =? 0)%nat then None else
  let number := if negative then F64.opp number else number in
  let '(exponent, p, maybe_int) :=
    match p with
    | c :: p' =>
      if (c =? 69)%N || (c =? 101)%N then
        let '(eneg, q) :=
          match p' with
          | 45%N :: q => (true, q)
          | 43%N :: q => (false, q)
          | _ => (false, p')
          end in
        let '(n, nd, q') := scan_exp q 0 0%nat in
        let exponent := wrap_int (if eneg then exponent - n else exponent + n) in
        (* no digit after the marker: the marker is left unread *)
        (exponent, if (nd =? 0)%nat then p else q', false)
      else (exponent, p, maybe_int)
    | [] => (exponent, p, maybe_int)
    end in
  if 308 <? exponent then None else
  let number := scale number exponent in
  if F64.is_inf number then None else
  Some (number, skip_space p, maybe_int).

(** [to_double]: succeeds when no error was set and the whole text was
    read. *)
Definition to_double (s : str) : option (float * bool) :=
  match precise_xstrtod s with
  | Some (x, [], maybe_int) => Some (x, maybe_int)
  | _ => None
  end.

(** ASCII lower-casing, as [strcasecmp] compares. *)
Definition tolower_ascii (c : N) : N :=
  if ((65 <=? c) && (c <=? 90))%N then (c + 32)%N else c.

(** The text as the C code sees it: up to the first NUL. *)
Fixpoint c_str (s : str) : str :=
  match s with
  | 0%N :: _ | [] => []
  | c :: s' => c :: c_str s'
  end.

(** [floatify]: [to_double], then the spellings of infinity. *)
Definition floatify (s : str) : option (float * bool) :=
  let data := c_str s in
  match to_double data with
  | Some r => Some r
  | None =>
    let l := map tolower_ascii data in
    if bool_decide (l ∈ [py "inf"; py "+inf"; py "infinity"; py "+infinity"])
    then Some (S754_infinity false, false)
    else if bool_decide (l ∈ [py "-inf"; py "-infinity"])
    then Some (S754_infinity true, false)
    else None
  end.

(** One element of [pd.to_numeric(s, errors="coerce")], for a text
    element: empty text and unparseable text become NaN. When the text
    reads as an integer pandas also calls [int(val)], which rejects a text
    holding a NUL. The model keeps the value as a binary64, which is the
    column's type as soon as one element is fractional or missing. A
    column whose elements all read as integers is kept by pandas as int64,
    exact in each cell and wrapping in sums: such columns are outside the
    model, and the statements about sums below require a column that is
    not one ([float_column]). The parser is the one of pandas 2; where a
    later parser reads a magnitude beyond the binary64 range as an
    infinity rather than as a missing value, the statements below say
    only that the value is not finite. *)
Definition to_numeric (s : str) : float :=
  match s with
  | [] => F64.nan
  | _ =>
    match floatify s with
    | Some (x, maybe_int) =>
        if maybe_int && bool_decide (0%N ∈ s) then F64.nan else x
    | None => F64.nan
    end
  end.

(* ===================================================================== *)
(** ** pandas: tables *)
(* ===================================================================== *)

#[global] Instance spec_float_eq_dec : EqDecision spec_float.
Proof. solve_decision. Defined.

(** A cell holds text or a binary64; a missing value is NaN. *)
Inductive cell :=
| Str (s : str)
| Num (x : float).

#[global] Instance cell_eq_dec : EqDecision cell.
Proof. solve_decision. Defined.

Definition NaN : cell := Num F64.nan.

Definition isna (c : cell) : bool :=
  match c with Num x => F64.is_nan x | Str _ => false end.

(** A row label: a position, or the leading fields of a CSV row that had
    more fields than the header. *)
Inductive label :=
| Pos (i : nat)
| Key (k : list str).

#[global] Instance label_eq_dec : EqDecision label.
Proof. solve_decision. Defined.

(** A DataFrame: column labels, which may repeat, and labelled rows. *)
Record DataFrame := mkDF {
  columns : list str;
  rows : list (label * list cell)
}.

#[global] Instance DataFrame_eq_dec : EqDecision DataFrame.
Proof. solve_decision. Defined.

(** [pd.DataFrame()] and [pd.DataFrame(columns=cols)] *)
Definition no_frame : DataFrame := mkDF [] [].
Definition empty_with (cols : list str) : DataFrame := mkDF cols [].

(** [df.empty]: one of the two axes has length zero. *)
Definition empty (df : DataFrame) : bool :=
  match columns df, rows df with
  | [], _ | _, [] => true
  | _, _ => false
  end.

(** Positions of the columns labelled [c]. *)
Fixpoint positions_from (i : nat) (c : str) (cols : list str) : list nat :=
  match cols with
  | [] => []
  | c' :: cols =>
    if str_eqb c c' then i :: positions_from (S i) c cols
    else positions_from (S i) c cols
  end.

Definition positions (c : str) (df : DataFrame) : list nat :=
  positions_from 0 c (columns df).

Definition cell_at (i : nat) (r : label * list cell) : cell :=
  default NaN (r.2 !! i).

Definition column_at (i : nat) (df : DataFrame) : list cell :=
  map (cell_at i) (rows df).

(** What [df[c]] evaluates to: one column, or a table when the label
    repeats. *)
Inductive item :=
| Series (values : list cell)
| Frame (df : DataFrame).

Definition project (ps : list nat) (r : label * list cell) : label * list cell :=
  (r.1, map (fun i => cell_at i r) ps).

(** [df[c]] *)
Definition getitem (df : DataFrame) (c : str) : result item :=
  match positions c df with
  | [] => Raise KeyError
  | [i] => Ok (Series (column_at i df))
  | ps => Ok (Frame (mkDF (map (fun _ => c) ps) (map (project ps) (rows df))))
  end.

(** [df[c]] where the code goes on to use it as one column (a method of
    Series is called on it). *)
Definition get_series (df : DataFrame) (c : str) : result (list cell) :=
  it ← getitem df c;
  match it with
  | Series l => Ok l
  | Frame _ => Raise AttributeError
  end.

(** Write [vs], row by row, into every position of [ps]. *)
Definition write_at (ps : list nat) (vs : list cell) (df : DataFrame) : DataFrame :=
  mkDF (columns df)
       (zip_with (fun r v =>
                    (r.1, foldr (fun i cells => <[i := v]> cells) r.2 ps))
                 (rows df) vs).

Definition append_column (c : str) (vs : list cell) (df : DataFrame) : DataFrame :=
  mkDF (columns df ++ [c])
       (zip_with (fun r v => (r.1, r.2 ++ [v])) (rows df) vs).

Definition assign (c : str) (vs : list cell) (df : DataFrame) : DataFrame :=
  match positions c df with
  | [] => append_column c vs df
  | ps => write_at ps vs df
  end.

(** [df[c] = v] for a scalar [v]: a new column at the end when the label
    is absent, otherwise every column with that label is overwritten. *)
Definition setitem_scalar (df : DataFrame) (c : str) (v : cell) : DataFrame :=
  assign c (map (fun _ => v) (rows df)) df.

(** [df[c] = value] where [value] was read from the same table: a Series
    is written by position; a table of several columns cannot be set to a
    single new label, nor to a label that names a different number of
    columns. *)
Definition setitem (df : DataFrame) (c : str) (value : item) : result DataFrame :=
  match value with
  | Series vs => Ok (assign c vs df)
  | Frame f =>
    match positions c df, columns f with
    | [], [_] => Ok (assign c (column_at 0 f) df)
    | [], _ => Raise ValueError
    | ps, cols =>
      if (length ps =? length cols)%nat
      then Ok (mkDF (columns df)
                 (zip_with (fun r fr =>
                    (r.1, fold_right (fun '(i, v) cells => <[i := v]> cells)
                            r.2 (zip ps fr.2)))
                    (rows df) (rows f)))
      else Raise ValueError
    end
  end.

(** [df.rename(columns=mapper)] *)
Definition rename (mapper : gmap str str) (df : DataFrame) : DataFrame :=
  mkDF (map (fun c => default c (mapper !! c)) (columns df)) (rows df).

(** [df[[c1, ..., cn]]]: for each requested label, every column carrying
    it; KeyError when a label is absent. *)
Definition select (df : DataFrame) (names : list str) : result DataFrame :=
  pss ← traverse (fun c => match positions c df with
                           | [] => Raise KeyError
                           | ps => Ok (map (fun i => (c, i)) ps)
                           end) names;
  let ps := concat pss in
  Ok (mkDF (map fst ps) (map (project (map snd ps)) (rows df))).

(** [df[mask]] for a boolean mask *)
Fixpoint keep {A} (mask : list bool) (l : list A) : list A :=
  match mask, l with
  | b :: mask, a :: l => if b then a :: keep mask l else keep mask l
  | _, _ => []
  end.

Definition getmask (df : DataFrame) (mask : list bool) : DataFrame :=
  mkDF (columns df) (keep mask (rows df)).

(** Row labels [0 .. n-1]. *)
Definition reindex (rs : list (label * list cell)) : list (label * list cell) :=
  imap (fun i r => (Pos i, r.2)) rs.

(** Columns of [frames] in order of first appearance. *)
Definition union_columns (frames : list DataFrame) : list str :=
  remove_dups (concat (map columns frames)).

(** [pd.concat(frames, ignore_index=True)] for a non-empty list: tables
    with the same column labels are stacked; otherwise the columns are
    aligned on the union of the labels and absent cells are NaN, which
    pandas refuses when a table has a repeated label. *)
Definition concat_frames (frames : list DataFrame) : result DataFrame :=
  match frames with
  | [] => Raise ValueError
  | f :: _ =>
    if forallb (fun g => bool_decide (columns g = columns f)) frames
    then Ok (mkDF (columns f) (reindex (concat (map rows frames))))
    else if forallb (fun g => bool_decide (NoDup (columns g))) frames
    then
      let cols := union_columns frames in
      Ok (mkDF cols
            (reindex
               (concat
                  (map (fun g =>
                          map (fun r =>
                                 (r.1, map (fun c => match positions c g with
                                                     | i :: _ => cell_at i r
                                                     | [] => NaN
                                                     end) cols))
                              (rows g))
                       frames))))
    else Raise InvalidIndexError
  end.

(* ===================================================================== *)
(** ** numpy: the sum of a float64 array

    [values.sum()] is [np.add.reduce], whose inner loop is the pairwise
    summation of numpy: fewer than eight elements are added one by one
    from the left; up to 128 elements are added into eight partial sums,
    element [i] into the sum [i mod 8], the eight are combined as a
    balanced tree, and what is left after the last whole block of eight is
    added one by one; a longer array is split into two parts, the first of
    [n/2] rounded down to a multiple of eight, which are summed
    separately. The result is added to the start value. numpy starts from
    zero, in later versions from minus zero when the array is not empty:
    that changes nothing but the sign of a zero result, and the statements
    about totals below are up to that sign ([same_number]). *)
(* ===================================================================== *)

(** [r[j] += a[i + j]] for one block of eight. *)
Definition add_block (r block : list float) : list float :=
  zip_with F64.add r block.

(** [k] whole blocks of eight added into the partial sums [r]; what is
    returned with the sums is the rest of the array. *)
Fixpoint add_blocks (k : nat) (r a : list float) : list float * list float :=
  match k with
  | O => (r, a)
  | S k => add_blocks k (add_block r (take 8 a)) (drop 8 a)
  end.

(** [((r0 + r1) + (r2 + r3)) + ((r4 + r5) + (r6 + r7))] *)
Definition combine8 (r : list float) : float :=
  match r with
  | [r0; r1; r2; r3; r4; r5; r6; r7] =>
    F64.add (F64.add (F64.add r0 r1) (F64.add r2 r3))
            (F64.add (F64.add r4 r5) (F64.add r6 r7))
  | _ => F64.zero
  end.

(** The unrolled loop, for 8 to 128 elements. *)
Definition unrolled_sum (a : list float) : float :=
  let '(r, rest) := add_blocks (length a / 8 - 1) (take 8 a) (drop 8 a) in
  foldl F64.add (combine8 r) rest.

(** [pairwise_sum]; [depth] bounds the number of nested splits, and
    [length a] is always enough ([pairwise_sum_depth]). *)
Fixpoint pairwise_sum (depth : nat) (a : list float) : float :=
  let n := length a in
  if (n <? 8)%nat then foldl F64.add F64.zero a
  else if (n <=? 128)%nat then unrolled_sum a
  else
    match depth with
    | O => unrolled_sum a
    | S depth =>
      let n2 := (n / 2 - (n / 2) mod 8)%nat in
      F64.add (pairwise_sum depth (take n2 a)) (pairwise_sum depth (drop n2 a))
    end.

(** [a.sum()] for a float64 array. *)
Definition np_sum (a : list float) : float :=
  F64.add F64.zero (pairwise_sum (length a) a).



(** [s.sum()] of a numeric column ([nanops.nansum]): a missing value is
    replaced by zero, then the array is summed. A column that holds text
    is not summed to a number. *)
Definition fill_missing (c : cell) : result float :=
  match c with
  | Num x => Ok (if F64.is_nan x then F64.zero else x)
  | Str _ => Raise TypeError
  end.

Definition nansum (l : list cell) : result float :=
  values ← traverse fill_missing l;
  Ok (np_sum values).

(* ===================================================================== *)
(** ** pandas: reading CSV

    [pd.read_csv(text, sep=";", dtype=str, keep_default_na=False)] with the
    C parser: the state machine of the tokenizer for the delimiter [;], the
    double quote as quote character, doubled quotes, blank lines skipped, then the header
    and the rows. The program hands it lines joined by a line feed, taken
    from [splitlines], so the text holds no carriage return and the
    states that eat one are left out. *)
(* ===================================================================== *)

Inductive tok_state :=
| START_RECORD | START_FIELD | IN_FIELD
| IN_QUOTED_FIELD | QUOTE_IN_QUOTED_FIELD | WHITESPACE_LINE.

Record tokenizer := mkTok {
  state : tok_state;
  field : str;                 (* characters of the open field, last first *)
  line : list str;             (* fields of the open line, last first *)
  lines : list (list str)      (* closed lines, last first *)
}.

Definition isblank (c : N) : bool := ((c =? 32) || (c =? 9))%N.

Definition push_char (c : N) (st : tok_state) (t : tokenizer) : tokenizer :=
  mkTok st (c :: field t) (line t) (lines t).

Definition end_field (st : tok_state) (t : tokenizer) : tokenizer :=
  mkTok st [] (rev (field t) :: line t) (lines t).

(** [end_line]: from the second data line on, a line with more fields
    than the line before it is an error; from the first data line on, a
    shorter line is filled with empty fields. *)
Definition end_line (t : tokenizer) : result tokenizer :=
  let fields := rev (line t) in
  let done := length (lines t) in
  let ex_fields := match lines t with l :: _ => length l | [] => 0%nat end in
  if (2 <=? done)%nat && (ex_fields <? length fields)%nat
  then Raise ParserError
  else
    let fields :=
      if (1 <=? done)%nat
      then fields ++ replicate (ex_fields - length fields) []
      else fields in
    Ok (mkTok START_RECORD [] [] (fields :: lines t)).

Definition tok_step (t : tokenizer) (c : N) : result tokenizer :=
  let nl := (c =? 10)%N in
  let delim := (c =? 59)%N in
  let quote := (c =? 34)%N in
  let start_field t :=
    if nl then end_line (end_field START_FIELD t)
    else if quote then Ok (mkTok IN_QUOTED_FIELD (field t) (line t) (lines t))
    else if delim then Ok (end_field START_FIELD t)
    else Ok (push_char c IN_FIELD t) in
  let in_field t :=
    if nl then end_line (end_field START_FIELD t)
    else if delim then Ok (end_field START_FIELD t)
    else Ok (push_char c IN_FIELD t) in
  match state t with
  | START_RECORD =>
      if nl then Ok t
      else if isblank c then Ok (push_char c WHITESPACE_LINE t)
      else start_field t
  | START_FIELD => start_field t
  | WHITESPACE_LINE =>
      if nl then Ok (mkTok START_RECORD [] (line t) (lines t))
      else if isblank c then Ok (push_char c WHITESPACE_LINE t)
      else (* the blanks read so far open a field *) in_field t
  | IN_FIELD => in_field t
  | IN_QUOTED_FIELD =>
      if quote then Ok (mkTok QUOTE_IN_QUOTED_FIELD (field t) (line t) (lines t))
      else Ok (push_char c IN_QUOTED_FIELD t)
  | QUOTE_IN_QUOTED_FIELD =>
      if quote then Ok (push_char c IN_QUOTED_FIELD t)
      else in_field t
  end.

(** End of input: an open quoted field is an error, an open line is
    closed. *)
Definition tok_eof (t : tokenizer) : result tokenizer :=
  match state t with
  | START_RECORD | WHITESPACE_LINE => Ok t
  | IN_QUOTED_FIELD => Raise ParserError
  | IN_FIELD | START_FIELD | QUOTE_IN_QUOTED_FIELD =>
      end_line (end_field START_FIELD t)
  end.

(** A NUL inside a field is a character like any other, as in the
    parser of pandas 3 (the one of pandas 2 ends the field there); no
    statement below is about a field that holds one. *)
Definition tokenize (text : str) : result (list (list str)) :=
  t ← foldl (fun acc c => t ← acc; tok_step t c)
            (Ok (mkTok START_RECORD [] [] [])) text;
  t ← tok_eof t;
  Ok (rev (lines t)).

(** Header names: an empty name becomes [Unnamed: i]. *)
Definition unnamed (i : nat) (name : str) : str :=
  match name with
  | [] => py "Unnamed: " ++ str_of_nat i
  | _ => name
  end.

(** One turn of the renaming loop for a repeated name: try
    [old_col.cur_count], move on while that name is taken. *)
Fixpoint dedup_loop (fuel : nat) (header : list str) (counts : gmap str nat)
    (old_col col : str) (cur_count : nat) : gmap str nat * str * nat :=
  match fuel, cur_count with
  | S fuel, S _ =>
    let counts := <[old_col := S cur_count]> counts in
    let col := old_col ++ py "." ++ str_of_nat cur_count in
    if bool_decide (col ∈ header)
    then dedup_loop fuel header counts old_col col (S cur_count)
    else dedup_loop fuel header counts old_col col (default 0%nat (counts !! col))
  | _, _ => (counts, col, cur_count)
  end.

(** Repeated header names get the suffixes [.1], [.2], ...; named columns
    are treated before the unnamed ones. *)
Definition dedup_names (raw : list str) : list str :=
  let header := imap unnamed raw in
  let idx := seq 0 (length raw) in
  let named := filter (fun i => raw !! i ≠ Some []) idx in
  let anon := filter (fun i => raw !! i = Some []) idx in
  fst (foldl (fun '(header, counts) i =>
                let col := default [] (header !! i) in
                let '(counts, col, cur_count) :=
                  dedup_loop (length header * length header + 1) header counts
                             col col (default 0%nat (counts !! col)) in
                (<[i := col]> header, <[col := S cur_count]> counts))
             (header, ∅) (named ++ anon)).

(** [pd.read_csv(StringIO(text), sep=";", dtype=str, keep_default_na=False)]:
    every cell is text and an empty field stays the empty text. When the
    rows have more fields than the header, the leading fields become the
    row label. *)
Definition read_csv (text : str) : result DataFrame :=
  ls ← tokenize text;
  match ls with
  | [] => Raise ValueError   (* EmptyDataError: no columns to parse *)
  | header :: data =>
    let width := match data with l :: _ => length l | [] => length header end in
    let leading := (width - length header)%nat in
    Ok (mkDF (dedup_names header)
          (imap (fun i fields =>
                   (match leading with
                    | O => Pos i
                    | _ => Key (take leading fields)
                    end,
                    map Str (drop leading fields)))
                data))
  end.

(* ===================================================================== *)
(** ** pandas: sorting and grouping *)
(* ===================================================================== *)

(** Order of two present sort keys: text by code points, numbers by value;
    text against a number cannot be compared. *)
Definition key_leb (a b : cell) : result bool :=
  match a, b with
  | Str x, Str y => Ok (str_leb x y)
  | Num x, Num y => Ok (SFleb x y)
  | _, _ => Raise TypeError
  end.

(** Insertion of one keyed row into a sorted list, after the rows whose
    key is smaller and before those whose key is equal or greater. *)
Fixpoint insert_row {A} (k : cell) (a : A) (l : list (cell * A))
  : result (list (cell * A)) :=
  match l with
  | [] => Ok [(k, a)]
  | (k', a') :: l' =>
    b ← key_leb k k';
    if b : bool then Ok ((k, a) :: l)
    else (r ← insert_row k a l'; Ok ((k', a') :: r))
  end.

(** Each row is inserted into the sorted rows that came after it, so rows
    with equal keys stay in their original order. *)
Fixpoint sort_rows {A} (l : list (cell * A)) : result (list (cell * A)) :=
  match l with
  | [] => Ok []
  | (k, a) :: l' => s ← sort_rows l'; insert_row k a s
  end.

(** [df.sort_values(by=c, na_position="last")]: the rows with a present
    key in ascending order of the key, then the rows whose key is missing.
    A repeated label [c] is refused. pandas sorts with numpy's quicksort,
    which on up to 16 rows is an insertion sort and leaves rows with
    equal keys in their original order, as the model does for every
    length. On longer tables numpy promises no order among equal keys;
    what is stated below about exported sheets holds for any such
    order. *)
Definition sort_values (df : DataFrame) (c : str) : result DataFrame :=
  match positions c df with
  | [] => Raise KeyError
  | [i] =>
    let keyed := map (fun r => (cell_at i r, r)) (rows df) in
    let present := filter (fun kr => isna kr.1 = false) keyed in
    let missing := filter (fun kr => isna kr.1 = true) keyed in
    s ← sort_rows present;
    Ok (mkDF (columns df) (map snd (s ++ missing)))
  | _ => Raise ValueError
  end.

(** Distinct text keys in ascending order, as [groupby] lists its groups. *)
Fixpoint insert_key (k : str) (l : list str) : list str :=
  match l with
  | [] => [k]
  | k' :: l' =>
    if str_ltb k k' then k :: l
    else if str_eqb k k' then l
    else k' :: insert_key k l'
  end.

Definition group_keys (l : list cell) : list str :=
  foldr (fun c acc => match c with Str k => insert_key k acc | Num _ => acc end)
        [] l.

(* ===================================================================== *)
(** ** Python: [round(x, 2)] and the workbook writer *)
(* ===================================================================== *)

(** Nearest integer to [n / d], ties to even. *)
Definition div_half_even (n d : Z) : Z :=
  let q := n / d in
  let r := n mod d in
  match 2 * r ?= d with
  | Lt => q
  | Gt => q + 1
  | Eq => if Z.even q then q else q + 1
  end.

(** [round(x, 2)] on a float: the exact value is rounded to two decimals,
    ties to even, and the decimal result is read back as the nearest
    binary64. *)
Definition round2 (x : float) : float :=
  match x with
  | S754_finite s m e =>
    if 0 <=? e then x
    else
      match div_half_even (Z.pos m * 100) (2 ^ (- e)) with
      | Z.pos q =>
        let '(mz, ez, lz) := SFdiv_core_binary F64.prec F64.emax (Z.pos q) 0 100 0 in
        binary_round_aux F64.prec F64.emax s mz ez lz
      | _ => S754_zero s
      end
  | _ => x
  end.

Record sheet := mkSheet {
  sheet_name : str;
  sheet_header : list str;
  sheet_rows : list (list cell)
}.

Abbreviation workbook := (list sheet).

(** openpyxl refuses text that holds a control character other than tab,
    line feed and carriage return, with its own IllegalCharacterError. *)
Definition illegal_char (c : N) : bool :=
  ((c <=? 8) || (11 <=? c) && (c <=? 12) || (14 <=? c) && (c <=? 31))%N.

Definition writable (c : cell) : bool :=
  match c with
  | Str s => forallb (fun c => negb (illegal_char c)) s
  | Num _ => true
  end.

(** A sheet has 2^20 rows and 2^14 columns. *)
Definition max_rows : Z := 2 ^ 20.
Definition max_cols : Z := 2 ^ 14.

(** The cells in the order in which they are written, each with the row
    of the sheet it goes to, counted from zero: the header, then the body
    column by column. *)
Definition cells_written (df : DataFrame) : list (Z * cell) :=
  map (fun c => (0%Z, Str c)) (columns df)
  ++ concat (imap (fun j _ =>
                     imap (fun i r => ((Z.of_nat i + 1)%Z, cell_at j r)) (rows df))
                  (columns df)).

(** What writing one cell raises: openpyxl has no row after the last row
    of a sheet, which is a ValueError, and refuses a text that holds an
    illegal character. *)
Definition cell_error (rc : Z * cell) : option exn :=
  if (max_rows <=? rc.1)%Z then Some ValueError
  else if writable rc.2 then None
  else Some IllegalCharacterError.

Fixpoint first_error (cells : list (Z * cell)) : option exn :=
  match cells with
  | [] => None
  | rc :: cells =>
    match cell_error rc with
    | Some e => Some e
    | None => first_error cells
    end
  end.

(** [df.to_excel(writer, index=False, sheet_name=name)]: pandas refuses,
    with a ValueError, a table that has more rows or more columns than a
    sheet; then the cells are written one by one. *)
Definition to_excel (df : DataFrame) (name : str) : result sheet :=
  if (max_rows <? Z.of_nat (length (rows df)))%Z
     || (max_cols <? Z.of_nat (length (columns df)))%Z
  then Raise ValueError
  else
    match first_error (cells_written df) with
    | Some e => Raise e
    | None => Ok (mkSheet name (columns df) (map snd (rows df)))
    end.

(* ===================================================================== *)
(** ** Objects

    DataFrames are objects: [sort_values(inplace=True)] changes the object
    it is called on, and whoever else holds it sees the change. The store
    maps addresses to tables; an exception leaves the store as it was when
    it was raised. *)
(* ===================================================================== *)

Abbreviation loc := nat.
Abbreviation heap := (list DataFrame).

Definition M (A : Type) : Type := heap -> result A * heap.

#[global] Instance M_ret : MRet M := fun _ a h => (Ok a, h).
#[global] Instance M_bind : MBind M := fun _ _ f m h =>
  match m h with
  | (Ok a, h') => f a h'
  | (Raise e, h') => (Raise e, h')
  end.

Definition lift {A} (r : result A) : M A := fun h => (r, h).

(** A new object. *)
Definition alloc (df : DataFrame) : M loc := fun h => (Ok (length h), h ++ [df]).

Definition load (l : loc) : M DataFrame := fun h =>
  match h !! l with
  | Some df => (Ok df, h)
  | None => (Raise LookupError, h)
  end.

Definition store (l : loc) (df : DataFrame) : M unit := fun h =>
  (Ok tt, <[l := df]> h).

(** [df.copy()] *)
Definition copy (l : loc) : M loc := df ← load l; alloc df.

(** [df[mask]] as a new object *)
Definition getitem_mask (l : loc) (mask : list bool) : M loc :=
  df ← load l; alloc (getmask df mask).

(** [df.sort_values(by=c, inplace=True, na_position="last")] *)
Definition sort_values_inplace (l : loc) (c : str) : M unit :=
  df ← load l; s ← lift (sort_values df c); store l s.

(* ===================================================================== *)
(** ** app.py *)
(* ===================================================================== *)

(** Column labels and category labels, as the literals of the source. *)
Definition Data : str := py "Data".
Definition Tipo : str := py "Tipo".
Definition Detalhe : str := py "Detalhe".
Definition Identificador : str := py "Identificador".
Definition Valor : str := py "Valor".
Definition Observacao : str := py "Observação".
Definition Valor_raw : str := py "Valor_raw".
Definition Arquivo : str := py "Arquivo".
Definition Tipo_norm : str := py "Tipo_norm".

Definition tarifa_label : str := py "tarifa operacoes pix".
Definition devol_label : str := py "devolucao recebida pix".

(** [^([0-9\.,]+)-$] replaced by [-\1]: a non-empty run of digits, periods
    and commas from the start, then one hyphen, then the end of the text
    (which [$] also finds before a final line feed). The anchored pattern
    matches at most once. *)
Definition in_number_class (c : N) : bool :=
  isdigit_ascii c || (c =? 46)%N || (c =? 44)%N.

Fixpoint span_number (s : str) : str * str :=
  match s with
  | c :: s' =>
    if in_number_class c
    then let '(run, rest) := span_number s' in (c :: run, rest)
    else ([], s)
  | [] => ([], [])
  end.

Definition sub_trailing_minus (s : str) : str :=
  match span_number s with
  | ((_ :: _) as run, 45%N :: tail) =>
      if bool_decide (tail = []) || bool_decide (tail = [10%N])
      then 45%N :: run ++ tail
      else s
  | _ => s
  end.

#[global] Instance byte_eq_dec : EqDecision Byte.byte := Byte.byte_eq_dec.

Definition bytes_startswith (p b : bytes) : bool :=
  bool_decide (take (length p) b = p).

Section App.
Context `{!Runtime}.

Definition detect_encoding (b : bytes) : str :=
  if bytes_startswith [Byte.xef; Byte.xbb; Byte.xbf] b then py "utf-8-sig"
  else
    let guess := chardet_detect b in
    let enc := lower (match guess with
                      | Some ((_ :: _) as e) => e
                      | _ => py "utf-8"
                      end) in
    if bool_decide (enc ∈ [py "iso-8859-1"; py "latin-1"; py "latin1"])
    then py "latin1"
    else enc.

(** [str(s)] of a cell *)
Definition to_str (c : cell) : str :=
  match c with
  | Str s => s
  | Num x => float_str x
  end.

Definition normalize_text (s : option cell) : str :=
  match s with
  | None => []
  | Some c =>
    let s := to_str c in
    let s := nfkd s in
    let s := filter (fun ch => combining ch = 0%N) s in
    strip (lower s)
  end.

Definition clean_val (series : list cell) : list cell :=
  let s := map to_str series in
  let s := map (replace [160%N] []) s in          (* NBSP *)
  let s := map (replace (py "R$") []) s in
  let s := map (replace (py " ") []) s in
  let s := map (replace [8722%N] (py "-")) s in   (* unicode minus *)
  let s := map sub_trailing_minus s in            (* 0,45- -> -0,45 *)
  let s := map (replace (py ".") []) s in         (* thousands *)
  let s := map (replace (py ",") (py ".")) s in   (* decimal *)
  map (fun x => Num (to_numeric x)) s.

(** The first index [i] with
    [lines[i].strip().lower().startswith("data;")] *)
Fixpoint find_header (i : nat) (lines : list str) : option nat :=
  match lines with
  | [] => None
  | line :: rest =>
    if startswith (py "data;") (lower (strip line)) then Some i
    else find_header (S i) rest
  end.

(** The branch taken for one column in the renaming loop. *)
Definition canonical (col : str) : option str :=
  let c := lower (strip col) in
  if startswith (py "data") c then Some Data
  else if startswith (py "tipo") c then Some Tipo
  else if startswith (py "detalhe") c then Some Detalhe
  else if contains (py "identificador") c then Some Identificador
  else if startswith (py "valor") c then Some Valor
  else if contains (py "observa") c then Some Observacao
  else None.

Definition read_bs2_csv (file_bytes : bytes) : result DataFrame :=
  let enc := detect_encoding file_bytes in
  text ← decode enc file_bytes;
  let lines := splitlines text in
  match find_header 0 lines with
  | None => Ok no_frame
  | Some header_idx =>
    let sliced := join [10%N] (drop header_idx lines) in
    df ← read_csv sliced;
    let df := rename (foldl (fun m c => <[c := strip c]> m) ∅ (columns df)) df in
    let rename_map :=
      foldl (fun m col => match canonical col with
                          | Some name => <[col := name]> m
                          | None => m
                          end) ∅ (columns df) in
    let df := rename rename_map df in
    let df := foldl (fun df c =>
                       if bool_decide (c ∈ columns df) then df
                       else setitem_scalar df c (Str []))
                    df [Data; Tipo; Detalhe; Identificador; Valor; Observacao] in
    valor ← getitem df Valor;
    df ← setitem df Valor_raw valor;
    valor ← get_series df Valor;
    df ← setitem df Valor (Series (clean_val valor));
    select df [Data; Tipo; Detalhe; Identificador; Valor; Observacao; Valor_raw]
  end.

Definition consolidate (files : list (str * bytes)) : result DataFrame :=
  frames ← foldl (fun acc '(name, content) =>
                    frames ← acc;
                    df ← read_bs2_csv content;
                    if negb (empty df)
                    then Ok (frames ++ [setitem_scalar df Arquivo (Str name)])
                    else Ok frames)
                 (Ok []) files;
  match frames with
  | [] => Ok (empty_with [Arquivo; Data; Tipo; Detalhe; Identificador; Valor;
                          Observacao; Valor_raw])
  | _ => concat_frames frames
  end.

(** The total of one subset:
    [float(sub["Valor"].sum()) if not sub.empty else 0.0] *)
Definition total_of (sub : loc) : M float :=
  d ← load sub;
  if negb (empty d)
  then v ← lift (get_series d Valor); lift (nansum v)
  else mret F64.zero.

Definition filter_and_totals (df : loc) : M (loc * loc * float * float) :=
  d ← load df;
  if empty d then
    a ← copy df; b ← copy df; mret (a, b, F64.zero, F64.zero)
  else
    tipo ← lift (get_series d Tipo);
    let tipo_norm := map (fun c => normalize_text (Some c)) tipo in
    let tarifa_mask := map (contains tarifa_label) tipo_norm in
    let devol_mask := map (contains devol_label) tipo_norm in
    t ← getitem_mask df tarifa_mask; tarifa ← copy t;
    t ← getitem_mask df devol_mask; devol ← copy t;
    total_tarifa ← total_of tarifa;
    total_devol ← total_of devol;
    mret (tarifa, devol, total_tarifa, total_devol).

Definition detail_columns : list str :=
  [Arquivo; Data; Tipo; Detalhe; Identificador; Valor; Observacao].

(** One detail sheet of the workbook. *)
Definition detail_sheet (sub : loc) (name : str) : M sheet :=
  d ← load sub;
  if negb (empty d) then
    let cols := filter (fun c => c ∈ columns d) detail_columns in
    _ ← sort_values_inplace sub Data;
    d ← load sub;
    s ← lift (select d cols);
    lift (to_excel s name)
  else lift (to_excel (empty_with detail_columns) name).

Definition to_excel_bytes (total_tarifa total_devol : float) (devol tarifa : loc)
  : M workbook :=
  resumo ← lift (to_excel
    (mkDF [py "Transação"; py "Valor Total (R$)"]
          [(Pos 0, [Str (py "Total Tarifa Operações Pix"); Num (round2 total_tarifa)]);
           (Pos 1, [Str (py "Total Devolução Recebida Pix"); Num (round2 total_devol)])])
    (py "Resumo Tarifa Pix"));
  s_devol ← detail_sheet devol (py "Devolução Recebida Pix");
  s_tarifa ← detail_sheet tarifa (py "Detalhe Tarifas Pix");
  mret [resumo; s_devol; s_tarifa].

(** The button that adds the uploaded files to the session: the keys are
    taken once, before the loop. *)
Definition existing_keys (session : list (str * bytes)) : gset (str * nat) :=
  list_to_set (map (fun '(n, b) => (n, length b)) session).

Definition add_files (session uploads : list (str * bytes))
  : list (str * bytes) * nat :=
  let keys := existing_keys session in
  foldl (fun '(session, added) '(name, content) =>
           let key := (name, length content) in
           if bool_decide (key ∉ keys)
           then (session ++ [(name, content)], S added)
           else (session, added))
        (session, 0%nat) uploads.

(** One line of the summary per file: number of rows and the two totals
    of the rows whose normalised type equals the label. The groups are
    the distinct values of Arquivo (file names) in ascending order. *)
Definition total_eq (g : DataFrame) (label : str) : result float :=
  tn ← get_series g Tipo_norm;
  v ← get_series (getmask g (map (fun c => bool_decide (c = Str label)) tn)) Valor;
  nansum v.

Definition resumo_arquivo (df_all : DataFrame)
  : result (list (str * nat * float * float)) :=
  tipo ← get_series df_all Tipo;
  let df_tmp :=
    assign Tipo_norm (map (fun c => Str (normalize_text (Some c))) tipo) df_all in
  arquivo ← get_series df_tmp Arquivo;
  traverse (fun k =>
              let g := getmask df_tmp (map (fun c => bool_decide (c = Str k)) arquivo) in
              total_tarifa ← total_eq g tarifa_label;
              total_devol ← total_eq g devol_label;
              Ok (k, length (rows g), total_tarifa, total_devol))
           (group_keys arquivo).

(** The processing block of the page, for a non-empty session. *)
Definition processamento (files : list (str * bytes))
  : M (loc * float * float * option (list (str * nat * float * float)) * workbook) :=
  all ← lift (consolidate files);
  df_all ← alloc all;
  '(tarifa, devol, total_tarifa, total_devol) ← filter_and_totals df_all;
  d ← load df_all;
  resumo ← (if negb (empty d)
            then r ← lift (resumo_arquivo d); mret (Some r)
            else mret None);
  excel_bytes ← to_excel_bytes total_tarifa total_devol devol tarifa;
  mret (df_all, total_tarifa, total_devol, resumo, excel_bytes).
End App.

(* ===================================================================== *)
(** ** A runtime for 7-bit statements

    What CPython and chardet do on input made of ASCII bytes only: chardet
    reports [ascii] (nothing for empty input) when the bytes hold no
    escape and no tilde followed by a brace, where it goes on to look for
    an escape sequence, decoding maps each byte to its code point, NFKD leaves ASCII text
    alone, no ASCII character is a combining mark, and lower-casing
    touches [A-Z] only. Beyond that domain the instance is not meant to be
    used: it reports no encoding there, bytes above 127 decode to U+FFFD
    except under latin1, and of the floats only NaN, the infinities and
    the zeros are printed as Python prints them. It serves to run the
    model on concrete statement files. *)
(* ===================================================================== *)

Definition ascii_float_str (x : float) : str :=
  match x with
  | S754_nan => py "nan"
  | S754_infinity false => py "inf"
  | S754_infinity true => py "-inf"
  | S754_zero false | S754_finite false _ _ => py "0.0"
  | S754_zero true | S754_finite true _ _ => py "-0.0"
  end.

Definition ascii_decode (enc : str) (b : bytes) : result str :=
  let cps := map Byte.to_N b in
  if bool_decide (enc = py "latin1") then Ok cps
  else if bool_decide (enc ∈ [py "ascii"; py "utf-8"])
  then Ok (map (fun c => if (c <? 128)%N then c else 65533%N) cps)
  else if bool_decide (enc = py "utf-8-sig")
  then Ok (map (fun c => if (c <? 128)%N then c else 65533%N)
               (if bytes_startswith [Byte.xef; Byte.xbb; Byte.xbf] b
                then drop 3 cps else cps))
  else Raise LookupError.

(** The bytes at which chardet leaves its pure-ASCII state: an escape, or
    a tilde followed by an opening brace. *)
Fixpoint has_escape (b : list N) : bool :=
  match b with
  | 27%N :: _ => true
  | 126%N :: ((123%N :: _) as rest) => true
  | _ :: rest => has_escape rest
  | [] => false
  end.

Definition ascii_runtime : Runtime := {|
  nfkd s := s;
  combining _ := 0%N;
  lower := map tolower_ascii;
  float_str := ascii_float_str;
  chardet_detect b :=
    match b with
    | [] => None
    | _ => if forallb (fun c => (Byte.to_N c <? 128)%N) b
              && negb (has_escape (map Byte.to_N b))
           then Some (py "ascii") else None
    end;
  decode := ascii_decode
|}.

(** The bytes of an ASCII literal. *)
Definition ascii_bytes (s : string) : bytes := list_byte_of_string s.

(* ===================================================================== *)
(** ** Statement files used as concrete inputs *)
(* ===================================================================== *)

(** Preamble, header with every canonical column, one fee and one refund. *)
Definition file_regular : bytes := ascii_bytes
"BS2 extrato
Data;Tipo;Detalhe;Identificador;Valor;Observacao
01/02/2024;Tarifa Operacoes Pix;d;;0,45-;
03/01/2024;Devolucao Recebida Pix;d;i;R$ 1.234,56;o
".

(** No header line. *)
Definition file_no_header : bytes := ascii_bytes "nada".

(** Two source columns whose names start with [valor]. *)
Definition file_two_valor : bytes := ascii_bytes
"Data;Valor;Valor Liquido
01/01;1,00;2,00
".

(** The second data row has one field more than the rows before it. *)
Definition file_extra_delimiter : bytes := ascii_bytes
"Data;Valor
01/01;1,00
02/01;2,00;x
".

(** Two source columns whose names start with [data]. *)
Definition file_two_data : bytes := ascii_bytes
"Data;Data Fim;Valor
01/01;02/01;2,00
".

(** A fee whose type carries more text than the label. *)
Definition file_fee_suffix : bytes := ascii_bytes
"Data;Tipo;Valor
01/01;Tarifa Operacoes Pix Enviado;1,00
".


(** [-1.000. ... .000,00] with 103 groups of three zeros: minus ten to the
    power 309. *)
Definition text_huge : str :=
  py "-1" ++ concat (replicate 103 (py ".000")) ++ py ",00".

(* ===================================================================== *)
(** ** Definitions that follow the specification's words *)
(* ===================================================================== *)

Abbreviation row := (label * list cell)%type.

(** The seven canonical columns, in the order of the returned table. *)
Definition canonical_columns : list str :=
  [Data; Tipo; Detalhe; Identificador; Valor; Observacao; Valor_raw].

(** The Value of a row as it enters a sum: a missing value counts as
    zero. *)
Definition present_or_zero (c : cell) : float :=
  match c with
  | Num x => if F64.is_nan x then F64.zero else x
  | Str _ => F64.zero
  end.

(** Sum of the Value field over [rs], in binary64 and in the order in
    which numpy adds; [j] is the position of the Value column. *)
Definition sum_present (j : nat) (rs : list row) : float :=
  np_sum (map (fun r => present_or_zero (cell_at j r)) rs).

(** Every cell of the rows can be written to a sheet. *)
Definition writable_rows (rs : list row) : Prop :=
  Forall (fun r => Forall (fun c => writable c = true) r.2) rs.

(** A table of so many rows and columns fits a sheet under its header. *)
Definition fits_sheet (nrows ncols : nat) : Prop :=
  (Z.of_nat nrows < max_rows)%Z /\ (Z.of_nat ncols <= max_cols)%Z.

(** Ascending order of two Date cells: texts by code points, the empty
    text before every other, and a NaN after every text. *)
Definition date_le (a b : cell) : Prop :=
  match a, b with
  | Str x, Str y => str_leb x y = true
  | _, Num _ => True
  | Num _, Str _ => False
  end.

(** A text column: every cell is text or NaN. *)
Definition text_or_missing (c : cell) : Prop :=
  match c with
  | Str _ => True
  | Num x => F64.is_nan x = true
  end.

(** [sd] holds the rows of [d] in ascending order of the Date, which is
    the column at position [i], under the same columns. *)
Definition sorted_by_date (i : nat) (d sd : DataFrame) : Prop :=
  columns sd = columns d
  /\ rows sd ≡ₚ rows d
  /\ StronglySorted date_le (map (cell_at i) (rows sd)).

(** A decimal numeral, as a number: the value of a list of ASCII digits. *)
Definition digits_value (ds : str) : Z :=
  foldl (fun n c => 10 * n + digit_val c) 0 ds.

Section Spec.
Context `{!Runtime}.

(** Category predicate of the specification: the normalised Type
    contains the label; [i] is the position of the Type column. *)
Definition matches (label : str) (i : nat) (r : row) : bool :=
  contains label (normalize_text (Some (cell_at i r))).

(** Steps 2 to 8 of the numeric parser on one text. *)
Definition clean_text (s : str) : str :=
  replace (py ",") (py ".")
    (replace (py ".") []
       (sub_trailing_minus
          (replace [8722%N] (py "-")
             (replace (py " ") []
                (replace (py "R$") []
                   (replace [160%N] [] s)))))).

(** The consolidator as the specification words it: read every file,
    drop the empty results, stamp, concatenate. *)
Definition stamp (nd : str * DataFrame) : DataFrame :=
  setitem_scalar nd.2 Arquivo (Str nd.1).

Definition consolidate_spec (files : list (str * bytes)) : result DataFrame :=
  dfs ← traverse (fun f => read_bs2_csv f.2) files;
  match filter (fun nd => empty nd.2 = false) (zip (map fst files) dfs) with
  | [] => Ok (empty_with (Arquivo :: canonical_columns))
  | surviving => concat_frames (map stamp surviving)
  end.
End Spec.

(** The tables the reader and the consolidator build from these files. *)
Definition table_two_data : DataFrame :=
  mkDF [Data; Data; Tipo; Detalhe; Identificador; Valor; Observacao; Valor_raw]
       [(Pos 0, [Str (py "01/01"); Str (py "02/01"); Str []; Str []; Str [];
                 Num (F64.of_Z 2); Str []; Str (py "2,00")])].

Definition table_fee_suffix : DataFrame :=
  mkDF [Data; Tipo; Detalhe; Identificador; Valor; Observacao; Valor_raw; Arquivo]
       [(Pos 0, [Str (py "01/01"); Str (py "Tarifa Operacoes Pix Enviado");
                 Str []; Str []; Num (F64.of_Z 1); Str []; Str (py "1,00");
                 Str (py "a.csv")])].


(* ===================================================================== *)
(** ** Auxiliary definitions used in the statements and proofs below *)
(* ===================================================================== *)

(** [p] shifted left by [n] bits. *)
Definition shl (p : positive) (n : nat) : positive := Nat.iter n xO p.

(** Number of binary digits of a positive number. *)
Definition ndigits (p : positive) : nat := Pos.to_nat (digits2_pos p).

(** A text of ASCII digits. *)
Definition all_digits (s : str) : Prop := Forall (fun c => isdigit_ascii c = true) s.

(** [-] digits grouped by periods [,] decimals, e.g. [-1.234,56]. *)
Definition leading_minus_text (groups : list str) (frac : str) : str :=
  py "-" ++ join (py ".") groups ++ py "," ++ frac.

(** The session key of an uploaded file. *)
Definition file_key (f : str * bytes) : str * nat := (f.1, length f.2).

(** A keyed row whose key is text. *)
Definition text_keyed {A} (kr : cell * A) : Prop := exists s, kr.1 = Str s.

(** The rows of one file with the file name appended to each. *)
Definition stamped_rows (nd : str * DataFrame) : list row :=
  map (fun r => (r.1, r.2 ++ [Str nd.1])) (rows nd.2).

Definition nonempty (nd : str * DataFrame) : Prop := empty nd.2 = false.

Section Aux.
Context `{!Runtime}.

(** [float(sub["Valor"].sum()) if not sub.empty else 0.0] on a table. *)
Definition total_pure (t : DataFrame) : result float :=
  if negb (empty t) then v ← get_series t Valor; nansum v else Ok F64.zero.

(** The boolean mask of a category over the Type column. *)
Definition type_mask (label : str) (tipo : list cell) : list bool :=
  map (contains label) (map (fun c => normalize_text (Some c)) tipo).

(** Positions of the columns a detail sheet shows. *)
Definition detail_positions (d : DataFrame) : list nat :=
  concat (map (fun c => positions c d)
              (filter (fun c => c ∈ columns d) detail_columns)).

(** The cells of one row that a detail sheet shows. *)
Definition detail_row (d : DataFrame) (r : row) : list cell :=
  map (fun i => cell_at i r) (detail_positions d).
End Aux.

(** The table the reader builds from [file_regular]. *)
Definition table_regular : DataFrame :=
  mkDF [Data; Tipo; Detalhe; Identificador; Valor; Observacao; Valor_raw]
       [(Pos 0, [Str (py "01/02/2024"); Str (py "Tarifa Operacoes Pix");
                 Str (py "d"); Str []; Num (S754_finite true 8106479329266893 (-54));
                 Str []; Str (py "0,45-")]);
        (Pos 1, [Str (py "03/01/2024"); Str (py "Devolucao Recebida Pix");
                 Str (py "d"); Str (py "i");
                 Num (S754_finite false 5429652300748554 (-42));
                 Str (py "o"); Str (py "R$ 1.234,56")])].

(** Two uploads: a regular statement and a file without header line. *)
Definition files_two : list (str * bytes) :=
  [(py "a.csv", file_regular); (py "b.csv", file_no_header)].

(** A subset with three rows, the second with NaN as date. *)
Definition table_dates : DataFrame :=
  mkDF [Data; Tipo; Detalhe; Identificador; Valor; Observacao; Valor_raw; Arquivo]
       [(Pos 0, [Str (py "02/01/2024"); Str (py "Tarifa Operacoes Pix");
                 Str []; Str []; Num (F64.of_Z 1); Str []; Str (py "1,00");
                 Str (py "a.csv")]);
        (Pos 1, [NaN; Str (py "Tarifa Operacoes Pix");
                 Str []; Str []; Num (F64.of_Z 2); Str []; Str (py "2,00");
                 Str (py "a.csv")]);
        (Pos 2, [Str (py "01/01/2024"); Str (py "Tarifa Operacoes Pix");
                 Str []; Str []; Num (F64.of_Z 3); Str []; Str (py "3,00");
                 Str (py "a.csv")])].

(* ===================================================================== *)
(** ** Definitions used to state further properties *)
(* ===================================================================== *)

(** A row of a consolidated table: eight cells, a number (or NaN) as
    Valor and the file name as text. *)
Definition consolidated_row (r : row) : Prop :=
  length r.2 = 8%nat
  /\ (exists x, cell_at 4 r = Num x)
  /\ (exists name, cell_at 7 r = Str name).

(** The rows stamped with the file name [k]. *)
Definition file_rows (k : str) (rs : list row) : list row :=
  filter (fun r => cell_at 7 r = Str k) rs.

Section MoreSpec.
Context `{!Runtime}.

(** The rows whose normalised type is exactly [label]. *)
Definition exact_rows (label : str) (rs : list row) : list row :=
  filter (fun r => normalize_text (Some (cell_at 1 r)) = label) rs.

(** The line of the per-file summary for the file [k]. *)
Definition resumo_line (rs : list row) (k : str) : str * nat * float * float :=
  (k, length (file_rows k rs),
   sum_present 4 (exact_rows tarifa_label (file_rows k rs)),
   sum_present 4 (exact_rows devol_label (file_rows k rs))).
End MoreSpec.


(** A table in which every row has one cell per column. *)
Definition rectangular (d : DataFrame) : Prop :=
  Forall (fun r => length r.2 = length (columns d)) (rows d).

Section ReaderSteps.
Context `{!Runtime}.

(** The table the reader has once the parsed table [df] went through the
    two renamings and the loop that adds the absent canonical columns. *)
Definition with_canonical_columns (df : DataFrame) : DataFrame :=
  let df := rename (foldl (fun m c => <[c := strip c]> m) ∅ (columns df)) df in
  let rename_map :=
    foldl (fun m col => match canonical col with
                        | Some name => <[col := name]> m
                        | None => m
                        end) ∅ (columns df) in
  let df := rename rename_map df in
  foldl (fun df c =>
           if bool_decide (c ∈ columns df) then df
           else setitem_scalar df c (Str []))
        df [Data; Tipo; Detalhe; Identificador; Valor; Observacao].

(** The text the reader hands to the CSV parser. *)
Definition sliced_text (file_bytes : bytes) : result (option str) :=
  text ← decode (detect_encoding file_bytes) file_bytes;
  let lines := splitlines text in
  Ok (match find_header 0 lines with
      | None => None
      | Some header_idx => Some (join [10%N] (drop header_idx lines))
      end).

(** The last steps of the reader: the raw copy of Valor, its parsing and
    the selection of the seven columns. *)
Definition finish_columns (df : DataFrame) : result DataFrame :=
  valor ← getitem df Valor;
  df ← setitem df Valor_raw valor;
  valor ← get_series df Valor;
  df ← setitem df Valor (Series (clean_val valor));
  select df [Data; Tipo; Detalhe; Identificador; Valor; Observacao; Valor_raw].
End ReaderSteps.

(** The closed lines of the tokenizer, last first: nothing yet, or a
    header under data lines that all have one width, not smaller than the
    header's. *)
Definition lines_aligned (L : list (list str)) : Prop :=
  L = [] \/
  exists hdr data w,
    L = data ++ [hdr] /\ (length hdr <= w)%nat /\ Forall (fun l => length l = w) data.

(** Every cell of the table is text. *)
Definition all_text (d : DataFrame) : Prop :=
  Forall (fun r => Forall (fun c => exists s, c = Str s) r.2) (rows d).

(* ===================================================================== *)
(** ** Further concrete inputs *)
(* ===================================================================== *)

(** Two fees; the Date field of the second is empty. *)
Definition file_missing_date : bytes := ascii_bytes
"Data;Tipo;Valor
05/01/2024;Tarifa Operacoes Pix;1,50
;Tarifa Operacoes Pix;2,50
".

(** The consolidation of [file_missing_date] under the name [a.csv]. *)
Definition table_missing_date : DataFrame :=
  mkDF [Data; Tipo; Detalhe; Identificador; Valor; Observacao; Valor_raw; Arquivo]
       [(Pos 0, [Str (py "05/01/2024"); Str (py "Tarifa Operacoes Pix");
                 Str []; Str []; Num (S754_finite false 6755399441055744 (-52)); Str [];
                 Str (py "1,50"); Str (py "a.csv")]);
        (Pos 1, [Str []; Str (py "Tarifa Operacoes Pix");
                 Str []; Str []; Num (S754_finite false 5629499534213120 (-51)); Str [];
                 Str (py "2,50"); Str (py "a.csv")])].

(** A subset of three fees, the last two of the same date. *)
Definition table_same_date : DataFrame :=
  mkDF [Data; Tipo; Detalhe; Identificador; Valor; Observacao; Valor_raw; Arquivo]
       [(Pos 0, [Str (py "02/01/2024"); Str (py "Tarifa Operacoes Pix");
                 Str []; Str []; Num (F64.of_Z 1); Str []; Str (py "1,00");
                 Str (py "a.csv")]);
        (Pos 1, [Str (py "01/01/2024"); Str (py "Tarifa Operacoes Pix");
                 Str []; Str []; Num (F64.of_Z 2); Str []; Str (py "2,00");
                 Str (py "a.csv")]);
        (Pos 2, [Str (py "01/01/2024"); Str (py "Tarifa Operacoes Pix");
                 Str []; Str []; Num (F64.of_Z 3); Str []; Str (py "3,00");
                 Str (py "a.csv")])].


(** The consolidation of [files_two]. *)
Definition table_consolidated : DataFrame :=
  mkDF [Data; Tipo; Detalhe; Identificador; Valor; Observacao; Valor_raw; Arquivo]
       [(Pos 0, [Str (py "01/02/2024"); Str (py "Tarifa Operacoes Pix");
                 Str (py "d"); Str []; Num (S754_finite true 8106479329266893 (-54));
                 Str []; Str (py "0,45-"); Str (py "a.csv")]);
        (Pos 1, [Str (py "03/01/2024"); Str (py "Devolucao Recebida Pix");
                 Str (py "d"); Str (py "i");
                 Num (S754_finite false 5429652300748554 (-42));
                 Str (py "o"); Str (py "R$ 1.234,56"); Str (py "a.csv")])].

(** A table with a Tipo column only, holding one fee. *)
Definition table_type_only : DataFrame :=
  mkDF [Tipo] [(Pos 0, [Str (py "Tarifa Operacoes Pix")])].

(** The result of a computation that is known to return. *)
Definition returned {A} (r : result A) (otherwise : A) : A :=
  match r with Ok a => a | Raise _ => otherwise end.

(* ===================================================================== *)
(** ** The numeric parser on the examples of the specification *)
(* ===================================================================== *)

Section NumericParser.
Context `{!Runtime}.

Lemma clean_val_map (series : list cell) :
  clean_val series = map (fun c => Num (to_numeric (clean_text (to_str c)))) series.
Proof.
  unfold clean_val, clean_text. rewrite !map_map. reflexivity.
Qed.

(** C5: on the four examples of the specification the numeric parser
    yields 1234.56, -0.45, a missing value and -1.0; each number is given
    by its binary64 representation and, where it is not an integer,
    checked to be the binary64 nearest to the decimal value. *)
Theorem clean_val_examples :
  clean_val [Str (py "R$ 1.234,56")]
    = [Num (S754_finite false 5429652300748554 (-42))]
  /\ F64.nearest (123456 # 100) (S754_finite false 5429652300748554 (-42)) = true
  /\ clean_val [Str (py "0,45-")]
    = [Num (S754_finite true 8106479329266893 (-54))]
  /\ F64.nearest (- 45 # 100) (S754_finite true 8106479329266893 (-54)) = true
  /\ clean_val [Str (py "")] = [NaN]
  /\ clean_val [Str (py "R$ -1,00")] = [Num (F64.opp (F64.of_Z 1))].
Proof.
  rewrite !clean_val_map. repeat split; vm_compute; reflexivity.
Qed.
End NumericParser.

(* ===================================================================== *)
(** ** The session collection *)
(* ===================================================================== *)

Section Session.
Implicit Types session uploads : list (str * bytes).

Lemma elem_of_existing_keys session k :
  k ∈ existing_keys session <-> exists f, f ∈ session /\ file_key f = k.
Proof.
  unfold existing_keys. rewrite elem_of_list_to_set.
  change (map ?f ?l) with (f <$> l). rewrite list_elem_of_fmap.
  split; intros [[n b] [? ?]]; exists (n, b); split; auto.
Qed.

Lemma filter_none {A} (P : A -> Prop) `{!forall x, Decision (P x)} (l : list A) :
  (forall x, x ∈ l -> ~ P x) -> filter P l = [].
Proof.
  induction l as [|a l IH]; intros Hl; [reflexivity|].
  rewrite filter_cons, decide_False.
  - apply IH. intros x Hx. apply Hl. right. exact Hx.
  - apply Hl. left.
Qed.

(** The loop appends, in order, the uploads whose key was not in the
    session when the button was pressed. *)
Lemma add_files_filter session uploads :
  add_files session uploads =
    (session ++ filter (fun f => file_key f ∉ existing_keys session) uploads,
     length (filter (fun f => file_key f ∉ existing_keys session) uploads)).
Proof.
  unfold add_files.
  set (keys := existing_keys session).
  assert (forall s a,
    foldl (fun '(session, added) '(name, content) =>
             let key := (name, length content) in
             if bool_decide (key ∉ keys)
             then (session ++ [(name, content)], S added)
             else (session, added)) (s, a) uploads
    = (s ++ filter (fun f => file_key f ∉ keys) uploads,
       (a + length (filter (fun f => file_key f ∉ keys) uploads))%nat)) as Hgen.
  { induction uploads as [|[n b] uploads IH]; intros s a; simpl.
    - rewrite app_nil_r. f_equal. lia.
    - rewrite filter_cons.
      change (file_key (n, b)) with (n, length b).
      destruct (decide ((n, length b) ∉ keys)) as [Hk|Hk].
      + rewrite bool_decide_true by exact Hk. rewrite IH. simpl.
        rewrite <- app_assoc. simpl. f_equal. lia.
      + rewrite bool_decide_false by exact Hk. apply IH. }
  rewrite Hgen. reflexivity.
Qed.

(** C8: a submitted file is appended exactly when no entry of the
    session shares its (name, byte length) key, and submitting the same
    files again, a single pair in particular, leaves the collection as
    it is, so its length does not grow. *)
Theorem add_files_idempotent session uploads :
  (add_files session uploads).1
    = session ++ filter (fun f => file_key f ∉ existing_keys session) uploads
  /\ add_files (add_files session uploads).1 uploads
     = ((add_files session uploads).1, 0%nat)
  /\ forall name content,
      length (add_files (add_files session [(name, content)]).1
                        [(name, content)]).1
      = length (add_files session [(name, content)]).1.
Proof.
  assert (forall ups, add_files (add_files session ups).1 ups
                      = ((add_files session ups).1, 0%nat)) as Hidem.
  { intros ups. rewrite (add_files_filter session ups). simpl.
    rewrite add_files_filter.
    assert (filter (fun f => file_key f ∉
              existing_keys (session ++
                filter (fun f0 => file_key f0 ∉ existing_keys session) ups)) ups
            = []) as ->.
    { apply filter_none. intros f Hf Hnot. apply Hnot.
      apply elem_of_existing_keys.
      destruct (decide (file_key f ∈ existing_keys session)) as [Hin|Hout].
      - apply elem_of_existing_keys in Hin as [g [Hg Hk]].
        exists g. split; [|exact Hk]. apply elem_of_app. left. exact Hg.
      - exists f. split; [|reflexivity]. apply elem_of_app. right.
        apply list_elem_of_filter. split; assumption. }
    rewrite app_nil_r. reflexivity. }
  split; [|split].
  - rewrite add_files_filter. reflexivity.
  - apply Hidem.
  - intros name content. rewrite Hidem. reflexivity.
Qed.
End Session.

(* ===================================================================== *)
(** ** The statement reader on concrete files *)
(* ===================================================================== *)

(** C2: the reader raises on a statement with two columns named after
    [valor] (both are renamed to Valor, and a two-column selection cannot
    be stored as Valor_raw) and on a statement whose later row has an
    extra delimiter (the CSV parser refuses the row). *)
Theorem read_bs2_csv_raises :
  @read_bs2_csv ascii_runtime file_two_valor = Raise ValueError
  /\ @read_bs2_csv ascii_runtime file_extra_delimiter = Raise ParserError.
Proof. split; vm_compute; reflexivity. Qed.

(** C6: on a statement with two columns named after [data] the reader
    finds the header and returns eight columns, Data twice. *)
Theorem read_bs2_csv_eight_columns :
  @read_bs2_csv ascii_runtime file_two_data = Ok table_two_data
  /\ columns table_two_data
     = [Data; Data; Tipo; Detalhe; Identificador; Valor; Observacao; Valor_raw]
  /\ length (columns table_two_data) = 8%nat.
Proof. repeat split; vm_compute; reflexivity. Qed.

(** C1: one file with one fee whose type is the label followed by more
    text. The classifier counts it (global fee total 1.0), the per-file
    breakdown does not (fee total 0.0 for the only file). *)
Theorem resumo_arquivo_misses_fee :
  @consolidate ascii_runtime [(py "a.csv", file_fee_suffix)] = Ok table_fee_suffix
  /\ (@filter_and_totals ascii_runtime 0%nat [table_fee_suffix]).1
     = Ok (2%nat, 4%nat, F64.of_Z 1, F64.zero)
  /\ @resumo_arquivo ascii_runtime table_fee_suffix
     = Ok [(py "a.csv", 1%nat, F64.zero, F64.zero)]
  /\ F64.of_Z 1 <> F64.zero.
Proof. repeat split; try (vm_compute; reflexivity). discriminate. Qed.

(* ===================================================================== *)
(** ** Objects: what a run changes *)
(* ===================================================================== *)

Section Store.
Context `{!Runtime}.

Lemma lookup_snoc {A} (h : list A) (x : A) : (h ++ [x]) !! length h = Some x.
Proof. apply list_lookup_middle. reflexivity. Qed.

Lemma run_bind {A B} (m : M A) (f : A -> M B) (h : heap) :
  (m ≫= f) h = match m h with
               | (Ok a, h') => f a h'
               | (Raise e, h') => (Raise e, h')
               end.
Proof. reflexivity. Qed.

Lemma load_run (h : heap) l d : h !! l = Some d -> load l h = (Ok d, h).
Proof. intros Hl. unfold load. rewrite Hl. reflexivity. Qed.

Lemma copy_run (h : heap) l d :
  h !! l = Some d -> copy l h = (Ok (length h), h ++ [d]).
Proof. intros Hl. unfold copy. rewrite run_bind, (load_run h l d Hl). reflexivity. Qed.

Lemma getitem_mask_run (h : heap) l d mask :
  h !! l = Some d -> getitem_mask l mask h = (Ok (length h), h ++ [getmask d mask]).
Proof.
  intros Hl. unfold getitem_mask. rewrite run_bind, (load_run h l d Hl). reflexivity.
Qed.

Lemma total_of_run (h : heap) sub t :
  h !! sub = Some t -> total_of sub h = (total_pure t, h).
Proof.
  intros Hsub. unfold total_of, total_pure.
  rewrite run_bind, (load_run h sub t Hsub).
  destruct (empty t); simpl; [reflexivity|].
  rewrite run_bind. unfold lift.
  destruct (get_series t Valor); reflexivity.
Qed.

Lemma lookup_app_old {A} (h k : list A) l d :
  h !! l = Some d -> (h ++ k) !! l = Some d.
Proof.
  intros Hl. rewrite lookup_app_l; [exact Hl|].
  apply lookup_lt_is_Some. eauto.
Qed.

(** What [filter_and_totals] returns and allocates. *)
Lemma filter_and_totals_run (h : heap) l d :
  h !! l = Some d ->
  filter_and_totals l h =
    if empty d then (Ok (length h, S (length h), F64.zero, F64.zero), h ++ [d; d])
    else
      match get_series d Tipo with
      | Raise e => (Raise e, h)
      | Ok tipo =>
        let t := getmask d (type_mask tarifa_label tipo) in
        let v := getmask d (type_mask devol_label tipo) in
        (tt ← total_pure t; td ← total_pure v;
         Ok (S (length h), S (S (S (length h))), tt, td),
         h ++ [t; t; v; v])
      end.
Proof.
  intros Hl. unfold filter_and_totals.
  rewrite run_bind, (load_run h l d Hl).
  destruct (empty d) eqn:He.
  - rewrite run_bind, (copy_run h l d Hl).
    rewrite run_bind, (copy_run (h ++ [d]) l d (lookup_app_old _ _ _ _ Hl)).
    rewrite length_app, <- app_assoc. simpl. rewrite Nat.add_1_r. reflexivity.
  - rewrite run_bind. unfold lift at 1.
    destruct (get_series d Tipo) as [tipo|e]; [|reflexivity].
    fold (type_mask tarifa_label tipo). fold (type_mask devol_label tipo).
    set (t := getmask d (type_mask tarifa_label tipo)).
    set (v := getmask d (type_mask devol_label tipo)).
    cbv zeta.
    rewrite run_bind, (getitem_mask_run h l d _ Hl). fold t.
    rewrite run_bind, (copy_run (h ++ [t]) (length h) t (lookup_snoc h t)).
    rewrite run_bind,
      (getitem_mask_run _ l d _ (lookup_app_old _ _ _ _ (lookup_app_old _ [t] _ _ Hl))).
    fold v.
    rewrite run_bind, (copy_run _ _ v (lookup_snoc _ v)).
    rewrite !length_app. simpl length. rewrite !Nat.add_1_r.
    replace ((((h ++ [t]) ++ [t]) ++ [v]) ++ [v]) with (h ++ [t; t; v; v])
      by (rewrite <- !app_assoc; reflexivity).
    rewrite run_bind, (total_of_run _ _ t).
    2:{ replace (S (length h)) with (length (h ++ [t]))
          by (rewrite length_app; simpl; lia).
        change (h ++ [t; t; v; v]) with (h ++ [t] ++ [t] ++ [v; v]).
        rewrite app_assoc. apply list_lookup_middle. reflexivity. }
    destruct (total_pure t) as [tt|e]; [|reflexivity].
    rewrite run_bind, (total_of_run _ _ v).
    2:{ replace (S (S (S (length h)))) with (length (h ++ [t; t; v]))
          by (rewrite length_app; simpl; lia).
        change (h ++ [t; t; v; v]) with (h ++ [t; t; v] ++ [v]).
        rewrite app_assoc. apply list_lookup_middle. reflexivity. }
    destruct (total_pure v) as [td|e]; reflexivity.
Qed.
End Store.

Section Classifier.
Context `{!Runtime}.

Lemma get_series_unique d c i :
  positions c d = [i] -> get_series d c = Ok (column_at i d).
Proof. intros Hp. unfold get_series, getitem. rewrite Hp. reflexivity. Qed.

Lemma keep_map {A} (f : A -> bool) (l : list A) :
  keep (map f l) l = filter f l.
Proof.
  induction l as [|a l IH]; [reflexivity|]. simpl. rewrite filter_cons.
  destruct (decide (f a)) as [Hfa|Hfa].
  - apply Is_true_true in Hfa. rewrite Hfa. f_equal. exact IH.
  - apply Is_true_false in Hfa. rewrite Hfa. exact IH.
Qed.

(** The boolean mask built from the Type column selects the rows that
    satisfy the category predicate. *)
Lemma getmask_type_mask d label i :
  getmask d (type_mask label (column_at i d))
  = mkDF (columns d) (filter (matches label i) (rows d)).
Proof.
  unfold getmask, type_mask, column_at. rewrite !map_map.
  f_equal. exact (keep_map (matches label i) (rows d)).
Qed.

Lemma fill_missing_numeric j (rs : list row) :
  Forall (fun r => exists x, cell_at j r = Num x) rs ->
  traverse fill_missing (map (cell_at j) rs)
  = Ok (map (fun r => present_or_zero (cell_at j r)) rs).
Proof.
  induction 1 as [|r rs [x Hx] Hrest IH]; [reflexivity|].
  cbn [map traverse]. rewrite IH, Hx. reflexivity.
Qed.

Lemma nansum_numeric j (rs : list row) :
  Forall (fun r => exists x, cell_at j r = Num x) rs ->
  nansum (map (cell_at j) rs) = Ok (sum_present j rs).
Proof.
  intros Hnum. unfold nansum, sum_present.
  rewrite (fill_missing_numeric j rs Hnum). reflexivity.
Qed.

Lemma total_pure_numeric cols (rs : list row) j :
  positions Valor (mkDF cols rs) = [j] ->
  Forall (fun r => exists x, cell_at j r = Num x) rs ->
  total_pure (mkDF cols rs) = Ok (sum_present j rs).
Proof.
  intros Hp Hnum. unfold total_pure.
  destruct (empty (mkDF cols rs)) eqn:He; simpl.
  - unfold empty in He. simpl in He.
    destruct cols; [discriminate Hp|]. destruct rs; [reflexivity|discriminate].
  - rewrite (get_series_unique _ _ j Hp). simpl. apply nansum_numeric, Hnum.
Qed.

Lemma Forall_filter_weaken {A} (P : A -> Prop) (Q : A -> Prop)
    `{!forall x, Decision (Q x)} (l : list A) :
  Forall P l -> Forall P (filter Q l).
Proof.
  intros Hl. apply Forall_forall. intros x Hx.
  apply list_elem_of_filter in Hx as [_ Hx].
  rewrite Forall_forall in Hl. apply Hl, Hx.
Qed.



(** The workbook step only writes to the two subsets it is given. *)
Lemma detail_sheet_heap (P : heap -> Prop) (h : heap) sub name :
  P h -> (forall s, P (<[sub := s]> h)) -> P (detail_sheet sub name h).2.
Proof.
  intros Hsame Hset.
  unfold detail_sheet. rewrite run_bind. unfold load at 1.
  destruct (h !! sub) as [d|] eqn:Hsub; [|exact Hsame].
  cbv beta iota.
  destruct (empty d); unfold negb; cbv iota.
  - unfold lift. exact Hsame.
  - rewrite run_bind. unfold sort_values_inplace.
    rewrite run_bind, (load_run h sub d Hsub).
    cbv beta iota. rewrite run_bind. unfold lift at 1.
    destruct (sort_values d Data) as [s|e]; [|exact Hsame].
    unfold store. cbv beta iota.
    rewrite run_bind, (load_run (<[sub:=s]> h) sub s)
      by (apply list_lookup_insert_eq, lookup_lt_is_Some; eauto).
    cbv beta iota. rewrite run_bind. unfold lift.
    destruct (select s _); apply Hset.
Qed.

Lemma detail_sheet_frame (n : nat) (h : heap) sub name :
  (n <= sub)%nat -> take n (detail_sheet sub name h).2 = take n h.
Proof.
  intros Hn. apply (detail_sheet_heap (fun h' => take n h' = take n h));
    [reflexivity | intros s; apply take_insert_ge, Hn].
Qed.

Lemma to_excel_bytes_frame (n : nat) (h : heap) x y devol tarifa :
  (n <= devol)%nat -> (n <= tarifa)%nat ->
  take n (to_excel_bytes x y devol tarifa h).2 = take n h.
Proof.
  intros Hd Ht. unfold to_excel_bytes.
  unfold mbind at 1, M_bind at 1, lift at 1.
  destruct (to_excel _ _) as [resumo|e]; [|reflexivity].
  unfold mbind at 1, M_bind at 1.
  pose proof (detail_sheet_frame n h devol (py "Devolução Recebida Pix") Hd) as H1.
  destruct (detail_sheet devol _ h) as [[s1|e] h1]; simpl in H1; [|exact H1].
  unfold mbind at 1, M_bind at 1.
  pose proof (detail_sheet_frame n h1 tarifa (py "Detalhe Tarifas Pix") Ht) as H2.
  destruct (detail_sheet tarifa _ h1) as [[s2|e] h2]; simpl in H2; simpl; congruence.
Qed.

(** C9: classification allocates its two subsets as new objects,
    distinct from each other and from every object that existed, and
    neither it nor the writing of the workbook from those subsets
    changes any object that existed before, the classified table
    included. *)
Theorem classification_leaves_table (h : heap) (df_all : loc) :
  take (length h) (filter_and_totals df_all h).2 = h
  /\ forall tarifa devol total_tarifa total_devol h1,
       filter_and_totals df_all h
       = (Ok (tarifa, devol, total_tarifa, total_devol), h1) ->
       (length h <= tarifa)%nat /\ (length h <= devol)%nat /\ tarifa <> devol
       /\ h1 !! df_all = h !! df_all
       /\ forall x y,
            take (length h) (to_excel_bytes x y devol tarifa h1).2 = h
            /\ (to_excel_bytes x y devol tarifa h1).2 !! df_all = h !! df_all.
Proof.
  assert (take (length h) (filter_and_totals df_all h).2 = h) as Hframe.
  { destruct (h !! df_all) as [d|] eqn:Hl.
    - rewrite (filter_and_totals_run h df_all d Hl).
      destruct (empty d); [apply take_app_length|].
      destruct (get_series d Tipo); cbv zeta; cbn [snd];
        [apply take_app_length | apply take_ge; lia].
    - unfold filter_and_totals, mbind, M_bind, load. rewrite Hl. simpl.
      apply take_ge. lia. }
  split; [exact Hframe|].
  intros tarifa devol tt td h1 Hrun.
  rewrite Hrun in Hframe. simpl in Hframe.
  assert (is_Some (h !! df_all)) as [d Hl].
  { destruct (h !! df_all) eqn:Hl; [eauto|].
    unfold filter_and_totals, mbind, M_bind, load in Hrun. rewrite Hl in Hrun.
    discriminate. }
  assert ((length h <= tarifa)%nat /\ (length h <= devol)%nat /\ tarifa <> devol)
    as (Ht & Hd & Hne).
  { rewrite (filter_and_totals_run h df_all d Hl) in Hrun.
    destruct (empty d).
    - inversion Hrun; subst. lia.
    - destruct (get_series d Tipo) as [tipo|]; [|discriminate].
      cbv zeta in Hrun. unfold mbind, result_bind in Hrun.
      destruct (total_pure (getmask d (type_mask tarifa_label tipo)));
        [|discriminate].
      destruct (total_pure (getmask d (type_mask devol_label tipo)));
        [|discriminate].
      inversion Hrun; subst. lia. }
  assert (forall h2 : heap, take (length h) h2 = h -> h2 !! df_all = h !! df_all)
    as Hlook.
  { intros h2 Hh2. transitivity (take (length h) h2 !! df_all).
    - symmetry. apply lookup_take_lt, lookup_lt_is_Some. eauto.
    - rewrite Hh2. reflexivity. }
  repeat split; try assumption.
  - apply Hlook, Hframe.
  - rewrite to_excel_bytes_frame by assumption. exact Hframe.
  - apply Hlook. rewrite to_excel_bytes_frame by assumption. exact Hframe.
Qed.
End Classifier.

(* ===================================================================== *)
(** ** Sorting the detail sheets *)
(* ===================================================================== *)

Section StrOrder.
Lemma str_ltb_irrefl a : str_ltb a a = false.
Proof.
  induction a as [|x a IH]; [reflexivity|]. simpl.
  rewrite N.ltb_irrefl, N.eqb_refl, IH. reflexivity.
Qed.

Lemma str_ltb_trans a b c :
  str_ltb a b = true -> str_ltb b c = true -> str_ltb a c = true.
Proof.
  revert b c. induction a as [|x a IH]; intros [|y b] [|z c]; simpl; try discriminate;
    try reflexivity.
  rewrite !orb_true_iff, !andb_true_iff, !N.ltb_lt, !N.eqb_eq.
  intros [Hxy|[Hxy Hab]] [Hyz|[Hyz Hbc]].
  - left. lia.
  - left. lia.
  - left. lia.
  - right. split; [lia|]. eapply IH; eassumption.
Qed.

Lemma str_ltb_total a b :
  str_ltb a b = false -> str_ltb b a = false -> a = b.
Proof.
  revert b. induction a as [|x a IH]; intros [|y b]; simpl; try discriminate;
    try reflexivity.
  rewrite !orb_false_iff, !andb_false_iff, !N.ltb_ge, !N.eqb_neq.
  intros [Hxy Ha] [Hyx Hb].
  assert (x = y) by lia. subst y.
  destruct Ha as [Ha|Ha]; [congruence|].
  destruct Hb as [Hb|Hb]; [congruence|].
  f_equal. apply IH; assumption.
Qed.

Lemma str_leb_total a b : str_leb a b = false -> str_leb b a = true.
Proof.
  unfold str_leb. rewrite negb_false_iff, negb_true_iff. intros Hba.
  destruct (str_ltb a b) eqn:Hab; [|reflexivity].
  pose proof (str_ltb_trans a b a Hab Hba) as Haa.
  rewrite str_ltb_irrefl in Haa. discriminate.
Qed.

Lemma str_leb_trans a b c :
  str_leb a b = true -> str_leb b c = true -> str_leb a c = true.
Proof.
  unfold str_leb. rewrite !negb_true_iff. intros Hba Hcb.
  destruct (str_ltb c a) eqn:Hca; [|reflexivity].
  destruct (str_ltb a b) eqn:Hab.
  - rewrite (str_ltb_trans c a b Hca Hab) in Hcb. discriminate.
  - rewrite (str_ltb_total a b Hab Hba) in Hca. congruence.
Qed.

Lemma date_le_trans a b c : date_le a b -> date_le b c -> date_le a c.
Proof.
  destruct a, b, c; simpl; try tauto. apply str_leb_trans.
Qed.
End StrOrder.

Section Sorting.
Context {A : Type}.
Implicit Types l : list (cell * A).

Lemma insert_row_sorted k a l :
  text_keyed (k, a) -> Forall text_keyed l ->
  StronglySorted date_le (map fst l) ->
  exists r, insert_row k a l = Ok r
            /\ r ≡ₚ (k, a) :: l
            /\ Forall text_keyed r
            /\ StronglySorted date_le (map fst r).
Proof.
  intros [s Hk]. simpl in Hk. subst k.
  induction l as [|[k' a'] l IH]; intros Htext Hsorted.
  - exists [(Str s, a)]. split; [reflexivity|]. split; [reflexivity|]. split.
    + repeat constructor. exists s. reflexivity.
    + simpl. repeat constructor.
  - inversion Htext as [|? ? [s' Hk'] Hrest]; subst. simpl in Hk'. subst k'.
    simpl in Hsorted. inversion Hsorted as [|? ? Hs Hall]; subst.
    simpl. unfold mbind, result_bind. simpl.
    destruct (str_leb s s') eqn:Hle.
    + exists ((Str s, a) :: (Str s', a') :: l).
      split; [reflexivity|]. split; [reflexivity|]. split.
      * constructor; [exists s; reflexivity | exact Htext].
      * simpl. constructor; [exact Hsorted|].
        constructor; [exact Hle|].
        eapply Forall_impl; [exact Hall|].
        intros x Hx. eapply (date_le_trans (Str s) (Str s') x); [exact Hle|exact Hx].
    + apply str_leb_total in Hle.
      destruct (IH Hrest Hs) as (r & -> & Hperm & Htr & Hsr).
      exists ((Str s', a') :: r). split; [reflexivity|]. split; [|split].
      * rewrite Hperm. apply perm_swap.
      * constructor; [exists s'; reflexivity | exact Htr].
      * simpl. constructor; [exact Hsr|].
        apply Forall_forall. intros x Hx.
        assert (x ∈ map fst ((Str s, a) :: l)) as Hx'.
        { change (map fst ?l) with (fst <$> l) in *. rewrite <- Hperm. exact Hx. }
        simpl in Hx'. apply elem_of_cons in Hx' as [->|Hx'].
        -- exact Hle.
        -- rewrite Forall_forall in Hall. apply Hall. exact Hx'.
Qed.

Lemma sort_rows_sorted l :
  Forall text_keyed l ->
  exists r, sort_rows l = Ok r
            /\ r ≡ₚ l
            /\ Forall text_keyed r
            /\ StronglySorted date_le (map fst r).
Proof.
  induction l as [|[k a] l IH]; intros Htext.
  - exists []. split; [reflexivity|]. repeat split; constructor.
  - inversion Htext as [|? ? Hk Hrest]; subst.
    destruct (IH Hrest) as (r & Hr & Hperm & Htr & Hsr).
    simpl. rewrite Hr. unfold mbind, result_bind.
    destruct (insert_row_sorted k a r Hk Htr Hsr) as (r' & -> & Hperm' & Htr' & Hsr').
    exists r'. split; [reflexivity|]. split; [|split; assumption].
    rewrite Hperm', Hperm. reflexivity.
Qed.
End Sorting.

Section DetailSheets.
Context `{!Runtime}.

Lemma positions_from_present c cols i :
  c ∈ cols -> positions_from i c cols <> [].
Proof.
  revert i. induction cols as [|c' cols IH]; intros i Hc.
  - inversion Hc.
  - simpl. unfold str_eqb. case_bool_decide as Heq; [discriminate|].
    apply IH. apply elem_of_cons in Hc as [?|?]; [contradiction|assumption].
Qed.

Lemma traverse_ok {A B} (f : A -> result B) (g : A -> B) (l : list A) :
  Forall (fun a => f a = Ok (g a)) l -> traverse f l = Ok (map g l).
Proof.
  induction 1 as [|a l Ha Hl IH]; [reflexivity|].
  cbn [traverse map]. rewrite Ha, IH. reflexivity.
Qed.

Lemma snd_concat_pairs {A B} (g : A -> list B) (l : list A) :
  map snd (concat (map (fun c => map (fun i => (c, i)) (g c)) l))
  = concat (map g l).
Proof.
  induction l as [|c l IH]; [reflexivity|].
  cbn [map concat]. rewrite map_app, IH, map_map. cbn [snd].
  rewrite map_id. reflexivity.
Qed.

Lemma select_present d names :
  Forall (fun c => c ∈ columns d) names ->
  exists hdr,
    Forall (fun c => c ∈ names) hdr
    /\ length hdr = length (concat (map (fun c => positions c d) names))
    /\ select d names
       = Ok (mkDF hdr
               (map (project (concat (map (fun c => positions c d) names))) (rows d))).
Proof.
  intros Hall. unfold select.
  match goal with
  | |- context [traverse ?f names] =>
    assert (traverse f names
            = Ok (map (fun c => map (fun i => (c, i)) (positions c d)) names)) as ->
  end.
  { apply traverse_ok. eapply Forall_impl; [exact Hall|].
    intros c Hc. cbv beta.
    pose proof (positions_from_present c (columns d) 0%nat Hc) as Hne.
    fold (positions c d) in Hne.
    destruct (positions c d) eqn:Hp; [contradiction|reflexivity]. }
  unfold mbind, result_bind. cbv zeta. rewrite snd_concat_pairs.
  eexists. split; [|split; [|reflexivity]].
  2:{ rewrite <- (snd_concat_pairs (fun c => positions c d) names).
      rewrite !length_map. reflexivity. }
  apply Forall_forall. intros c Hc.
  change (map ?f ?l) with (f <$> l) in Hc.
  apply list_elem_of_fmap in Hc as ([c' i] & -> & Hci).
  apply list_elem_of_In, in_concat in Hci as (l & Hl & Hci).
  apply list_elem_of_In in Hl, Hci.
  change (map ?f ?l) with (f <$> l) in Hl.
  apply list_elem_of_fmap in Hl as (c0 & -> & Hc0).
  apply list_elem_of_fmap in Hci as (i0 & [= -> ->] & _). exact Hc0.
Qed.

Lemma sort_values_sorted d i :
  positions Data d = [i] ->
  Forall (fun r => text_or_missing (cell_at i r)) (rows d) ->
  exists sd,
    sort_values d Data = Ok sd
    /\ columns sd = columns d
    /\ rows sd ≡ₚ rows d
    /\ StronglySorted date_le (map (cell_at i) (rows sd)).
Proof.
  intros Hp Htext. unfold sort_values. rewrite Hp.
  set (keyed := map (fun r => (cell_at i r, r)) (rows d)).
  set (present := filter (fun kr => isna kr.1 = false) keyed).
  set (missing := filter (fun kr => isna kr.1 = true) keyed).
  assert (forall kr, kr ∈ keyed ->
            kr.1 = cell_at i kr.2 /\ text_or_missing kr.1) as Hkeyed.
  { intros kr Hkr. unfold keyed in Hkr.
    change (map ?f ?l) with (f <$> l) in Hkr.
    apply list_elem_of_fmap in Hkr as [r [-> Hr]]. simpl. split; [reflexivity|].
    rewrite Forall_forall in Htext. apply Htext, Hr. }
  assert (Forall text_keyed present) as Hpresent.
  { apply Forall_forall. intros kr Hkr.
    apply list_elem_of_filter in Hkr as [Hna Hkr].
    destruct (Hkeyed kr Hkr) as [_ Ht].
    destruct kr as [[s|x] r]; simpl in *; [exists s; reflexivity|congruence]. }
  destruct (sort_rows_sorted present Hpresent) as (s & -> & Hperm & Hts & Hss).
  assert (s ++ missing ≡ₚ keyed) as Hall.
  { rewrite Hperm. unfold present, missing.
    rewrite (list_filter_iff (fun kr : cell * row => isna kr.1 = true)
               (fun kr => ~ isna kr.1 = false)).
    - apply filter_app_complement.
    - intros kr. destruct (isna kr.1); split; congruence. }
  unfold mbind, result_bind. eexists. split; [reflexivity|]. simpl.
  split; [reflexivity|]. split.
  - change (map snd ?l) with (snd <$> l). rewrite Hall. unfold keyed.
    change (map ?f ?l) with (f <$> l). rewrite <- list_fmap_compose. simpl.
    rewrite list_fmap_id. reflexivity.
  - rewrite map_map.
    assert (map (fun x => cell_at i x.2) (s ++ missing) = map fst (s ++ missing)) as ->.
    { apply map_ext_in. intros kr Hkr. symmetry. apply Hkeyed.
      rewrite <- Hall. apply list_elem_of_In. exact Hkr. }
    rewrite map_app. apply StronglySorted_app_2; [|exact Hss|].
    + intros x1 x2 _ Hx2. change (map ?f ?l) with (f <$> l) in Hx2.
      apply list_elem_of_fmap in Hx2 as [kr [-> Hkr]].
      apply list_elem_of_filter in Hkr as [Hna _].
      destruct kr as [[?|x] r]; simpl in *; [discriminate|].
      destruct x1; exact I.
    + assert (Forall (fun c => isna c = true) (map fst missing)) as Hm.
      { apply Forall_forall. intros c Hc. change (map ?f ?l) with (f <$> l) in Hc.
        apply list_elem_of_fmap in Hc as [kr [-> Hkr]].
        apply list_elem_of_filter in Hkr as [Hna _]. exact Hna. }
      induction Hm as [|c l Hc Hl IH]; constructor; [exact IH|].
      eapply Forall_impl; [exact Hl|]. intros y Hy.
      destruct c, y; simpl in *; try discriminate; exact I.
Qed.

Lemma first_error_none cells :
  Forall (fun rc => cell_error rc = None) cells -> first_error cells = None.
Proof.
  induction 1 as [|rc cells Hrc Hcells IH]; [reflexivity|].
  cbn [first_error]. rewrite Hrc. exact IH.
Qed.

Lemma first_error_some cells e :
  first_error cells = Some e -> exists rc, rc ∈ cells /\ cell_error rc = Some e.
Proof.
  induction cells as [|rc cells IH]; [discriminate|].
  cbn [first_error]. destruct (cell_error rc) as [e'|] eqn:Hrc.
  - intros [= ->]. exists rc. split; [left|exact Hrc].
  - intros He. destruct (IH He) as (rc' & Hin & Hrc').
    exists rc'. split; [right; exact Hin|exact Hrc'].
Qed.

(** A cell that is written is a header, in the first row of the sheet,
    or a cell of a row of the table, in the row of the sheet after it. *)
Lemma cells_written_elem df rc :
  rc ∈ cells_written df ->
  (exists c, c ∈ columns df /\ rc = (0, Str c))
  \/ (exists i r j, rows df !! i = Some r /\ rc = (Z.of_nat i + 1, cell_at j r)).
Proof.
  unfold cells_written. intros Hrc. apply elem_of_app in Hrc as [Hrc|Hrc].
  - left. change (map ?f ?l) with (f <$> l) in Hrc.
    apply list_elem_of_fmap in Hrc as (c & -> & Hc). eauto.
  - right. apply list_elem_of_In, in_concat in Hrc as (l & Hl & Hrc).
    apply list_elem_of_In in Hl, Hrc.
    apply elem_of_lookup_imap in Hl as (j & c & -> & _).
    apply elem_of_lookup_imap in Hrc as (i & r & -> & Hr). eauto.
Qed.

Lemma to_excel_outcome df name :
  to_excel df name = Ok (mkSheet name (columns df) (map snd (rows df)))
  \/ exists e, to_excel df name = Raise e.
Proof.
  unfold to_excel. destruct (_ || _); [right; eauto|].
  destruct (first_error _); [right; eauto|left; reflexivity].
Qed.

(** What the writer raises: its own exception for an illegal character,
    or a ValueError for a table that does not fit a sheet. *)
Lemma to_excel_raised df name e :
  to_excel df name = Raise e ->
  e = IllegalCharacterError
  \/ (e = ValueError /\ ~ fits_sheet (length (rows df)) (length (columns df))).
Proof.
  unfold to_excel, fits_sheet.
  destruct (max_rows <? _) eqn:Hr; cbn [orb].
  { intros [= <-]. right. split; [reflexivity|]. apply Z.ltb_lt in Hr. lia. }
  destruct (max_cols <? _) eqn:Hc.
  { intros [= <-]. right. split; [reflexivity|]. apply Z.ltb_lt in Hc. lia. }
  destruct (first_error _) as [e'|] eqn:Hfirst; [|discriminate].
  intros [= ->].
  apply first_error_some in Hfirst as (rc & Hin & Hrc).
  unfold cell_error in Hrc.
  destruct (max_rows <=? rc.1) eqn:Hrow.
  - injection Hrc as <-. right. split; [reflexivity|].
    apply Z.leb_le in Hrow.
    apply cells_written_elem in Hin as [(c & _ & ->)|(i & r & j & Hi & ->)];
      cbn [fst] in Hrow; [vm_compute in Hrow; contradiction|].
    apply lookup_lt_Some in Hi. lia.
  - destruct (writable rc.2); [discriminate|]. injection Hrc as <-. left. reflexivity.
Qed.

Lemma cell_at_writable (r : row) i :
  Forall (fun c => writable c = true) r.2 -> writable (cell_at i r) = true.
Proof.
  intros Hr. unfold cell_at. destruct (r.2 !! i) as [c|] eqn:Hc; [|reflexivity].
  rewrite Forall_forall in Hr. apply Hr. eapply list_elem_of_lookup_2, Hc.
Qed.

(** A table that fits a sheet and whose headers and cells are free of the
    characters the writer refuses is written. *)
Lemma to_excel_writable df name :
  Forall (fun c => writable (Str c) = true) (columns df) ->
  writable_rows (rows df) ->
  fits_sheet (length (rows df)) (length (columns df)) ->
  to_excel df name = Ok (mkSheet name (columns df) (map snd (rows df))).
Proof.
  intros Hcols Hrows [Hnr Hnc]. unfold to_excel.
  replace (max_rows <? Z.of_nat (length (rows df))) with false
    by (symmetry; apply Z.ltb_ge; lia).
  replace (max_cols <? Z.of_nat (length (columns df))) with false
    by (symmetry; apply Z.ltb_ge; lia).
  cbn [orb]. rewrite first_error_none; [reflexivity|].
  apply Forall_forall. intros rc Hrc. unfold cell_error.
  apply cells_written_elem in Hrc as [(c & Hc & ->)|(i & r & j & Hi & ->)]; cbn [fst snd].
  - change (max_rows <=? 0) with false. cbv iota.
    rewrite Forall_forall in Hcols. rewrite (Hcols c Hc). reflexivity.
  - pose proof (lookup_lt_Some _ _ _ Hi) as Hlt.
    replace (max_rows <=? Z.of_nat i + 1) with false
      by (symmetry; apply Z.leb_gt; lia).
    unfold writable_rows in Hrows. rewrite Forall_forall in Hrows.
    rewrite (cell_at_writable r j); [reflexivity|].
    apply Hrows. eapply list_elem_of_lookup_2, Hi.
Qed.

Lemma detail_columns_writable :
  Forall (fun c => writable (Str c) = true) detail_columns.
Proof. repeat constructor. Qed.

(** One detail sheet, for a subset whose Date column holds text or
    NaN. *)
Lemma detail_sheet_run (h : heap) sub d i name :
  h !! sub = Some d ->
  positions Data d = [i] ->
  Forall (fun r => text_or_missing (cell_at i r)) (rows d) ->
  exists sd r h',
    sort_values d Data = Ok sd
    /\ detail_sheet sub name h = (r, h')
    /\ (h' = h \/ h' = <[sub := sd]> h)
    /\ (forall e, r = Raise e ->
          e = IllegalCharacterError
          \/ (e = ValueError
              /\ ~ fits_sheet (length (rows d)) (length (detail_positions d))))
    /\ (forall s, r = Ok s -> sheet_rows s = map (detail_row d) (rows sd))
    /\ (writable_rows (rows d) ->
        fits_sheet (length (rows d)) (length (detail_positions d)) ->
        exists s, r = Ok s).
Proof.
  intros Hsub Hp Htext.
  destruct (sort_values_sorted d i Hp Htext) as (sd & Hsort & Hcols & Hperm & _).
  exists sd. unfold detail_sheet.
  rewrite run_bind, (load_run h sub d Hsub). cbv beta iota.
  destruct (empty d) eqn:He; unfold negb; cbv iota.
  - assert (rows sd = []) as Hnil.
    { unfold empty in He. unfold positions in Hp.
      destruct (columns d); [discriminate Hp|].
      destruct (rows d); [|discriminate].
      apply Permutation_nil_r in Hperm. exact Hperm. }
    assert (to_excel (empty_with detail_columns) name
            = Ok (mkSheet name detail_columns [])) as Hwritten by reflexivity.
    unfold lift. rewrite Hwritten.
    eexists _, h. split; [exact Hsort|]. split; [reflexivity|].
    split; [left; reflexivity|]. split; [|split].
    + intros e. discriminate.
    + intros s [= <-]. rewrite Hnil. reflexivity.
    + intros _ _. eexists. reflexivity.
  - rewrite run_bind. unfold sort_values_inplace.
    rewrite run_bind, (load_run h sub d Hsub). cbv beta iota.
    rewrite run_bind. unfold lift at 1. rewrite Hsort. cbv beta iota.
    unfold store. cbv beta iota.
    rewrite run_bind, (load_run (<[sub:=sd]> h) sub sd)
      by (apply list_lookup_insert_eq, lookup_lt_is_Some; eauto).
    cbv beta iota. rewrite run_bind. unfold lift.
    destruct (select_present sd (filter (fun c => c ∈ columns d) detail_columns))
      as (hdr & Hhdr & Hlen & Hsel).
    { apply Forall_forall. intros c Hc.
      apply list_elem_of_filter in Hc as [Hc _]. rewrite Hcols. exact Hc. }
    rewrite Hsel. cbv beta iota.
    eexists _, _. split; [reflexivity|]. split; [reflexivity|].
    split; [right; reflexivity|].
    set (shown := mkDF hdr
      (map (project (concat (map (fun c => positions c sd)
         (filter (fun c => c ∈ columns d) detail_columns)))) (rows sd))).
    assert (length (rows shown) = length (rows d)) as Hnr.
    { cbn [shown rows]. rewrite length_map. apply Permutation_length, Hperm. }
    assert (length (columns shown) = length (detail_positions d)) as Hnc.
    { cbn [shown columns]. rewrite Hlen. unfold detail_positions, positions.
      rewrite Hcols. reflexivity. }
    assert (writable_rows (rows d) ->
            fits_sheet (length (rows d)) (length (detail_positions d)) ->
            to_excel shown name
            = Ok (mkSheet name (columns shown) (map snd (rows shown)))) as Hw.
    { intros Hrows Hfits. apply to_excel_writable.
      - cbn [shown columns]. eapply Forall_impl; [exact Hhdr|].
        intros c Hc. apply list_elem_of_filter in Hc as [_ Hc].
        pose proof detail_columns_writable as Hdc.
        rewrite Forall_forall in Hdc. apply Hdc, Hc.
      - unfold writable_rows in *. cbn [shown rows].
        apply Forall_forall. intros r Hr.
        change (map ?f ?l) with (f <$> l) in Hr.
        apply list_elem_of_fmap in Hr as (r0 & -> & Hr0).
        rewrite Hperm in Hr0. rewrite Forall_forall in Hrows.
        specialize (Hrows r0 Hr0). unfold project. cbn [snd].
        apply Forall_forall. intros c Hc.
        change (map ?f ?l) with (f <$> l) in Hc.
        apply list_elem_of_fmap in Hc as (p & -> & _).
        apply cell_at_writable, Hrows.
      - rewrite Hnr, Hnc. exact Hfits. }
    destruct (to_excel_outcome shown name) as [Hout|[e Hout]]; rewrite Hout.
    + split; [discriminate|]. split; [|eauto]. intros s [= <-]. simpl.
      rewrite map_map. apply map_ext. intros r. unfold project, detail_row. simpl.
      f_equal. unfold detail_positions, positions. rewrite Hcols. reflexivity.
    + split; [|split; [discriminate|]].
      * intros e' [= <-]. apply to_excel_raised in Hout.
        rewrite Hnr, Hnc in Hout. exact Hout.
      * intros Hrows Hfits. rewrite (Hw Hrows Hfits) in Hout. discriminate.
Qed.

Lemma resumo_sheet x y :
  exists s,
    to_excel
      (mkDF [py "Transação"; py "Valor Total (R$)"]
         [(Pos 0, [Str (py "Total Tarifa Operações Pix"); Num (round2 x)]);
          (Pos 1, [Str (py "Total Devolução Recebida Pix"); Num (round2 y)])])
      (py "Resumo Tarifa Pix") = Ok s.
Proof. eexists. unfold to_excel. reflexivity. Qed.

(** The workbook step on two distinct subsets whose Date columns hold
    text or NaN: what it returns, and the sheets of a workbook it
    returns, in terms of the model's sorted tables. *)
Lemma to_excel_bytes_sorted (h : heap) (devol tarifa : loc) (d t : DataFrame)
    (i j : nat) (x y : float) :
  h !! devol = Some d -> h !! tarifa = Some t -> devol <> tarifa ->
  positions Data d = [i] ->
  Forall (fun r => text_or_missing (cell_at i r)) (rows d) ->
  positions Data t = [j] ->
  Forall (fun r => text_or_missing (cell_at j r)) (rows t) ->
  exists sd st,
    sort_values d Data = Ok sd /\ sort_values t Data = Ok st
    /\ (forall e, (to_excel_bytes x y devol tarifa h).1 = Raise e ->
          e = IllegalCharacterError
          \/ (e = ValueError
              /\ ~ (fits_sheet (length (rows d)) (length (detail_positions d))
                    /\ fits_sheet (length (rows t)) (length (detail_positions t)))))
    /\ (forall wb, (to_excel_bytes x y devol tarifa h).1 = Ok wb ->
          exists s0 s1 s2,
            wb = [s0; s1; s2]
            /\ sheet_rows s1 = map (detail_row d) (rows sd)
            /\ sheet_rows s2 = map (detail_row t) (rows st))
    /\ (writable_rows (rows d) -> writable_rows (rows t) ->
        fits_sheet (length (rows d)) (length (detail_positions d)) ->
        fits_sheet (length (rows t)) (length (detail_positions t)) ->
        exists wb, (to_excel_bytes x y devol tarifa h).1 = Ok wb).
Proof.
  intros Hd Ht Hne Hi Htd Hj Htt.
  destruct (sort_values_sorted d i Hi Htd) as (sd & Hsd & _ & Hpd & Hsortd).
  destruct (sort_values_sorted t j Hj Htt) as (st & Hst & _ & Hpt & Hsortt).
  exists sd, st. do 2 (split; [assumption|]).
  destruct (to_excel_bytes x y devol tarifa h) as [r hf] eqn:Hrun. cbn [fst].
  unfold to_excel_bytes in Hrun.
  destruct (resumo_sheet x y) as [s0 Hs0].
  rewrite run_bind in Hrun. unfold lift at 1 in Hrun. rewrite Hs0 in Hrun.
  cbv beta iota in Hrun.
  destruct (detail_sheet_run h devol d i (py "Devolução Recebida Pix") Hd Hi Htd)
    as (sd' & r1 & h1 & Hsd' & Hrun1 & Hh1 & Hr1e & Hr1 & Hw1).
  rewrite Hsd in Hsd'. injection Hsd' as <-.
  rewrite run_bind, Hrun1 in Hrun.
  assert (h1 !! tarifa = Some t) as Ht1.
  { destruct Hh1 as [->| ->]; [exact Ht|].
    rewrite list_lookup_insert_ne by exact Hne. exact Ht. }
  destruct (detail_sheet_run h1 tarifa t j (py "Detalhe Tarifas Pix") Ht1 Hj Htt)
    as (st' & r2 & h2 & Hst' & Hrun2 & _ & Hr2e & Hr2 & Hw2).
  rewrite Hst in Hst'. injection Hst' as <-.
  destruct r1 as [s1|e1]; cbv beta iota in Hrun.
  2:{ injection Hrun as <- <-.
      split; [|split; [discriminate|]].
      - intros e [= <-]. destruct (Hr1e e1 eq_refl) as [->|[-> Hno]]; [left; reflexivity|].
        right. split; [reflexivity|]. intros [Hfd _]. exact (Hno Hfd).
      - intros Hwd _ Hfd _. destruct (Hw1 Hwd Hfd) as [s Hs]. discriminate Hs. }
  rewrite run_bind, Hrun2 in Hrun.
  destruct r2 as [s2|e2]; cbv beta iota in Hrun.
  2:{ injection Hrun as <- <-.
      split; [|split; [discriminate|]].
      - intros e [= <-]. destruct (Hr2e e2 eq_refl) as [->|[-> Hno]]; [left; reflexivity|].
        right. split; [reflexivity|]. intros [_ Hft]. exact (Hno Hft).
      - intros _ Hwt _ Hft. destruct (Hw2 Hwt Hft) as [s Hs]. discriminate Hs. }
  injection Hrun as <- <-.
  split; [discriminate|]. split; [|eauto].
  intros wb [= <-]. exists s0, s1, s2.
  split; [reflexivity|]. split; [apply Hr1 | apply Hr2]; reflexivity.
Qed.

(** X25: for two distinct subsets whose Date columns hold text or NaN,
    the workbook step raises nothing but the exception of the writer for
    an illegal character and, when a subset does not fit a sheet, a
    ValueError; it returns a workbook when both subsets fit a sheet and
    no cell of them holds a character the writer refuses. Each detail
    sheet of a returned workbook holds the rows of its subset in
    ascending order of the Date text, every row whose Date is NaN after
    every row whose Date is text. An empty text is a text and comes
    first. *)
Theorem detail_sheets_sorted (h : heap) (devol tarifa : loc) (d t : DataFrame)
    (i j : nat) (x y : float) :
  h !! devol = Some d -> h !! tarifa = Some t -> devol <> tarifa ->
  positions Data d = [i] ->
  Forall (fun r => text_or_missing (cell_at i r)) (rows d) ->
  positions Data t = [j] ->
  Forall (fun r => text_or_missing (cell_at j r)) (rows t) ->
  (forall e, (to_excel_bytes x y devol tarifa h).1 = Raise e ->
     e = IllegalCharacterError
     \/ (e = ValueError
         /\ ~ (fits_sheet (length (rows d)) (length (detail_positions d))
               /\ fits_sheet (length (rows t)) (length (detail_positions t)))))
  /\ (forall wb, (to_excel_bytes x y devol tarifa h).1 = Ok wb ->
        exists s0 s1 s2 sd st,
          wb = [s0; s1; s2]
          /\ sd ≡ₚ rows d /\ st ≡ₚ rows t
          /\ StronglySorted date_le (map (cell_at i) sd)
          /\ StronglySorted date_le (map (cell_at j) st)
          /\ sheet_rows s1 = map (detail_row d) sd
          /\ sheet_rows s2 = map (detail_row t) st)
  /\ (writable_rows (rows d) -> writable_rows (rows t) ->
      fits_sheet (length (rows d)) (length (detail_positions d)) ->
      fits_sheet (length (rows t)) (length (detail_positions t)) ->
      exists wb, (to_excel_bytes x y devol tarifa h).1 = Ok wb).
Proof.
  intros Hd Ht Hne Hi Htd Hj Htt.
  destruct (to_excel_bytes_sorted h devol tarifa d t i j x y Hd Ht Hne Hi Htd Hj Htt)
    as (sd & st & Hsd & Hst & Herr & Hwb & Hok).
  destruct (sort_values_sorted d i Hi Htd) as (sd' & Hsd' & _ & Hpd & Hsortd).
  destruct (sort_values_sorted t j Hj Htt) as (st' & Hst' & _ & Hpt & Hsortt).
  rewrite Hsd in Hsd'. injection Hsd' as <-.
  rewrite Hst in Hst'. injection Hst' as <-.
  split; [exact Herr|]. split; [|exact Hok].
  intros wb Hrun. destruct (Hwb wb Hrun) as (s0 & s1 & s2 & -> & Hs1 & Hs2).
  exists s0, s1, s2, (rows sd), (rows st). auto 10.
Qed.
End DetailSheets.

(* ===================================================================== *)
(** ** The consolidator *)
(* ===================================================================== *)

Section Consolidator.
Context `{!Runtime}.

Lemma consolidate_loop files acc :
  foldl (fun acc '(name, content) =>
           frames ← acc;
           df ← read_bs2_csv content;
           if negb (empty df)
           then Ok (frames ++ [setitem_scalar df Arquivo (Str name)])
           else Ok frames)
        (Ok acc) files
  = dfs ← traverse (fun f => read_bs2_csv f.2) files;
    Ok (acc ++ map stamp (filter nonempty (zip (map fst files) dfs))).
Proof.
  unfold mbind, result_bind.
  revert acc. induction files as [|[name content] files IH]; intros acc.
  - simpl. rewrite app_nil_r. reflexivity.
  - cbn [foldl traverse map fst snd]. unfold mbind, result_bind.
    destruct (read_bs2_csv content) as [df|e].
    + destruct (empty df) eqn:He; cbn [negb]; rewrite IH;
        destruct (traverse _ files) as [dfs|e]; try reflexivity;
        cbn [zip zip_with]; rewrite filter_cons.
      * rewrite decide_False by (unfold nonempty; cbn; congruence). reflexivity.
      * rewrite decide_True by (unfold nonempty; cbn; congruence). cbn [map].
        rewrite <- app_assoc. reflexivity.
    + clear IH. induction files as [|[n c] files IH]; [reflexivity|].
      cbn [foldl]. exact IH.
Qed.

Lemma zip_with_const {A B C} (f : A -> B -> C) (l : list A) (b : B) :
  zip_with f l (map (fun _ => b) l) = map (fun a => f a b) l.
Proof. induction l as [|a l IH]; [reflexivity|]. simpl. rewrite IH. reflexivity. Qed.

Lemma stamp_canonical nd :
  columns nd.2 = canonical_columns ->
  stamp nd = mkDF (canonical_columns ++ [Arquivo]) (stamped_rows nd).
Proof.
  intros Hc. unfold stamp, setitem_scalar, assign, positions. rewrite Hc.
  change (positions_from 0 Arquivo canonical_columns) with (@nil nat).
  unfold append_column. rewrite Hc. f_equal.
  apply (zip_with_const (fun r v => (r.1, r.2 ++ [v]))).
Qed.

Lemma concat_frames_same cols (rss : list (list row)) :
  rss <> [] ->
  concat_frames (map (mkDF cols) rss) = Ok (mkDF cols (reindex (concat rss))).
Proof.
  intros Hne. destruct rss as [|rs rss]; [contradiction|].
  unfold concat_frames. cbn [map columns].
  assert (forallb (fun g => bool_decide (columns g = cols))
            (mkDF cols rs :: map (mkDF cols) rss) = true) as ->.
  { apply forallb_forall. intros g Hg.
    apply bool_decide_eq_true.
    destruct Hg as [<-|Hg]; [reflexivity|].
    apply in_map_iff in Hg as [x [<- _]]. reflexivity. }
  do 3 f_equal. change (mkDF cols rs :: map (mkDF cols) rss)
    with (map (mkDF cols) (rs :: rss)).
  rewrite map_map. cbn [rows]. rewrite map_id. reflexivity.
Qed.

(** C7: the consolidator reads every file, drops the files whose table
    is empty, stamps the rows of the others with the file name and
    stacks them in input order under new labels 0, 1, 2, ...; when no
    file yields rows it returns the empty table with the eight columns,
    Arquivo among them. *)
Theorem consolidate_concatenates (files : list (str * bytes)) :
  consolidate files = consolidate_spec files
  /\ forall dfs,
       traverse (fun f => read_bs2_csv f.2) files = Ok dfs ->
       let surviving := filter nonempty (zip (map fst files) dfs) in
       (surviving = [] ->
          consolidate files
          = Ok (empty_with [Arquivo; Data; Tipo; Detalhe; Identificador; Valor;
                            Observacao; Valor_raw]))
       /\ (surviving <> [] ->
           Forall (fun nd => columns nd.2 = canonical_columns) surviving ->
           consolidate files
           = Ok (mkDF (canonical_columns ++ [Arquivo])
                   (imap (fun i r => (Pos i, r.2))
                         (concat (map stamped_rows surviving))))).
Proof.
  assert (consolidate files = consolidate_spec files) as Hspec.
  { unfold consolidate, consolidate_spec. rewrite consolidate_loop.
    unfold mbind, result_bind.
    destruct (traverse _ files) as [dfs|e]; [|reflexivity].
    rewrite app_nil_l. fold nonempty.
    destruct (filter nonempty (zip (map fst files) dfs)); reflexivity. }
  split; [exact Hspec|].
  intros dfs Hdfs surviving. rewrite Hspec. unfold consolidate_spec.
  rewrite Hdfs. unfold mbind, result_bind. fold nonempty. fold surviving.
  split.
  - intros ->. reflexivity.
  - intros Hne Hcols.
    assert (map stamp surviving
            = map (mkDF (canonical_columns ++ [Arquivo])) (map stamped_rows surviving))
      as Hstamp.
    { rewrite map_map. apply map_ext_in. intros nd Hnd.
      apply stamp_canonical. rewrite Forall_forall in Hcols.
      apply Hcols, list_elem_of_In, Hnd. }
    destruct surviving as [|nd rest] eqn:Hs; [contradiction|].
    rewrite Hstamp. apply concat_frames_same. discriminate.
Qed.
End Consolidator.

(* ===================================================================== *)
(** ** binary64: exact operations on small integers *)
(* ===================================================================== *)

Section FloatFacts.
Local Open Scope Z_scope.

Lemma digits2_size p : digits2_pos p = Pos.size p.
Proof. induction p; simpl; congruence. Qed.

Lemma ndigits_bounds p :
  2 ^ (Z.of_nat (ndigits p) - 1) <= Z.pos p < 2 ^ Z.of_nat (ndigits p).
Proof.
  unfold ndigits. rewrite positive_nat_Z, digits2_size.
  pose proof (Pos.size_gt p) as Hgt. pose proof (Pos.size_le p) as Hle.
  assert (Z.pos (2 ^ Pos.size p) = 2 ^ Z.pos (Pos.size p)) as Hpow
    by (rewrite Pos2Z.inj_pow; reflexivity).
  split.
  - assert (2 ^ Z.pos (Pos.size p) <= 2 * Z.pos p) as H2.
    { rewrite <- Hpow. change (2 * Z.pos p) with (Z.pos p~0). exact Hle. }
    replace (Z.pos (Pos.size p)) with (Z.succ (Z.pos (Pos.size p) - 1)) in H2 by lia.
    rewrite Z.pow_succ_r in H2 by lia. lia.
  - rewrite <- Hpow. exact Hgt.
Qed.

Lemma ndigits_pos p : (1 <= ndigits p)%nat.
Proof. unfold ndigits. lia. Qed.

(** The number of digits is determined by the enclosing powers of two. *)
Lemma ndigits_unique p (n : nat) :
  2 ^ (Z.of_nat n - 1) <= Z.pos p < 2 ^ Z.of_nat n -> ndigits p = n.
Proof.
  intros [Hlo Hhi]. destruct (ndigits_bounds p) as [Hlo' Hhi'].
  pose proof (ndigits_pos p).
  destruct (Nat.lt_trichotomy (ndigits p) n) as [Hlt|[Heq|Hgt]]; [|exact Heq|].
  - assert (2 ^ Z.of_nat (ndigits p) <= 2 ^ (Z.of_nat n - 1))
      by (apply Z.pow_le_mono_r; lia). lia.
  - assert (2 ^ Z.of_nat n <= 2 ^ (Z.of_nat (ndigits p) - 1))
      by (apply Z.pow_le_mono_r; lia). lia.
Qed.

Lemma shl_value p n : Z.pos (shl p n) = Z.pos p * 2 ^ Z.of_nat n.
Proof.
  unfold shl. induction n as [|n IH].
  - simpl. lia.
  - rewrite Nat2Z.inj_succ, Z.pow_succ_r by lia.
    change (Nat.iter (S n) xO p) with (xO (Nat.iter n xO p)).
    rewrite Pos2Z.inj_xO, IH. lia.
Qed.

Lemma shl_inj_value p q : Z.pos p = Z.pos q -> p = q.
Proof. congruence. Qed.

Lemma ndigits_shl p n : ndigits (shl p n) = (ndigits p + n)%nat.
Proof.
  apply ndigits_unique. rewrite shl_value.
  destruct (ndigits_bounds p) as [Hlo Hhi]. pose proof (ndigits_pos p).
  replace (Z.of_nat (ndigits p + n) - 1) with (Z.of_nat (ndigits p) - 1 + Z.of_nat n) by lia.
  rewrite Nat2Z.inj_add, !Z.pow_add_r by lia.
  assert (0 < 2 ^ Z.of_nat n) by (apply Z.pow_pos_nonneg; lia).
  nia.
Qed.

Lemma Zdigits2_pos p : Zdigits2 (Z.pos p) = Z.of_nat (ndigits p).
Proof. unfold ndigits. rewrite positive_nat_Z. reflexivity. Qed.

Lemma iter_pos_nat {A} (f : A -> A) (n : positive) (x : A) :
  SpecFloat.iter_pos f n x = Nat.iter (Pos.to_nat n) f x.
Proof.
  revert x. induction n as [n IH|n IH|]; intros x; cbn [SpecFloat.iter_pos].
  - rewrite !IH, Pos2Nat.inj_xI. cbn [Nat.mul]. rewrite Nat.add_0_r.
    rewrite <- Nat.iter_add. rewrite Nat.iter_succ_r. reflexivity.
  - rewrite !IH, Pos2Nat.inj_xO. cbn [Nat.mul]. rewrite Nat.add_0_r.
    rewrite <- Nat.iter_add. reflexivity.
  - reflexivity.
Qed.

Lemma pos_iter_shl p (d : positive) : Pos.iter xO p d = shl p (Pos.to_nat d).
Proof. unfold shl. apply Pos2Nat.inj_iter. Qed.

(** Shifting out bits that are all zero is exact. *)
Lemma shr_nat_exact p (j k : nat) :
  Nat.iter k shr_1 (Build_shr_record (Z.pos (shl p (j + k))) false false)
  = Build_shr_record (Z.pos (shl p j)) false false.
Proof.
  induction k as [|k IH].
  - rewrite Nat.add_0_r. reflexivity.
  - rewrite Nat.iter_succ_r. rewrite Nat.add_succ_r.
    change (shl p (S (j + k))) with (xO (shl p (j + k))). cbn [shr_1 orb].
    exact IH.
Qed.

Lemma shr_exact p (j k : nat) e :
  shr (Build_shr_record (Z.pos (shl p (j + k))) false false) e (Z.of_nat k)
  = (Build_shr_record (Z.pos (shl p j)) false false, e + Z.of_nat k).
Proof.
  unfold shr. destruct k as [|k].
  - cbn [Z.of_nat]. rewrite Nat.add_0_r, Z.add_0_r. reflexivity.
  - destruct (Z.of_nat (S k)) as [|n|n] eqn:Hk; try lia.
    rewrite iter_pos_nat. replace (Pos.to_nat n) with (S k) by lia.
    rewrite shr_nat_exact. reflexivity.
Qed.
End FloatFacts.

Section FloatExact.
Local Open Scope Z_scope.

Lemma fexp_normal x : -1021 <= x -> fexp 53 1024 x = x - 53.
Proof. intros Hx. unfold fexp, emin. lia. Qed.

(** Rounding a mantissa whose bits beyond the 53rd are zero. *)
Lemma binary_round_aux_exact s q (a : nat) e :
  (ndigits q <= 53)%nat -> (53 <= ndigits q + a)%nat ->
  -1074 <= e + Z.of_nat (ndigits q + a - 53) <= 971 ->
  binary_round_aux 53 1024 s (Z.pos (shl q a)) e loc_Exact
  = S754_finite s (shl q (53 - ndigits q)) (e + Z.of_nat (ndigits q + a - 53)).
Proof.
  intros Hd Ha HE.
  remember (53 - ndigits q)%nat as j eqn:Hj.
  remember (ndigits q + a - 53)%nat as k eqn:Hk.
  assert (a = (j + k)%nat) as Hajk by lia. subst a.
  unfold binary_round_aux, shr_fexp.
  rewrite Zdigits2_pos, ndigits_shl.
  rewrite fexp_normal by lia.
  replace (Z.of_nat (ndigits q + (j + k)) + e - 53 - e) with (Z.of_nat k) by lia.
  cbn [shr_record_of_loc]. rewrite shr_exact.
  cbn [shr_m loc_of_shr_record round_nearest_even].
  rewrite Zdigits2_pos, ndigits_shl. rewrite fexp_normal by lia.
  replace (Z.of_nat (ndigits q + j) + (e + Z.of_nat k) - 53 - (e + Z.of_nat k))
    with 0 by lia.
  cbn [shr_record_of_loc shr shr_m].
  replace (e + Z.of_nat k <=? 1024 - 53) with true by (symmetry; apply Z.leb_le; lia).
  reflexivity.
Qed.

(** A positive integer below 2^53 as a binary64. *)
Lemma of_Z_pos p :
  (ndigits p <= 53)%nat ->
  F64.of_Z (Z.pos p)
  = S754_finite false (shl p (53 - ndigits p)) (Z.of_nat (ndigits p) - 53).
Proof.
  intros Hd. unfold F64.of_Z, binary_normalize, binary_round.
  fold (Zdigits2 (Z.pos p)). rewrite Zdigits2_pos.
  change F64.prec with 53. change F64.emax with 1024.
  rewrite fexp_normal by lia. unfold shl_align.
  pose proof (ndigits_pos p) as Hp.
  destruct (Z.of_nat (ndigits p) + 0 - 53 - 0) as [|n|n] eqn:Hn; try lia.
  - replace p with (shl p 0) at 1 by reflexivity.
    rewrite binary_round_aux_exact by lia.
    replace (53 - ndigits p)%nat with 0%nat by lia. f_equal. lia.
  - rewrite pos_iter_shl.
    rewrite binary_round_aux_exact by lia.
    replace (Pos.to_nat n) with (53 - ndigits p)%nat by lia. f_equal. lia.
Qed.

Lemma ndigits_le p (n : nat) : Z.pos p < 2 ^ Z.of_nat n -> (ndigits p <= n)%nat.
Proof.
  intros Hp. destruct (ndigits_bounds p) as [Hlo _]. pose proof (ndigits_pos p).
  destruct (Nat.le_gt_cases (ndigits p) n) as [Hle|Hgt]; [exact Hle|].
  assert (2 ^ Z.of_nat n <= 2 ^ (Z.of_nat (ndigits p) - 1))
    by (apply Z.pow_le_mono_r; lia). lia.
Qed.

Lemma ndigits_mul_lower p q : (ndigits p + ndigits q <= ndigits (p * q) + 1)%nat.
Proof.
  destruct (ndigits_bounds p) as [Hp _]. destruct (ndigits_bounds q) as [Hq _].
  destruct (ndigits_bounds (p * q)) as [_ Hpq].
  pose proof (ndigits_pos p). pose proof (ndigits_pos q).
  rewrite Pos2Z.inj_mul in Hpq.
  assert (2 ^ (Z.of_nat (ndigits p) - 1 + (Z.of_nat (ndigits q) - 1))
          < 2 ^ Z.of_nat (ndigits (p * q))) as Hlt.
  { rewrite Z.pow_add_r by lia.
    assert (0 < 2 ^ (Z.of_nat (ndigits p) - 1)) by (apply Z.pow_pos_nonneg; lia).
    assert (0 < 2 ^ (Z.of_nat (ndigits q) - 1)) by (apply Z.pow_pos_nonneg; lia).
    nia. }
  apply Z.pow_lt_mono_r_iff in Hlt; lia.
Qed.

Lemma ndigits_mono p q : (p <= q)%positive -> (ndigits p <= ndigits q)%nat.
Proof.
  intros Hpq. apply ndigits_le. destruct (ndigits_bounds q) as [_ Hq]. lia.
Qed.

Lemma shl_mul p q (a b : nat) : (shl p a * shl q b)%positive = shl (p * q) (a + b).
Proof.
  apply shl_inj_value. rewrite Pos2Z.inj_mul, !shl_value, Pos2Z.inj_mul.
  rewrite Nat2Z.inj_add, Z.pow_add_r by lia. ring.
Qed.

Lemma shl_add p q (a : nat) : (shl p a + shl q a)%positive = shl (p + q) a.
Proof.
  apply shl_inj_value. rewrite Pos2Z.inj_add, !shl_value, Pos2Z.inj_add. ring.
Qed.

Lemma shl_shl p (a b : nat) : shl (shl p a) b = shl p (a + b).
Proof.
  apply shl_inj_value. rewrite !shl_value, Nat2Z.inj_add, Z.pow_add_r by lia. ring.
Qed.

(** The product of two positive integers is exact when it is below 2^53. *)
Lemma mul_exact p q :
  (ndigits (p * q) <= 53)%nat ->
  F64.mul (F64.of_Z (Z.pos p)) (F64.of_Z (Z.pos q)) = F64.of_Z (Z.pos (p * q)).
Proof.
  intros Hpq.
  pose proof (ndigits_mul_lower p q) as Hlow.
  pose proof (ndigits_pos p). pose proof (ndigits_pos q).
  rewrite !of_Z_pos by lia.
  unfold F64.mul, SFmul. change F64.prec with 53. change F64.emax with 1024.
  rewrite shl_mul. cbn [xorb].
  rewrite binary_round_aux_exact by lia.
  f_equal. lia.
Qed.

(** The sum of two positive integers is exact when it is below 2^53. *)
Lemma add_exact p q :
  (ndigits (p + q) <= 53)%nat ->
  F64.add (F64.of_Z (Z.pos p)) (F64.of_Z (Z.pos q)) = F64.of_Z (Z.pos (p + q)).
Proof.
  intros Hpq.
  assert (ndigits p <= ndigits (p + q))%nat as Hp by (apply ndigits_mono; lia).
  assert (ndigits q <= ndigits (p + q))%nat as Hq by (apply ndigits_mono; lia).
  pose proof (ndigits_pos p). pose proof (ndigits_pos q).
  rewrite !of_Z_pos by lia.
  unfold F64.add, SFadd. change F64.prec with 53. change F64.emax with 1024.
  set (c := (53 - Nat.min (ndigits p) (ndigits q))%nat).
  assert (Z.min (Z.of_nat (ndigits p) - 53) (Z.of_nat (ndigits q) - 53)
          = - Z.of_nat c) as -> by lia.
  assert (forall r, (Nat.min (ndigits p) (ndigits q) <= ndigits r <= 53)%nat ->
            fst (shl_align (shl r (53 - ndigits r)) (Z.of_nat (ndigits r) - 53)
                   (- Z.of_nat c)) = shl r c) as Halign.
  { intros r Hr. unfold shl_align.
    destruct (- Z.of_nat c - (Z.of_nat (ndigits r) - 53)) as [|n|n] eqn:Hn; try lia.
    - cbn [fst]. f_equal. lia.
    - cbn [fst]. rewrite pos_iter_shl, shl_shl. f_equal. lia. }
  rewrite !Halign by lia. cbn [cond_Zopp].
  rewrite <- Pos2Z.inj_add, shl_add.
  unfold binary_normalize, binary_round.
  fold (Zdigits2 (Z.pos (shl (p + q) c))). rewrite Zdigits2_pos, ndigits_shl.
  rewrite fexp_normal by lia. unfold shl_align.
  destruct (Z.of_nat (ndigits (p + q) + c) + - Z.of_nat c - 53 - - Z.of_nat c)
    as [|n|n] eqn:Hn; try lia.
  - rewrite binary_round_aux_exact by lia. f_equal. lia.
  - rewrite binary_round_aux_exact by lia. f_equal. lia.
Qed.
End FloatExact.

Section Accumulate.
Local Open Scope Z_scope.

Lemma digit_val_range c : isdigit_ascii c = true -> 0 <= digit_val c <= 9.
Proof.
  unfold isdigit_ascii, digit_val. rewrite andb_true_iff, !N.leb_le. lia.
Qed.

Lemma of_Z_finite_form p :
  (ndigits p <= 53)%nat -> exists m e, F64.of_Z (Z.pos p) = S754_finite false m e.
Proof. intros Hp. rewrite of_Z_pos by exact Hp. eauto. Qed.

(** One step of the digit accumulation is exact below 2^53. *)
Lemma push_digit_exact n c :
  0 <= n -> isdigit_ascii c = true -> 10 * n + digit_val c < 2 ^ 53 ->
  push_digit (F64.of_Z n) c = F64.of_Z (10 * n + digit_val c).
Proof.
  intros Hn Hc Hlt. pose proof (digit_val_range c Hc) as Hd.
  unfold push_digit.
  destruct n as [|p|p]; [| |lia].
  - change (F64.mul (F64.of_Z 0) (F64.of_Z 10)) with (S754_zero false).
    rewrite Z.mul_0_r, Z.add_0_l.
    destruct (digit_val c) as [|d|d]; [reflexivity| |lia].
    destruct (of_Z_finite_form d) as (m & e & ->); [|reflexivity].
    apply (ndigits_le d 53). lia.
  - assert (ndigits (p * 10) <= 53)%nat as Hp10.
    { apply (ndigits_le (p * 10) 53). lia. }
    rewrite (mul_exact p 10 Hp10).
    destruct (digit_val c) as [|d|d] eqn:Hdv; [| |lia].
    + rewrite Z.add_0_r.
      replace (10 * Z.pos p) with (Z.pos (p * 10)) by lia.
      destruct (of_Z_finite_form (p * 10) Hp10) as (m & e & ->). reflexivity.
    + rewrite add_exact.
      * f_equal. lia.
      * apply (ndigits_le (p * 10 + d) 53). lia.
Qed.

Lemma digits_value_from_le n ds :
  0 <= n -> all_digits ds ->
  n <= foldl (fun n c => 10 * n + digit_val c) n ds.
Proof.
  intros Hn Hds. revert n Hn. induction Hds as [|c ds Hc Hds IH]; intros n Hn.
  - simpl. lia.
  - simpl. pose proof (digit_val_range c Hc).
    etransitivity; [|apply IH; lia]. lia.
Qed.

(** Accumulating digits in binary64 gives the integer they denote, as
    long as it stays below 2^53. *)
Lemma accumulate_exact n ds :
  0 <= n -> all_digits ds ->
  foldl (fun n c => 10 * n + digit_val c) n ds < 2 ^ 53 ->
  foldl push_digit (F64.of_Z n) ds
  = F64.of_Z (foldl (fun n c => 10 * n + digit_val c) n ds).
Proof.
  intros Hn Hds. revert n Hn. induction Hds as [|c ds Hc Hds IH]; intros n Hn Hlt.
  - reflexivity.
  - cbn [foldl] in *. pose proof (digit_val_range c Hc).
    pose proof (digits_value_from_le (10 * n + digit_val c) ds ltac:(lia) Hds).
    rewrite push_digit_exact by (try assumption; lia).
    apply IH; [lia|exact Hlt].
Qed.

Lemma digits_value_bound ds :
  all_digits ds -> 0 <= digits_value ds < 10 ^ Z.of_nat (length ds).
Proof.
  unfold digits_value. intros Hds.
  assert (forall n, 0 <= n ->
            0 <= foldl (fun n c => 10 * n + digit_val c) n ds
            < (n + 1) * 10 ^ Z.of_nat (length ds)) as Hgen.
  { induction Hds as [|c ds Hc Hds IH]; intros n Hn.
    - simpl. lia.
    - cbn [foldl length]. pose proof (digit_val_range c Hc).
      rewrite Nat2Z.inj_succ, Z.pow_succ_r by lia.
      specialize (IH (10 * n + digit_val c) ltac:(lia)).
      assert (0 < 10 ^ Z.of_nat (length ds)) by (apply Z.pow_pos_nonneg; lia).
      nia. }
  specialize (Hgen 0 ltac:(lia)). lia.
Qed.
End Accumulate.

Section FloatRange.
Local Open Scope Z_scope.

Lemma Zdigits2_nonneg m : 0 <= Zdigits2 m.
Proof. destruct m; simpl; lia. Qed.

Lemma Zdigits2_le m (n : nat) : 0 <= m < 2 ^ Z.of_nat n -> Zdigits2 m <= Z.of_nat n.
Proof.
  intros [Hm Hlt]. destruct m as [|p|p]; [simpl; lia| |lia].
  rewrite Zdigits2_pos. apply inj_le, (ndigits_le p n), Hlt.
Qed.

Lemma Zdigits2_lt m : 0 <= m -> m < 2 ^ Zdigits2 m.
Proof.
  intros Hm. destruct m as [|p|p]; [simpl; lia| |lia].
  rewrite Zdigits2_pos. apply ndigits_bounds.
Qed.

Lemma Zdigits2_mono a b : 0 <= a <= b -> Zdigits2 a <= Zdigits2 b.
Proof.
  intros [Ha Hab]. pose proof (Zdigits2_lt b ltac:(lia)) as Hb.
  pose proof (Zdigits2_nonneg b) as Hnn.
  pose proof (Zdigits2_le a (Z.to_nat (Zdigits2 b))) as H.
  rewrite Z2Nat.id in H by exact Hnn. apply H. lia.
Qed.

Lemma Zdigits2_succ a : 0 <= a -> Zdigits2 (a + 1) <= Zdigits2 a + 1.
Proof.
  intros Ha. pose proof (Zdigits2_lt a Ha) as Hlt.
  pose proof (Zdigits2_nonneg a) as Hnn.
  pose proof (Zdigits2_le (a + 1) (Z.to_nat (Zdigits2 a + 1))) as H.
  rewrite Z2Nat.id in H by lia. apply H.
  rewrite Z.pow_add_r by lia. lia.
Qed.

Lemma shr_1_bounds mrs :
  0 <= shr_m mrs -> 0 <= shr_m (shr_1 mrs) <= shr_m mrs.
Proof.
  destruct mrs as [m r s]. cbn [shr_m]. intros Hm.
  destruct m as [|[p|p|]|p]; cbn [shr_1 shr_m]; lia.
Qed.

Lemma shr_bounds mrs e n :
  0 <= shr_m mrs ->
  0 <= shr_m (shr mrs e n).1 <= shr_m mrs
  /\ ((shr mrs e n).2 = e \/ (shr mrs e n).2 = e + n).
Proof.
  intros Hm. unfold shr. destruct n as [|p|p]; cbn [fst snd]; try (split; [lia|auto]).
  split; [|auto]. rewrite iter_pos_nat.
  induction (Pos.to_nat p) as [|k IH].
  - change (Nat.iter 0 shr_1 mrs) with mrs. lia.
  - change (Nat.iter (S k) shr_1 mrs) with (shr_1 (Nat.iter k shr_1 mrs)).
    pose proof (shr_1_bounds (Nat.iter k shr_1 mrs)). lia.
Qed.

Lemma shr_record_of_loc_m m l : shr_m (shr_record_of_loc m l) = m.
Proof. destruct l as [|[]]; reflexivity. Qed.

Lemma round_nearest_even_bounds m l :
  m <= round_nearest_even m l <= m + 1.
Proof.
  destruct l as [|[]]; cbn [round_nearest_even]; try lia.
  destruct (Z.even m); lia.
Qed.

(** Rounding a mantissa and exponent far from the overflow threshold
    gives a zero or a finite number, of the given sign. *)
Lemma binary_round_aux_finite s m e l :
  0 <= m -> Zdigits2 m <= 250 -> e <= 100 ->
  binary_round_aux 53 1024 s m e l = S754_zero s
  \/ exists m' e', binary_round_aux 53 1024 s m e l = S754_finite s m' e'.
Proof.
  intros Hm Hd He. unfold binary_round_aux, shr_fexp.
  pose proof (shr_bounds (shr_record_of_loc m l) e
                (fexp 53 1024 (Zdigits2 m + e) - e)) as H1.
  rewrite shr_record_of_loc_m in H1. specialize (H1 Hm).
  destruct (shr (shr_record_of_loc m l) e (fexp 53 1024 (Zdigits2 m + e) - e))
    as [mrs' e'] eqn:Hs1. cbn [fst snd] in H1. destruct H1 as [Hm' He'].
  set (m1 := round_nearest_even (shr_m mrs') (loc_of_shr_record mrs')).
  pose proof (round_nearest_even_bounds (shr_m mrs') (loc_of_shr_record mrs')) as Hr.
  fold m1 in Hr.
  assert (e' <= 297) as He'b.
  { unfold fexp, emin in He'. pose proof (Zdigits2_nonneg m). lia. }
  assert (Zdigits2 m1 <= 251) as Hd1.
  { etransitivity; [apply (Zdigits2_mono m1 (m + 1)); lia|].
    pose proof (Zdigits2_succ m Hm). lia. }
  pose proof (shr_bounds (shr_record_of_loc m1 loc_Exact) e'
                (fexp 53 1024 (Zdigits2 m1 + e') - e')) as H2.
  rewrite shr_record_of_loc_m in H2. specialize (H2 ltac:(lia)).
  destruct (shr (shr_record_of_loc m1 loc_Exact) e'
              (fexp 53 1024 (Zdigits2 m1 + e') - e')) as [mrs'' e''] eqn:Hs2.
  cbn [fst snd] in H2. destruct H2 as [Hm'' He''].
  assert (e'' <= 971) as He''b.
  { unfold fexp, emin in He''. pose proof (Zdigits2_nonneg m1). lia. }
  destruct (shr_m mrs'') as [|p|p]; [left; reflexivity| |lia].
  right. exists p, e''.
  replace (e'' <=? 1024 - 53) with true by (symmetry; apply Z.leb_le; lia).
  reflexivity.
Qed.

(** The quotient of two positive integers below 2^53 is a zero or a
    finite number; its sign is that of the dividend. *)
Lemma div_finite (s : bool) p q :
  (ndigits p <= 53)%nat -> (ndigits q <= 53)%nat ->
  let x := F64.div (if s then F64.opp (F64.of_Z (Z.pos p)) else F64.of_Z (Z.pos p))
                   (F64.of_Z (Z.pos q)) in
  F64.is_finite x = true /\ F64.is_neg x = s.
Proof.
  intros Hp Hq. cbv zeta.
  pose proof (ndigits_pos p). pose proof (ndigits_pos q).
  rewrite !of_Z_pos by assumption.
  set (m1 := shl p (53 - ndigits p)). set (m2 := shl q (53 - ndigits q)).
  set (e1 := Z.of_nat (ndigits p) - 53). set (e2 := Z.of_nat (ndigits q) - 53).
  assert (F64.div (if s then F64.opp (S754_finite false m1 e1)
                   else S754_finite false m1 e1) (S754_finite false m2 e2)
          = let '(mz, ez, lz) := SFdiv_core_binary 53 1024 (Z.pos m1) e1 (Z.pos m2) e2 in
            binary_round_aux 53 1024 s mz ez lz) as ->.
  { destruct s; reflexivity. }
  assert (ndigits m1 = 53%nat) as Hm1 by (unfold m1; rewrite ndigits_shl; lia).
  assert (ndigits m2 = 53%nat) as Hm2 by (unfold m2; rewrite ndigits_shl; lia).
  unfold SFdiv_core_binary. rewrite !Zdigits2_pos, Hm1, Hm2.
  set (e' := Z.min (fexp 53 1024 (Z.of_nat 53 + e1 - (Z.of_nat 53 + e2))) (e1 - e2)).
  assert (e1 - e2 - 53 <= e' <= e1 - e2) as He'.
  { unfold e', fexp, emin. lia. }
  set (m' := match e1 - e2 - e' with
             | 0 => Z.pos m1
             | Z.pos _ => Z.shiftl (Z.pos m1) (e1 - e2 - e')
             | Z.neg _ => 0
             end).
  assert (0 <= m' < 2 ^ 106) as Hm'.
  { destruct (ndigits_bounds m1) as [_ Hb]. rewrite Hm1 in Hb.
    unfold m'. destruct (e1 - e2 - e') as [|n|n] eqn:Hn; [lia| |lia].
    rewrite Z.shiftl_mul_pow2 by lia.
    assert (0 < 2 ^ Z.pos n <= 2 ^ 53).
    { split; [apply Z.pow_pos_nonneg; lia | apply Z.pow_le_mono_r; lia]. }
    change (2 ^ 106) with (2 ^ 53 * 2 ^ 53). change (Z.of_nat 53) with 53 in Hb. nia. }
  destruct (Z.div_eucl m' (Z.pos m2)) as [qz r] eqn:Hdiv.
  assert (qz = m' / Z.pos m2) as Hqz by (unfold Z.div; rewrite Hdiv; reflexivity).
  assert (0 <= qz <= m') as Hq'.
  { subst qz. split; [apply Z.div_pos; lia|].
    apply Z.div_le_upper_bound; [lia|]. nia. }
  destruct (binary_round_aux_finite s qz e' (new_location (Z.pos m2) r))
    as [-> | (mz & ez & ->)].
  - lia.
  - etransitivity; [apply (Zdigits2_le qz 106); change (Z.of_nat 106) with 106; lia|].
    change (Z.of_nat 106) with 106. lia.
  - unfold e1, e2 in He'. lia.
  - split; reflexivity.
  - split; reflexivity.
Qed.
End FloatRange.

Section NumberText.
Local Open Scope Z_scope.

(** [replace] leaves a text alone when the first character of the
    pattern does not occur in it. *)
Lemma replace_absent c0 rest new s :
  Forall (fun c => c <> c0) s -> replace (c0 :: rest) new s = s.
Proof.
  unfold replace. induction 1 as [|c s Hc Hs IH]; [reflexivity|].
  cbn [replace_from startswith].
  destruct (N.eqb_spec c0 c) as [->|_]; [contradiction|].
  cbn [andb]. now rewrite IH.
Qed.

(** [replace] of a one-character pattern works character by character. *)
Lemma replace_single c0 new s :
  replace [c0] new s
  = flat_map (fun c => if (c0 =? c)%N then new else [c]) s.
Proof.
  unfold replace. induction s as [|c s IH]; [reflexivity|].
  cbn [replace_from startswith flat_map length Nat.sub].
  rewrite andb_true_r. destruct (c0 =? c)%N; now rewrite IH.
Qed.

Lemma flat_map_keep (c0 : N) (new s : str) :
  Forall (fun c => c <> c0) s ->
  flat_map (fun c => if (c0 =? c)%N then new else [c]) s = s.
Proof.
  induction 1 as [|c s Hc Hs IH]; [reflexivity|].
  cbn [flat_map]. destruct (N.eqb_spec c0 c) as [->|_]; [contradiction|].
  now rewrite IH.
Qed.

Lemma digit_differs c c0 :
  isdigit_ascii c0 = false -> isdigit_ascii c = true -> c <> c0.
Proof. congruence. Qed.

Lemma all_digits_differ c0 ds :
  isdigit_ascii c0 = false -> all_digits ds -> Forall (fun c => c <> c0) ds.
Proof.
  intros H0 Hds. eapply Forall_impl; [exact Hds|].
  intros c. apply digit_differs, H0.
Qed.

Lemma all_digits_concat groups :
  Forall all_digits groups -> all_digits (concat groups).
Proof.
  induction 1 as [|g gs Hg Hgs IH]; [constructor|].
  cbn [concat]. apply Forall_app. split; assumption.
Qed.

Lemma join_differs c0 sep groups :
  Forall (fun c => c <> c0) sep ->
  Forall (Forall (fun c => c <> c0)) groups ->
  Forall (fun c => c <> c0) (join sep groups).
Proof.
  intros Hsep. induction 1 as [|g gs Hg Hgs IH]; [constructor|].
  cbn [join]. destruct gs as [|g' gs']; [exact Hg|].
  apply Forall_app. split; [exact Hg|]. apply Forall_app. split; [exact Hsep|exact IH].
Qed.

(** Removing the periods of a period-joined list of digit groups leaves
    the digits. *)
Lemma remove_periods groups :
  Forall all_digits groups ->
  flat_map (fun c => if (46 =? c)%N then [] else [c]) (join [46%N] groups)
  = concat groups.
Proof.
  induction 1 as [|g gs Hg Hgs IH]; [reflexivity|].
  assert (flat_map (fun c => if (46 =? c)%N then [] else [c]) g = g) as Hgk.
  { apply flat_map_keep, all_digits_differ; [reflexivity|exact Hg]. }
  cbn [join concat]. destruct gs as [|g' gs'].
  - cbn [concat]. rewrite app_nil_r. exact Hgk.
  - rewrite !flat_map_app, Hgk, IH. reflexivity.
Qed.

(** The text of a number with a leading minus holds none of [c0] when
    [c0] is not one of its four kinds of characters. *)
Lemma leading_minus_text_differs c0 groups frac :
  c0 <> 45%N -> c0 <> 46%N -> c0 <> 44%N -> isdigit_ascii c0 = false ->
  Forall all_digits groups -> all_digits frac ->
  Forall (fun c => c <> c0) (leading_minus_text groups frac).
Proof.
  intros H45 H46 H44 Hd Hg Hf. unfold leading_minus_text.
  change (py "-") with [45%N]. change (py ".") with [46%N].
  change (py ",") with [44%N].
  apply Forall_app. split; [repeat constructor; congruence|].
  apply Forall_app. split.
  - apply join_differs; [repeat constructor; congruence|].
    eapply Forall_impl; [exact Hg|]. intros g. apply all_digits_differ, Hd.
  - apply Forall_app. split; [repeat constructor; congruence|].
    apply all_digits_differ; assumption.
Qed.

(** The text after the substitutions of [clean_val]. *)
Lemma clean_text_leading_minus groups frac :
  Forall all_digits groups -> all_digits frac ->
  replace (py ",") (py ".")
    (replace (py ".") []
       (sub_trailing_minus
          (replace [8722%N] (py "-")
             (replace (py " ") []
                (replace (py "R$") []
                   (replace [160%N] [] (leading_minus_text groups frac)))))))
  = 45%N :: concat groups ++ 46%N :: frac.
Proof.
  intros Hg Hf.
  change (py " ") with [32%N]. change (py "R$") with [82%N; 36%N].
  assert (forall c0 rest new,
            c0 <> 45%N -> c0 <> 46%N -> c0 <> 44%N -> isdigit_ascii c0 = false ->
            replace (c0 :: rest) new (leading_minus_text groups frac)
            = leading_minus_text groups frac) as Hkeep.
  { intros. apply replace_absent, leading_minus_text_differs; assumption. }
  rewrite (Hkeep 160%N) by (discriminate || reflexivity).
  rewrite (Hkeep 82%N) by (discriminate || reflexivity).
  rewrite (Hkeep 32%N) by (discriminate || reflexivity).
  rewrite (Hkeep 8722%N) by (discriminate || reflexivity).
  assert (sub_trailing_minus (leading_minus_text groups frac)
          = leading_minus_text groups frac) as -> by reflexivity.
  change (py ",") with [44%N]. change (py ".") with [46%N].
  rewrite !replace_single. unfold leading_minus_text.
  change (py "-") with [45%N]. change (py ".") with [46%N].
  change (py ",") with [44%N].
  change ([45%N] ++ join [46%N] groups ++ [44%N] ++ frac)
    with (45%N :: (join [46%N] groups ++ 44%N :: frac)).
  cbn [flat_map]. change (46 =? 45)%N with false. cbv iota.
  assert (flat_map (fun c => if (46 =? c)%N then [] else [c])
            (join [46%N] groups ++ 44%N :: frac)
          = concat groups ++ 44%N :: frac) as ->.
  { rewrite flat_map_app, remove_periods by exact Hg.
    cbn [flat_map]. change (46 =? 44)%N with false. cbv iota.
    rewrite (flat_map_keep 46 [] frac)
      by (apply all_digits_differ; [reflexivity|exact Hf]).
    reflexivity. }
  cbn [app flat_map]. change (44 =? 45)%N with false. cbv iota.
  cbn [app]. f_equal.
  rewrite flat_map_app. cbn [flat_map]. change (44 =? 44)%N with true. cbv iota.
  rewrite !(flat_map_keep 44 [46%N])
    by (apply all_digits_differ; [reflexivity|auto using all_digits_concat]).
  reflexivity.
Qed.
End NumberText.

Section Scanner.
Local Open Scope Z_scope.

Lemma foldl_push_app x (a b : str) :
  foldl push_digit x (a ++ b) = foldl push_digit (foldl push_digit x a) b.
Proof. apply foldl_app. Qed.

(** The integer part: up to 17 digits are accumulated, and the scan
    stops at the first character that is not a digit. *)
Lemma scan_int_digits ds c rest x nd e :
  all_digits ds -> isdigit_ascii c = false ->
  (nd + length ds <= max_digits)%nat ->
  scan_int (ds ++ c :: rest) x nd e
  = (foldl push_digit x ds, (nd + length ds)%nat, e, c :: rest).
Proof.
  intros Hds Hc. revert x nd.
  induction Hds as [|d ds Hd Hds IH]; intros x nd Hlen.
  - cbn [app scan_int foldl length]. rewrite Hc, Nat.add_0_r. reflexivity.
  - cbn [app scan_int foldl length] in *. rewrite Hd.
    replace (nd <? max_digits)%nat with true
      by (symmetry; apply Nat.ltb_lt; lia).
    replace (nd + S (length ds))%nat with (S nd + length ds)%nat by lia.
    apply IH. lia.
Qed.

(** The fractional part, read to the end of the text. *)
Lemma scan_frac_digits ds x nd k :
  all_digits ds -> (nd + length ds <= max_digits)%nat ->
  scan_frac ds x nd k
  = (foldl push_digit x ds, (nd + length ds)%nat, k + Z.of_nat (length ds), []).
Proof.
  intros Hds. revert x nd k.
  induction Hds as [|d ds Hd Hds IH]; intros x nd k Hlen.
  - cbn [scan_frac foldl length]. rewrite Nat.add_0_r, Z.add_0_r. reflexivity.
  - cbn [scan_frac foldl length] in *. rewrite Hd.
    replace (nd <? max_digits)%nat with true
      by (symmetry; apply Nat.ltb_lt; lia).
    cbn [andb].
    replace (nd + S (length ds))%nat with (S nd + length ds)%nat by lia.
    replace (k + Z.of_nat (S (length ds))) with (k + 1 + Z.of_nat (length ds)) by lia.
    apply IH. lia.
Qed.

Lemma digits_value_small ds :
  all_digits ds -> (length ds <= 15)%nat -> 0 <= digits_value ds < 2 ^ 53.
Proof.
  intros Hds Hlen. pose proof (digits_value_bound ds Hds) as [H0 H1].
  split; [exact H0|]. eapply Z.lt_le_trans; [exact H1|].
  transitivity (10 ^ 15); [apply Z.pow_le_mono_r; lia|]. vm_compute. discriminate.
Qed.

(** The quotient by a power of ten up to 10^15 of minus a natural number
    below 2^53 is a finite negative number or minus zero. *)
Lemma div_pow10_finite n k :
  0 <= n < 2 ^ 53 -> 0 <= k <= 15 ->
  let x := F64.div (F64.opp (F64.of_Z n)) (e10 k) in
  F64.is_finite x = true /\ F64.is_neg x = true.
Proof.
  intros Hn Hk. cbv zeta. unfold e10.
  assert (0 < 10 ^ k < 2 ^ 53) as Hp.
  { split; [apply Z.pow_pos_nonneg; lia|].
    eapply Z.le_lt_trans; [apply (Z.pow_le_mono_r 10 k 15); lia|].
    vm_compute. reflexivity. }
  destruct (10 ^ k) as [|q|q] eqn:Hq; [lia| |lia].
  assert (ndigits q <= 53)%nat as Hdq by (apply ndigits_le; exact (proj2 Hp)).
  destruct n as [|p|p]; [| |lia].
  - destruct (of_Z_finite_form q Hdq) as (m & e & ->). split; reflexivity.
  - apply (div_finite true p q); [apply ndigits_le; lia|exact Hdq].
Qed.

Lemma is_finite_not_inf x : F64.is_finite x = true -> F64.is_inf x = false.
Proof. destruct x; [reflexivity|discriminate|discriminate|reflexivity]. Qed.

(** [precise_xstrtod] on a minus sign, digits, a decimal point and
    digits: at most 17 digits in all, so that the parser holds every one
    of them, at most 15 of them decimals, and the integer they write
    below 2^53, so that it is held exactly. *)
Lemma precise_xstrtod_decimal ip fp :
  all_digits ip -> all_digits fp ->
  (0 < length ip + length fp <= 17)%nat -> (length fp <= 15)%nat ->
  digits_value (ip ++ fp) < 2 ^ 53 ->
  precise_xstrtod (45%N :: ip ++ 46%N :: fp)
  = Some (F64.div (F64.opp (F64.of_Z (digits_value (ip ++ fp))))
            (e10 (Z.of_nat (length fp))), [], false).
Proof.
  intros Hip Hfp Hlen Hdec Hvalue. unfold precise_xstrtod.
  cbn [skip_space]. change (isspace_ascii 45) with false. cbv beta iota zeta.
  rewrite (scan_int_digits ip 46%N fp) by (try reflexivity; try assumption; unfold max_digits; lia).
  cbv beta iota zeta.
  rewrite (scan_frac_digits fp) by (try assumption; unfold max_digits; lia).
  cbv beta iota zeta. rewrite <- foldl_push_app.
  change F64.zero with (F64.of_Z 0).
  assert (all_digits (ip ++ fp)) as Hall by (apply Forall_app; split; assumption).
  assert (0 <= digits_value (ip ++ fp) < 2 ^ 53) as Hsmall
    by (split; [apply (digits_value_bound _ Hall)|exact Hvalue]).
  rewrite accumulate_exact by (try lia; try assumption; apply Hsmall).
  fold (digits_value (ip ++ fp)).
  replace ((0 + length ip + length fp =? 0)%nat) with false
    by (symmetry; apply Nat.eqb_neq; lia).
  assert ((if (max_digits <=? 0 + length ip + length fp)%nat
           then skip_digits [] else []) = @nil N) as -> by (destruct (_ <=? _)%nat; reflexivity).
  cbv beta iota zeta.
  replace (308 <? 0 - (0 + Z.of_nat (length fp))) with false
    by (symmetry; apply Z.ltb_ge; lia).
  unfold scale.
  replace (0 <? 0 - (0 + Z.of_nat (length fp))) with false
    by (symmetry; apply Z.ltb_ge; lia).
  replace (0 - (0 + Z.of_nat (length fp)) <? -308) with false
    by (symmetry; apply Z.ltb_ge; lia).
  replace (- (0 - (0 + Z.of_nat (length fp)))) with (Z.of_nat (length fp)) by lia.
  destruct (div_pow10_finite (digits_value (ip ++ fp)) (Z.of_nat (length fp)))
    as [Hfin _]; [exact Hsmall|lia|].
  rewrite (is_finite_not_inf _ Hfin). reflexivity.
Qed.

Lemma c_str_keep s : Forall (fun c => c <> 0%N) s -> c_str s = s.
Proof.
  induction 1 as [|c s Hc Hs IH]; [reflexivity|].
  cbn [c_str]. destruct c; [contradiction|]. now rewrite IH.
Qed.

(** [to_numeric] on such a text. *)
Lemma to_numeric_decimal ip fp :
  all_digits ip -> all_digits fp ->
  (0 < length ip + length fp <= 17)%nat -> (length fp <= 15)%nat ->
  digits_value (ip ++ fp) < 2 ^ 53 ->
  to_numeric (45%N :: ip ++ 46%N :: fp)
  = F64.div (F64.opp (F64.of_Z (digits_value (ip ++ fp))))
      (e10 (Z.of_nat (length fp))).
Proof.
  intros Hip Hfp Hlen Hdec Hvalue. unfold to_numeric, floatify.
  rewrite c_str_keep.
  - unfold to_double. rewrite precise_xstrtod_decimal by assumption. reflexivity.
  - constructor; [discriminate|]. apply Forall_app. split.
    + apply all_digits_differ; [reflexivity|exact Hip].
    + constructor; [discriminate|]. apply all_digits_differ; [reflexivity|exact Hfp].
Qed.
End Scanner.

Section LeadingMinus.
Context `{!Runtime}.
Local Open Scope Z_scope.

(** C10, amended: on every text made of an ASCII hyphen-minus, groups of
    digits joined by periods, a comma and decimals, the trailing-minus
    rewrite does nothing and the substitutions leave the hyphen, the
    digits of the groups, one period and the decimals, which is the text
    handed to the float parser. When the text has at most 17 digits, at
    most 15 of them decimals, and the integer its digits write is below
    2^53 (so for every such text of up to 15 digits), the value returned
    is the binary64 quotient of minus that integer by ten to the number
    of decimals, which is finite and carries the negative sign. *)
Theorem clean_val_leading_minus (groups : list str) (frac : str) :
  Forall all_digits groups -> all_digits frac ->
  sub_trailing_minus (leading_minus_text groups frac)
  = leading_minus_text groups frac
  /\ clean_text (leading_minus_text groups frac)
     = py "-" ++ concat groups ++ py "." ++ frac
  /\ ((0 < length (concat groups) + length frac <= 17)%nat ->
      (length frac <= 15)%nat ->
      digits_value (concat groups ++ frac) < 2 ^ 53 ->
      let x := F64.div (F64.opp (F64.of_Z (digits_value (concat groups ++ frac))))
                 (F64.of_Z (10 ^ Z.of_nat (length frac))) in
      clean_val [Str (leading_minus_text groups frac)] = [Num x]
      /\ F64.is_finite x = true /\ F64.is_neg x = true).
Proof.
  intros Hg Hf.
  pose proof (all_digits_concat groups Hg) as Hc.
  assert (clean_text (leading_minus_text groups frac)
          = 45%N :: concat groups ++ 46%N :: frac) as Htext
    by (apply clean_text_leading_minus; assumption).
  split; [reflexivity|]. split; [exact Htext|].
  intros Hlen Hdec Hvalue. cbv zeta. split.
  - rewrite clean_val_map. cbn [map to_str]. rewrite Htext.
    rewrite to_numeric_decimal by assumption. reflexivity.
  - apply div_pow10_finite; [|lia].
    split; [|exact Hvalue].
    apply digits_value_bound, Forall_app. split; assumption.
Qed.
End LeadingMinus.

(* ===================================================================== *)
(** ** The order of summation *)
(* ===================================================================== *)

Section Summation.

(** The bound on nested splits never cuts the recursion short: from
    [length a - 128] on, every bound gives the same sum. *)
Lemma pairwise_sum_depth (depth depth' : nat) (a : list float) :
  (length a <= depth + 128)%nat -> (depth <= depth')%nat ->
  pairwise_sum depth' a = pairwise_sum depth a.
Proof.
  revert depth' a. induction depth as [|depth IH]; intros depth' a Hlen Hle.
  - destruct depth' as [|depth']; [reflexivity|].
    cbn [pairwise_sum]. cbv zeta.
    destruct (length a <? 8)%nat; [reflexivity|].
    replace (length a <=? 128)%nat with true; [reflexivity|].
    symmetry. apply Nat.leb_le. lia.
  - destruct depth' as [|depth']; [lia|].
    cbn [pairwise_sum]. cbv zeta.
    destruct (length a <? 8)%nat; [reflexivity|].
    destruct (length a <=? 128)%nat eqn:Hn; [reflexivity|].
    apply Nat.leb_gt in Hn.
    pose proof (Nat.div_mod_eq (length a) 2) as Hdiv.
    pose proof (Nat.mod_upper_bound (length a) 2 ltac:(lia)) as Hmod2.
    pose proof (Nat.mod_upper_bound (length a / 2) 8 ltac:(lia)) as Hmod8.
    rewrite (IH depth' (take _ a)), (IH depth' (drop _ a)); try lia.
    + reflexivity.
    + rewrite length_drop. lia.
    + rewrite length_take. lia.
Qed.

(** Fewer than eight values are added from the left. *)
Lemma np_sum_short (a : list float) :
  (length a < 8)%nat -> np_sum a = F64.add F64.zero (foldl F64.add F64.zero a).
Proof.
  intros Hlen. unfold np_sum. destruct (length a) as [|n] eqn:Hn.
  - destruct a; [reflexivity|discriminate].
  - cbn [pairwise_sum]. cbv zeta. rewrite Hn.
    replace (S n <? 8)%nat with true; [reflexivity|].
    symmetry. apply Nat.ltb_lt. exact Hlen.
Qed.

(** Eight times -0.45: the eight partial sums give the exact product,
    -3.6 rounded once, where adding from the left ends one unit in the
    last place away from it. *)
Lemma np_sum_eight :
  let x := S754_finite true 8106479329266893 (-54) in
  np_sum (replicate 8 x) = S754_finite true 8106479329266893 (-51)
  /\ foldl F64.add F64.zero (replicate 8 x) = S754_finite true 8106479329266894 (-51).
Proof. split; vm_compute; reflexivity. Qed.
End Summation.

(* ===================================================================== *)
(** ** The theorems at concrete inputs *)
(* ===================================================================== *)

Section Instances.
Local Open Scope Z_scope.





(** C4: the claim does not hold of the program. In the statement
    [file_missing_date] the second of two fees has no date. The reader
    keeps an empty field as the empty text, the sort compares it as a
    text, and the row without date is the first row of the sheet Detalhe
    Tarifas Pix, before the row dated 05/01/2024, where the claim, and
    the argument [na_position] of the sort, want it last. Nothing is
    raised. *)
Theorem detail_sheet_empty_date_first :
  @consolidate ascii_runtime [(py "a.csv", file_missing_date)] = Ok table_missing_date
  /\ map (cell_at 0) (rows table_missing_date) = [Str (py "05/01/2024"); Str []]
  /\ exists total_tarifa total_devol resumo s0 s1 s2,
       (@processamento ascii_runtime [(py "a.csv", file_missing_date)] []).1
       = Ok (0%nat, total_tarifa, total_devol, resumo, [s0; s1; s2])
       /\ sheet_name s2 = py "Detalhe Tarifas Pix"
       /\ sheet_header s2 = detail_columns
       /\ sheet_rows s2
          = [[Str (py "a.csv"); Str []; Str (py "Tarifa Operacoes Pix");
              Str []; Str []; Num (S754_finite false 5629499534213120 (-51)); Str []];
             [Str (py "a.csv"); Str (py "05/01/2024"); Str (py "Tarifa Operacoes Pix");
              Str []; Str []; Num (S754_finite false 6755399441055744 (-52)); Str []]].
Proof.
  split; [vm_compute; reflexivity|]. split; [reflexivity|].
  do 6 eexists. split; [vm_compute; reflexivity|].
  repeat split; vm_compute; reflexivity.
Qed.

Lemma table_dates_writable : writable_rows (rows table_dates).
Proof. apply Forall_forall. intros r Hr. apply Forall_forall. intros c Hc.
  unfold table_dates in Hr. cbn [rows] in Hr.
  repeat (apply elem_of_cons in Hr as [->|Hr];
          [cbn [snd] in Hc;
           repeat (apply elem_of_cons in Hc as [->|Hc]; [vm_compute; reflexivity|]);
           inversion Hc|]).
  inversion Hr.
Qed.

Lemma table_same_date_writable : writable_rows (rows table_same_date).
Proof. apply Forall_forall. intros r Hr. apply Forall_forall. intros c Hc.
  unfold table_same_date in Hr. cbn [rows] in Hr.
  repeat (apply elem_of_cons in Hr as [->|Hr];
          [cbn [snd] in Hc;
           repeat (apply elem_of_cons in Hc as [->|Hc]; [vm_compute; reflexivity|]);
           inversion Hc|]).
  inversion Hr.
Qed.

(** The workbook of a subset with a NaN date and of a subset with two
    rows of one date: it is returned, and its detail sheets are sorted. *)
Lemma detail_sheets_sorted_witness :
  exists s0 s1 s2 sd st,
    (to_excel_bytes F64.zero F64.zero 0%nat 1%nat [table_dates; table_same_date]).1
    = Ok [s0; s1; s2]
    /\ sd ≡ₚ rows table_dates /\ st ≡ₚ rows table_same_date
    /\ StronglySorted date_le (map (cell_at 0) sd)
    /\ StronglySorted date_le (map (cell_at 0) st)
    /\ sheet_rows s1 = map (detail_row table_dates) sd
    /\ sheet_rows s2 = map (detail_row table_same_date) st.
Proof.
  destruct (detail_sheets_sorted [table_dates; table_same_date] 0%nat 1%nat
              table_dates table_same_date 0%nat 0%nat F64.zero F64.zero)
    as (_ & Hwb & Hok).
  - reflexivity.
  - reflexivity.
  - discriminate.
  - vm_compute. reflexivity.
  - repeat constructor.
  - vm_compute. reflexivity.
  - repeat constructor.
  - destruct (Hok table_dates_writable table_same_date_writable) as [wb Hrun];
      [split; vm_compute; [reflexivity|discriminate]..|].
    destruct (Hwb wb Hrun) as (s0 & s1 & s2 & sd & st & -> & Hrest).
    exists s0, s1, s2, sd, st. split; [exact Hrun|exact Hrest].
Defined.

(** The consolidator on a regular statement and a file without header. *)
Lemma consolidate_concatenates_witness :
  traverse (fun f => @read_bs2_csv ascii_runtime f.2) files_two
    = Ok [table_regular; mkDF [] []]
  /\ filter nonempty (zip (map fst files_two) [table_regular; mkDF [] []])
     = [(py "a.csv", table_regular)]
  /\ @consolidate ascii_runtime files_two
     = Ok (mkDF (canonical_columns ++ [Arquivo])
             (imap (fun i r => (Pos i, r.2))
                (concat (map stamped_rows
                   (filter nonempty
                      (zip (map fst files_two) [table_regular; mkDF [] []])))))).
Proof.
  assert (traverse (fun f => @read_bs2_csv ascii_runtime f.2) files_two
          = Ok [table_regular; mkDF [] []]) as Hread by (vm_compute; reflexivity).
  split; [exact Hread|]. split; [vm_compute; reflexivity|].
  apply (proj2 (proj2 (@consolidate_concatenates ascii_runtime files_two)
                  [table_regular; mkDF [] []] Hread)).
  - vm_compute. discriminate.
  - vm_compute. repeat constructor.
Defined.

(** Classification and workbook on the table of [file_fee_suffix]. *)
Lemma classification_leaves_table_witness :
  let h := [table_fee_suffix] in
  let h1 := (@filter_and_totals ascii_runtime 0%nat h).2 in
  @filter_and_totals ascii_runtime 0%nat h = (Ok (2%nat, 4%nat, F64.of_Z 1, F64.zero), h1)
  /\ h1 !! 0%nat = h !! 0%nat
  /\ forall x y,
       take (length h) (to_excel_bytes x y 4%nat 2%nat h1).2 = h
       /\ (to_excel_bytes x y 4%nat 2%nat h1).2 !! 0%nat = h !! 0%nat.
Proof.
  intros h h1.
  assert (@filter_and_totals ascii_runtime 0%nat h
          = (Ok (2%nat, 4%nat, F64.of_Z 1, F64.zero), h1)) as Hrun
    by (vm_compute; reflexivity).
  split; [exact Hrun|].
  destruct (proj2 (@classification_leaves_table ascii_runtime h 0%nat) _ _ _ _ _ Hrun)
    as (_ & _ & _ & Hl & Hx).
  split; [exact Hl|exact Hx].
Defined.

(** The example of the claim, [-1.234,56], and a text of sixteen digits,
    [-90.071.992.547.409,91], whose digits write 2^53 - 1: each value is
    the binary64 nearest to the decimal number. *)
Lemma clean_val_leading_minus_witness :
  leading_minus_text [py "1"; py "234"] (py "56") = py "-1.234,56"
  /\ @clean_val ascii_runtime [Str (py "-1.234,56")]
     = [Num (F64.div (F64.opp (F64.of_Z 123456)) (F64.of_Z 100))]
  /\ F64.nearest (- 123456 # 100)
       (F64.div (F64.opp (F64.of_Z 123456)) (F64.of_Z 100)) = true
  /\ @clean_val ascii_runtime [Str (py "-90.071.992.547.409,91")]
     = [Num (F64.div (F64.opp (F64.of_Z 9007199254740991)) (F64.of_Z 100))]
  /\ F64.nearest (- 9007199254740991 # 100)
       (F64.div (F64.opp (F64.of_Z 9007199254740991)) (F64.of_Z 100)) = true.
Proof.
  split; [vm_compute; reflexivity|].
  split; [|split; [vm_compute; reflexivity|split; [|vm_compute; reflexivity]]].
  - refine (proj1 (proj2 (proj2 (@clean_val_leading_minus ascii_runtime
                                   [py "1"; py "234"] (py "56") _ _)) _ _ _)).
    + repeat constructor.
    + repeat constructor.
    + vm_compute. split; repeat constructor.
    + vm_compute. repeat constructor.
    + vm_compute. reflexivity.
  - refine (proj1 (proj2 (proj2 (@clean_val_leading_minus ascii_runtime
                                   [py "90"; py "071"; py "992"; py "547"; py "409"]
                                   (py "91") _ _)) _ _ _)).
    + repeat constructor.
    + repeat constructor.
    + vm_compute. split; repeat constructor.
    + vm_compute. repeat constructor.
    + vm_compute. reflexivity.
Defined.

(** A text of the same form whose value, minus ten to the power 309, is
    beyond the binary64 range: what is returned is not a finite number. *)
Lemma clean_val_leading_minus_overflow :
  text_huge = leading_minus_text (py "1" :: replicate 103 (py "000")) (py "00")
  /\ Forall all_digits (py "1" :: replicate 103 (py "000"))
  /\ all_digits (py "00")
  /\ exists x, @clean_val ascii_runtime [Str text_huge] = [Num x]
               /\ F64.is_finite x = false.
Proof.
  split; [vm_compute; reflexivity|]. split; [|split].
  - repeat constructor.
  - repeat constructor.
  - exists F64.nan. split; [|reflexivity].
    rewrite clean_val_map. vm_compute. reflexivity.
Qed.
End Instances.

(* ===================================================================== *)
(** ** Further properties of the session buttons *)
(* ===================================================================== *)

Section SessionMore.
Implicit Types session uploads : list (str * bytes).

(** X1: uploads none of whose keys is in the session when the button is
    pressed are all appended, in order, and counted, whether or not two of
    them share a key: the keys are not updated inside the loop. *)
Theorem add_files_all_new session uploads :
  Forall (fun f => file_key f ∉ existing_keys session) uploads ->
  add_files session uploads = (session ++ uploads, length uploads).
Proof.
  intros Hnew. rewrite add_files_filter.
  assert (filter (fun f => file_key f ∉ existing_keys session) uploads = uploads) as ->.
  { induction Hnew as [|f fs Hf Hfs IH]; [reflexivity|].
    rewrite filter_cons, decide_True by exact Hf. now rewrite IH. }
  reflexivity.
Qed.

(** X2: an upload with the name and the byte length of a file of the
    session is not added, whatever its content. *)
Theorem add_files_same_key session name (old new : bytes) :
  (name, old) ∈ session -> length new = length old ->
  add_files session [(name, new)] = (session, 0%nat).
Proof.
  intros Hin Hlen. rewrite add_files_filter.
  assert (filter (fun f => file_key f ∉ existing_keys session) [(name, new)] = []) as ->.
  { apply filter_none. intros f Hf%list_elem_of_singleton Hk. subst f. apply Hk.
    apply elem_of_existing_keys. exists (name, old). split; [exact Hin|].
    unfold file_key. cbn [fst snd]. now rewrite Hlen. }
  rewrite app_nil_r. reflexivity.
Qed.

(** X3: the button never removes or reorders what the session holds, and
    the number it reports is the number of entries it appended. *)
Theorem add_files_extends session uploads :
  session `prefix_of` (add_files session uploads).1
  /\ length (add_files session uploads).1
     = (length session + (add_files session uploads).2)%nat
  /\ ((add_files session uploads).2 <= length uploads)%nat
  /\ Forall (fun f => f ∈ session \/ f ∈ uploads) (add_files session uploads).1.
Proof.
  rewrite add_files_filter. cbn [fst snd]. split; [|split; [|split]].
  - eexists. reflexivity.
  - apply length_app.
  - apply length_filter.
  - apply Forall_forall. intros f [Hf|Hf]%elem_of_app; [left; exact Hf|right].
    apply list_elem_of_filter in Hf. apply Hf.
Qed.
End SessionMore.

(* ===================================================================== *)
(** ** Encoding detection and the header line *)
(* ===================================================================== *)

Section Encoding.
Context `{!Runtime}.

(** X4: a byte-order mark decides the encoding without asking the
    detector; otherwise a missing or empty guess is read as utf-8, a guess
    that is a spelling of Latin-1 comes back as latin1, and the two other
    spellings of Latin-1 are never returned. *)
Theorem detect_encoding_cases (b : bytes) :
  (bytes_startswith [Byte.xef; Byte.xbb; Byte.xbf] b = true ->
     detect_encoding b = py "utf-8-sig")
  /\ (bytes_startswith [Byte.xef; Byte.xbb; Byte.xbf] b = false ->
      (chardet_detect b = None \/ chardet_detect b = Some []) ->
      lower (py "utf-8") = py "utf-8" ->
      detect_encoding b = py "utf-8")
  /\ (forall e, bytes_startswith [Byte.xef; Byte.xbb; Byte.xbf] b = false ->
        chardet_detect b = Some e -> e <> [] ->
        lower e ∈ [py "iso-8859-1"; py "latin-1"; py "latin1"] ->
        detect_encoding b = py "latin1")
  /\ detect_encoding b <> py "iso-8859-1"
  /\ detect_encoding b <> py "latin-1".
Proof.
  unfold detect_encoding. split; [|split; [|split]].
  - intros ->. reflexivity.
  - intros -> Hg Hl. destruct Hg as [-> | ->]; cbv beta iota zeta; rewrite Hl; reflexivity.
  - intros e -> -> Hne He. destruct e as [|c e]; [contradiction|].
    rewrite bool_decide_true by exact He. reflexivity.
  - destruct (bytes_startswith _ b); [split; discriminate|].
    set (enc := lower _).
    destruct (bool_decide_reflect (enc ∈ [py "iso-8859-1"; py "latin-1"; py "latin1"]))
      as [_|Hn]; [split; discriminate|].
    split; intros Heq; apply Hn; rewrite Heq.
    + apply list_elem_of_here.
    + apply list_elem_of_further, list_elem_of_here.
Qed.

(** The least index of a line that, stripped and lower-cased, starts with
    [data;], counted from [i]. *)
Lemma find_header_from i lines :
  match find_header i lines with
  | Some k =>
      exists j line, k = (i + j)%nat /\ lines !! j = Some line
        /\ startswith (py "data;") (lower (strip line)) = true
        /\ Forall (fun l => startswith (py "data;") (lower (strip l)) = false)
             (take j lines)
  | None =>
      Forall (fun l => startswith (py "data;") (lower (strip l)) = false) lines
  end.
Proof.
  revert i. induction lines as [|line rest IH]; intros i; [constructor|].
  cbn [find_header].
  destruct (startswith (py "data;") (lower (strip line))) eqn:Hl.
  - exists 0%nat, line. rewrite Nat.add_0_r. repeat split; [exact Hl|constructor].
  - specialize (IH (S i)). destruct (find_header (S i) rest) as [k|].
    + destruct IH as (j & l & -> & Hj & Hs & Hbefore).
      exists (S j), l. split; [lia|]. split; [exact Hj|]. split; [exact Hs|].
      cbn [take]. constructor; assumption.
    + constructor; assumption.
Qed.

(** X5: the header is the first line that, stripped and lower-cased,
    starts with [data;]: every line before it fails the test, and no
    header is found exactly when every line fails it. *)
Theorem find_header_first (lines : list str) :
  (forall k, find_header 0 lines = Some k ->
     exists line, lines !! k = Some line
       /\ startswith (py "data;") (lower (strip line)) = true
       /\ Forall (fun l => startswith (py "data;") (lower (strip l)) = false)
            (take k lines))
  /\ (find_header 0 lines = None <->
      Forall (fun l => startswith (py "data;") (lower (strip l)) = false) lines).
Proof.
  pose proof (find_header_from 0 lines) as H0. split.
  - intros k Hk. rewrite Hk in H0. destruct H0 as (j & line & -> & Hj & Hs & Hb).
    exists line. auto.
  - split.
    + intros Hn. rewrite Hn in H0. exact H0.
    + intros Hall. destruct (find_header 0 lines) as [k|]; [|reflexivity].
      destruct H0 as (j & line & _ & Hj & Hs & _).
      rewrite Forall_forall in Hall.
      rewrite (Hall line) in Hs; [discriminate|].
      eapply list_elem_of_lookup_2, Hj.
Qed.
End Encoding.

(* ===================================================================== *)
(** ** Files the reader gives nothing for, and files it fails on *)
(* ===================================================================== *)

Section ReaderOutcomes.
Context `{!Runtime}.

Lemma read_bs2_csv_no_header (b : bytes) text :
  decode (detect_encoding b) b = Ok text ->
  find_header 0 (splitlines text) = None ->
  read_bs2_csv b = Ok no_frame.
Proof.
  intros Hd Hh. unfold read_bs2_csv. rewrite Hd. unfold mbind, result_bind.
  rewrite Hh. reflexivity.
Qed.

Lemma traverse_raise {A B} (f : A -> result B) (l1 : list A) a (l2 : list A) e :
  Forall (fun x => exists y, f x = Ok y) l1 -> f a = Raise e ->
  traverse f (l1 ++ a :: l2) = Raise e.
Proof.
  intros Hl1 Ha. induction Hl1 as [|x l1 [y Hy] _ IH].
  - cbn [app traverse]. rewrite Ha. reflexivity.
  - cbn [app traverse]. rewrite Hy. unfold mbind, result_bind in *. rewrite IH.
    reflexivity.
Qed.

(** X6: a file whose decoded text has no header line gives the table
    without columns, and a list of such files consolidates to the empty
    table with the eight columns. *)
Theorem consolidate_no_header (files : list (str * bytes)) :
  Forall (fun f => exists text,
            decode (detect_encoding f.2) f.2 = Ok text
            /\ find_header 0 (splitlines text) = None) files ->
  Forall (fun f => read_bs2_csv f.2 = Ok no_frame) files
  /\ consolidate files
     = Ok (empty_with [Arquivo; Data; Tipo; Detalhe; Identificador; Valor;
                       Observacao; Valor_raw]).
Proof.
  intros Hfiles.
  assert (Forall (fun f => read_bs2_csv f.2 = Ok no_frame) files) as Hread.
  { eapply Forall_impl; [exact Hfiles|]. intros f (text & Hd & Hh).
    exact (read_bs2_csv_no_header f.2 text Hd Hh). }
  split; [exact Hread|].
  unfold consolidate. rewrite consolidate_loop.
  rewrite (traverse_ok _ (fun _ => no_frame) files Hread).
  unfold mbind, result_bind. rewrite app_nil_l.
  assert (filter nonempty (zip (map fst files) (map (fun _ => no_frame) files)) = [])
    as ->; [|reflexivity].
  apply filter_none. intros [n d] Hnd Hne.
  apply elem_of_zip_r in Hnd. change (map ?f ?l) with (f <$> l) in Hnd.
  apply list_elem_of_fmap in Hnd as (f & Hf & _).
  unfold nonempty in Hne. cbn [snd] in Hne. rewrite Hf in Hne. discriminate.
Qed.

(** X7: the first file the reader fails on makes the consolidation fail
    with that file's exception, whatever the files after it hold. *)
Theorem consolidate_raises (before : list (str * bytes)) f after e :
  Forall (fun g => exists d, read_bs2_csv g.2 = Ok d) before ->
  read_bs2_csv f.2 = Raise e ->
  consolidate (before ++ f :: after) = Raise e.
Proof.
  intros Hb Hf. unfold consolidate. rewrite consolidate_loop.
  rewrite (traverse_raise (fun f => read_bs2_csv f.2) before f after e Hb Hf).
  reflexivity.
Qed.
End ReaderOutcomes.

(* ===================================================================== *)
(** ** The classifier on tables that lack a column *)
(* ===================================================================== *)

Section MissingColumns.
Context `{!Runtime}.

Lemma get_series_absent d c : positions c d = [] -> get_series d c = Raise KeyError.
Proof. intros Hp. unfold get_series, getitem. rewrite Hp. reflexivity. Qed.

Lemma total_pure_no_valor cols (rs : list row) :
  positions_from 0 Valor cols = [] -> cols <> [] ->
  total_pure (mkDF cols rs)
  = match rs with [] => Ok F64.zero | _ => Raise KeyError end.
Proof.
  intros Hp Hc. unfold total_pure, empty. cbn [columns rows].
  destruct cols as [|c cols]; [contradiction|].
  destruct rs as [|r rs]; [reflexivity|]. cbn [negb].
  rewrite get_series_absent by exact Hp. reflexivity.
Qed.

(** X8: on a table with rows but no Tipo column the classifier raises
    KeyError and allocates nothing. On a table with a Tipo column and no
    Valor column it returns zero totals when no row is a fee or a refund,
    and raises KeyError as soon as one row is: the Valor column is only
    looked up for a subset that has rows. *)
Theorem filter_and_totals_missing_columns (h : heap) (l : loc) (d : DataFrame) :
  h !! l = Some d -> empty d = false ->
  (positions Tipo d = [] -> filter_and_totals l h = (Raise KeyError, h))
  /\ (forall i, positions Tipo d = [i] -> positions Valor d = [] ->
        let fees := filter (matches tarifa_label i) (rows d) in
        let refunds := filter (matches devol_label i) (rows d) in
        (fees = [] -> refunds = [] ->
           (filter_and_totals l h).1
           = Ok (S (length h), S (S (S (length h))), F64.zero, F64.zero))
        /\ (fees <> [] \/ refunds <> [] ->
            (filter_and_totals l h).1 = Raise KeyError)).
Proof.
  intros Hl He. rewrite (filter_and_totals_run h l d Hl), He. split.
  - intros Hp. rewrite get_series_absent by exact Hp. reflexivity.
  - intros i Hi Hv fees refunds.
    rewrite (get_series_unique d Tipo i Hi), !getmask_type_mask.
    fold fees refunds. cbv zeta.
    assert (columns d <> []) as Hc.
    { unfold positions in Hi. destruct (columns d); [discriminate Hi|discriminate]. }
    rewrite !total_pure_no_valor by assumption. split.
    + intros -> ->. reflexivity.
    + intros Hne. destruct fees as [|f fs]; [|reflexivity].
      destruct refunds as [|r rs]; [|reflexivity].
      destruct Hne as [Hne|Hne]; contradiction.
Qed.
End MissingColumns.

(* ===================================================================== *)
(** ** The workbook: its sheets, and what writing it does to the subsets *)
(* ===================================================================== *)

Section Workbook.

(** One detail sheet, case by case. *)
Lemma detail_sheet_eq (h : heap) sub d name :
  h !! sub = Some d ->
  detail_sheet sub name h
  = if empty d then (to_excel (empty_with detail_columns) name, h)
    else match sort_values d Data with
         | Raise e => (Raise e, h)
         | Ok sd =>
           (s ← select sd (filter (fun c => c ∈ columns d) detail_columns);
            to_excel s name, <[sub := sd]> h)
         end.
Proof.
  intros Hsub. unfold detail_sheet.
  rewrite run_bind, (load_run h sub d Hsub). cbv beta iota.
  destruct (empty d); unfold negb; cbv iota; [reflexivity|].
  rewrite run_bind. unfold sort_values_inplace.
  rewrite run_bind, (load_run h sub d Hsub). cbv beta iota.
  rewrite run_bind. unfold lift at 1.
  destruct (sort_values d Data) as [sd|e]; cbv beta iota; [|reflexivity].
  unfold store. cbv beta iota.
  rewrite run_bind, (load_run (<[sub:=sd]> h) sub sd)
    by (apply list_lookup_insert_eq, lookup_lt_is_Some; eauto).
  cbv beta iota. rewrite run_bind. unfold lift.
  destruct (select sd _) as [s|e]; reflexivity.
Qed.

Lemma detail_sheet_missing (h : heap) sub name :
  h !! sub = None -> detail_sheet sub name h = (Raise LookupError, h).
Proof.
  intros Hsub. unfold detail_sheet. rewrite run_bind. unfold load. rewrite Hsub.
  reflexivity.
Qed.

Lemma to_excel_name df name s : to_excel df name = Ok s -> sheet_name s = name.
Proof.
  destruct (to_excel_outcome df name) as [-> | [e ->]]; [|discriminate].
  intros [= <-]. reflexivity.
Qed.

Lemma detail_sheet_name (h : heap) sub name s h' :
  detail_sheet sub name h = (Ok s, h') -> sheet_name s = name.
Proof.
  destruct (h !! sub) as [d|] eqn:Hsub.
  - rewrite (detail_sheet_eq h sub d name Hsub).
    destruct (empty d).
    + intros [= <- _]. reflexivity.
    + destruct (sort_values d Data) as [sd|e]; [|discriminate].
      destruct (select sd _) as [t|e]; [|discriminate].
      intros [= Hs _]. eapply to_excel_name, Hs.
  - rewrite (detail_sheet_missing h sub name Hsub). discriminate.
Qed.

Lemma to_excel_bytes_run x y devol tarifa (h : heap) :
  to_excel_bytes x y devol tarifa h
  = match detail_sheet devol (py "Devolução Recebida Pix") h with
    | (Ok s1, h1) =>
      match detail_sheet tarifa (py "Detalhe Tarifas Pix") h1 with
      | (Ok s2, h2) =>
        (Ok [mkSheet (py "Resumo Tarifa Pix") [py "Transação"; py "Valor Total (R$)"]
               [[Str (py "Total Tarifa Operações Pix"); Num (round2 x)];
                [Str (py "Total Devolução Recebida Pix"); Num (round2 y)]];
             s1; s2], h2)
      | (Raise e, h2) => (Raise e, h2)
      end
    | (Raise e, h1) => (Raise e, h1)
    end.
Proof.
  unfold to_excel_bytes. rewrite run_bind. unfold lift at 1.
  assert (to_excel
            (mkDF [py "Transação"; py "Valor Total (R$)"]
               [(Pos 0, [Str (py "Total Tarifa Operações Pix"); Num (round2 x)]);
                (Pos 1, [Str (py "Total Devolução Recebida Pix"); Num (round2 y)])])
            (py "Resumo Tarifa Pix")
          = Ok (mkSheet (py "Resumo Tarifa Pix") [py "Transação"; py "Valor Total (R$)"]
               [[Str (py "Total Tarifa Operações Pix"); Num (round2 x)];
                [Str (py "Total Devolução Recebida Pix"); Num (round2 y)]])) as ->
    by (unfold to_excel; reflexivity).
  cbv beta iota. rewrite run_bind.
  destruct (detail_sheet devol _ h) as [[s1|e] h1]; cbv beta iota; [|reflexivity].
  rewrite run_bind.
  destruct (detail_sheet tarifa _ h1) as [[s2|e] h2]; reflexivity.
Qed.

(** X9: a workbook that is written has exactly three sheets, named Resumo
    Tarifa Pix, Devolução Recebida Pix and Detalhe Tarifas Pix in that
    order; the first holds the two totals rounded to two decimals, and a
    subset without rows gives a sheet with the seven detail headers and no
    row. *)
Theorem to_excel_bytes_sheets x y devol tarifa (h : heap) wb :
  (to_excel_bytes x y devol tarifa h).1 = Ok wb ->
  exists s1 s2,
    wb = [mkSheet (py "Resumo Tarifa Pix") [py "Transação"; py "Valor Total (R$)"]
            [[Str (py "Total Tarifa Operações Pix"); Num (round2 x)];
             [Str (py "Total Devolução Recebida Pix"); Num (round2 y)]];
          s1; s2]
    /\ sheet_name s1 = py "Devolução Recebida Pix"
    /\ sheet_name s2 = py "Detalhe Tarifas Pix"
    /\ (forall d, h !! devol = Some d -> empty d = true ->
          sheet_header s1 = detail_columns /\ sheet_rows s1 = [])
    /\ (forall t, h !! tarifa = Some t -> empty t = true ->
          sheet_header s2 = detail_columns /\ sheet_rows s2 = []).
Proof.
  rewrite to_excel_bytes_run.
  destruct (detail_sheet devol _ h) as [[s1|e] h1] eqn:H1; [|discriminate].
  destruct (detail_sheet tarifa _ h1) as [[s2|e] h2] eqn:H2; [|discriminate].
  cbn [fst]. intros [= <-]. exists s1, s2.
  split; [reflexivity|].
  split; [exact (detail_sheet_name _ _ _ _ _ H1)|].
  split; [exact (detail_sheet_name _ _ _ _ _ H2)|].
  assert (forall (k : heap) sub name d s k',
            k !! sub = Some d -> empty d = true ->
            detail_sheet sub name k = (Ok s, k') ->
            k' = k /\ sheet_header s = detail_columns /\ sheet_rows s = []) as Hempty.
  { intros k sub name d s k' Hk He Hrun.
    rewrite (detail_sheet_eq k sub d name Hk), He in Hrun.
    injection Hrun as <- <-. repeat split. }
  split.
  - intros d Hd He. apply (Hempty h devol _ d s1 h1 Hd He H1).
  - intros t Ht He.
    assert (h1 !! tarifa = Some t) as Ht1.
    { destruct (h !! devol) as [d|] eqn:Hd.
      - rewrite (detail_sheet_eq h devol d _ Hd) in H1.
        destruct (empty d) eqn:Hed.
        + injection H1 as _ <-. exact Ht.
        + destruct (sort_values d Data) as [sd|e]; [|discriminate].
          injection H1 as _ <-.
          destruct (decide (devol = tarifa)) as [->|Hne].
          * rewrite Ht in Hd. injection Hd as ->. rewrite He in Hed. discriminate.
          * rewrite list_lookup_insert_ne by exact Hne. exact Ht.
      - rewrite (detail_sheet_missing h devol _ Hd) in H1. discriminate. }
    apply (Hempty h1 tarifa _ t s2 h2 Ht1 He H2).
Qed.

(** X10: writing the workbook sorts the two subsets in place. For two
    distinct subsets with rows whose Date columns hold text or NaN, a
    successful call leaves the store with each subset replaced by a table
    of the same columns that holds its rows in ascending order of Date,
    NaN last, and nothing else changed; and the first subset is replaced
    in that way also when the writer refuses a sheet. *)
Theorem to_excel_bytes_sorts_in_place x y devol tarifa (h : heap) d t i j :
  h !! devol = Some d -> h !! tarifa = Some t -> devol <> tarifa ->
  empty d = false -> empty t = false ->
  positions Data d = [i] ->
  Forall (fun r => text_or_missing (cell_at i r)) (rows d) ->
  positions Data t = [j] ->
  Forall (fun r => text_or_missing (cell_at j r)) (rows t) ->
  (forall wb h', to_excel_bytes x y devol tarifa h = (Ok wb, h') ->
     exists sd st,
       sorted_by_date i d sd /\ sorted_by_date j t st
       /\ h' = <[tarifa := st]> (<[devol := sd]> h))
  /\ (exists sd,
        sorted_by_date i d sd
        /\ (to_excel_bytes x y devol tarifa h).2 !! devol = Some sd).
Proof.
  intros Hd Ht Hne Hed Het Hi Htd Hj Htt.
  destruct (sort_values_sorted d i Hi Htd) as (sd & Hsd & Hcd & Hpd & Hsortd).
  destruct (sort_values_sorted t j Hj Htt) as (st & Hst & Hct & Hpt & Hsortt).
  assert ((<[devol := sd]> h) !! tarifa = Some t) as Ht1.
  { rewrite list_lookup_insert_ne by exact Hne. exact Ht. }
  assert ((<[devol := sd]> h) !! devol = Some sd) as Hd1.
  { apply list_lookup_insert_eq, lookup_lt_is_Some. eauto. }
  rewrite to_excel_bytes_run, (detail_sheet_eq h devol d _ Hd), Hed, Hsd. split.
  - intros wb h'.
    destruct (_ ≫= _) as [s1|e]; [|discriminate].
    rewrite (detail_sheet_eq _ tarifa t _ Ht1), Het, Hst.
    destruct (_ ≫= _) as [s2|e]; [|discriminate].
    intros [= _ <-]. exists sd, st. repeat split; assumption.
  - exists sd. split; [repeat split; assumption|].
    destruct (_ ≫= _) as [s1|e]; cbn [snd]; [|exact Hd1].
    rewrite (detail_sheet_eq _ tarifa t _ Ht1), Het, Hst.
    destruct (_ ≫= _) as [s2|e]; cbn [snd];
      (rewrite list_lookup_insert_ne by (intros Heq; apply Hne; now rewrite Heq));
      exact Hd1.
Qed.
End Workbook.

Section DetailColumns.

Lemma sort_values_columns d c sd : sort_values d c = Ok sd -> columns sd = columns d.
Proof.
  unfold sort_values. destruct (positions c d) as [|i [|j ps]]; try discriminate.
  destruct (sort_rows _) as [s|e]; [|discriminate]. intros [= <-]. reflexivity.
Qed.

(** X11: for a subset with the eight columns of the consolidated table,
    at least one row and text or NaN as dates, a detail sheet that is
    written has the seven headers Arquivo, Data, Tipo, Detalhe,
    Identificador, Valor, Observação; its rows are the rows of the
    subset in ascending order of Date, NaN last, each with the file name
    moved first and Valor_raw left out; and the subset is left in that
    order in the store. *)
Theorem detail_sheet_exported (h : heap) sub d name s h' :
  h !! sub = Some d ->
  columns d = canonical_columns ++ [Arquivo] -> rows d <> [] ->
  Forall (fun r => text_or_missing (cell_at 0 r)) (rows d) ->
  detail_sheet sub name h = (Ok s, h') ->
  exists sd,
    sorted_by_date 0 d sd
    /\ h' = <[sub := sd]> h
    /\ sheet_header s = detail_columns
    /\ sheet_rows s
       = map (fun r => [cell_at 7 r; cell_at 0 r; cell_at 1 r; cell_at 2 r;
                        cell_at 3 r; cell_at 4 r; cell_at 5 r]) (rows sd).
Proof.
  intros Hsub Hcols Hrows Htext. rewrite (detail_sheet_eq h sub d name Hsub).
  assert (empty d = false) as ->.
  { unfold empty. rewrite Hcols. destruct (rows d); [contradiction|reflexivity]. }
  destruct (sort_values_sorted d 0) as (sd & Hsort & Hsd & Hperm & Hsorted);
    [unfold positions; rewrite Hcols; vm_compute; reflexivity|exact Htext|].
  rewrite Hsort.
  assert (sorted_by_date 0 d sd) as Hby by (repeat split; assumption).
  clear Hperm Hsorted Hsort.
  rewrite Hcols in *. destruct sd as [cs rs]. cbn [columns] in Hsd. subst cs.
  assert (select (mkDF (canonical_columns ++ [Arquivo]) rs)
            (filter (fun c => c ∈ canonical_columns ++ [Arquivo]) detail_columns)
          = Ok (mkDF detail_columns (map (project [7; 0; 1; 2; 3; 4; 5]%nat) rs))) as ->
    by (vm_compute; reflexivity).
  unfold mbind, result_bind.
  destruct (to_excel_outcome
              (mkDF detail_columns (map (project [7; 0; 1; 2; 3; 4; 5]%nat) rs)) name)
    as [-> | [e ->]]; [|discriminate].
  intros [= <- <-]. exists (mkDF (canonical_columns ++ [Arquivo]) rs).
  split; [exact Hby|]. split; [reflexivity|]. split; [reflexivity|].
  cbn [sheet_rows rows]. rewrite map_map. reflexivity.
Qed.
End DetailColumns.

(* ===================================================================== *)
(** ** The numeric parser on further shapes of text *)
(* ===================================================================== *)

Section SignForms.
Context `{!Runtime}.

Lemma in_number_class_differs c0 s :
  in_number_class c0 = false ->
  Forall (fun c => in_number_class c = true) s -> Forall (fun c => c <> c0) s.
Proof.
  intros H0 Hs. eapply Forall_impl; [exact Hs|]. intros c Hc ->. congruence.
Qed.

Lemma span_number_minus body :
  Forall (fun c => in_number_class c = true) body ->
  span_number (body ++ [45%N]) = (body, [45%N]).
Proof.
  induction 1 as [|c s Hc Hs IH]; [reflexivity|].
  cbn [app span_number]. rewrite Hc, IH. reflexivity.
Qed.

Lemma sub_trailing_minus_moves body :
  body <> [] -> Forall (fun c => in_number_class c = true) body ->
  sub_trailing_minus (body ++ [45%N]) = 45%N :: body.
Proof.
  intros Hne Hb. unfold sub_trailing_minus. rewrite span_number_minus by exact Hb.
  destruct body as [|c body]; [contradiction|].
  cbn [bool_decide]. rewrite bool_decide_true by reflexivity. cbn [orb].
  rewrite app_nil_r. reflexivity.
Qed.

(** X12: a minus sign after a non-empty run of digits, periods and commas
    is read exactly as the same sign before the run: the two texts give
    the same parsed value. *)
Theorem clean_val_trailing_minus (body : str) :
  body <> [] -> Forall (fun c => in_number_class c = true) body ->
  sub_trailing_minus (body ++ py "-") = py "-" ++ body
  /\ clean_val [Str (body ++ py "-")] = clean_val [Str (py "-" ++ body)].
Proof.
  intros Hne Hb. change (py "-") with [45%N].
  split; [apply sub_trailing_minus_moves; assumption|].
  rewrite !clean_val_map. cbn [map to_str]. do 2 f_equal. f_equal.
  unfold clean_text. change (py " ") with [32%N]. change (py "R$") with [82%N; 36%N].
  assert (forall c0, in_number_class c0 = false -> c0 <> 45%N ->
            Forall (fun c => c <> c0) (body ++ [45%N])
            /\ Forall (fun c => c <> c0) ([45%N] ++ body)) as Hkeep.
  { intros c0 H0 H45. pose proof (in_number_class_differs c0 body H0 Hb) as Hd.
    split; apply Forall_app; split; try exact Hd; repeat constructor; congruence. }
  rewrite !(replace_absent 160%N) by (apply Hkeep; [reflexivity|discriminate]).
  rewrite !(replace_absent 82%N) by (apply Hkeep; [reflexivity|discriminate]).
  rewrite !(replace_absent 32%N) by (apply Hkeep; [reflexivity|discriminate]).
  rewrite !(replace_absent 8722%N) by (apply Hkeep; [reflexivity|discriminate]).
  rewrite sub_trailing_minus_moves by assumption.
  assert (sub_trailing_minus ([45%N] ++ body) = 45%N :: body) as -> by reflexivity.
  reflexivity.
Qed.
End SignForms.

Section UnsignedNumbers.
Local Open Scope Z_scope.

(** Dividing a natural number below 2^53 by one is exact. *)
Lemma div_one_exact p :
  (ndigits p <= 53)%nat ->
  F64.div (F64.of_Z (Z.pos p)) (F64.of_Z 1) = F64.of_Z (Z.pos p).
Proof.
  intros Hp. pose proof (ndigits_pos p) as Hpos.
  rewrite of_Z_pos by exact Hp.
  change (F64.of_Z 1) with (S754_finite false 4503599627370496 (-52)).
  set (n := ndigits p) in *. set (m1 := shl p (53 - n)).
  assert (ndigits m1 = 53%nat) as Hm1 by (unfold m1; rewrite ndigits_shl; lia).
  unfold F64.div, SFdiv. change (xorb false false) with false.
  assert (SFdiv_core_binary F64.prec F64.emax (Z.pos m1) (Z.of_nat n - 53)
            4503599627370496 (-52)
          = (Z.pos (shl m1 1), Z.of_nat n - 54, loc_Exact)) as ->.
  { unfold SFdiv_core_binary. rewrite Zdigits2_pos, Hm1.
    change (Zdigits2 4503599627370496) with 53.
    change F64.prec with 53. change F64.emax with 1024.
    replace (Z.of_nat 53 + (Z.of_nat n - 53) - (53 + -52)) with (Z.of_nat n - 1) by lia.
    rewrite fexp_normal by lia.
    replace (Z.min (Z.of_nat n - 1 - 53) (Z.of_nat n - 53 - -52))
      with (Z.of_nat n - 54) by lia.
    replace (Z.of_nat n - 53 - -52 - (Z.of_nat n - 54)) with 53 by lia.
    cbv beta iota zeta.
    assert (Z.shiftl (Z.pos m1) 53 = 4503599627370496 * Z.pos (shl m1 1)) as Hsh.
    { rewrite Z.shiftl_mul_pow2 by lia. rewrite (shl_value m1 1).
      change (2 ^ Z.of_nat 1) with 2. change (2 ^ 53) with (4503599627370496 * 2). lia. }
    rewrite Hsh.
    destruct (Z.div_eucl (4503599627370496 * Z.pos (shl m1 1)) 4503599627370496)
      as [q r] eqn:Hdiv.
    assert (q = Z.pos (shl m1 1)) as ->.
    { transitivity ((4503599627370496 * Z.pos (shl m1 1)) / 4503599627370496).
      - unfold Z.div. rewrite Hdiv. reflexivity.
      - rewrite Z.mul_comm. apply Z.div_mul. discriminate. }
    assert (r = 0) as ->.
    { transitivity ((4503599627370496 * Z.pos (shl m1 1)) mod 4503599627370496).
      - unfold Z.modulo. rewrite Hdiv. reflexivity.
      - rewrite Z.mul_comm. apply Z.mod_mul. discriminate. }
    reflexivity. }
  unfold m1. rewrite shl_shl.
  change F64.prec with 53. change F64.emax with 1024.
  rewrite binary_round_aux_exact by (fold n; lia).
  fold n. f_equal. lia.
Qed.

Lemma div_one_natural n :
  0 <= n < 2 ^ 53 -> F64.div (F64.of_Z n) (e10 0) = F64.of_Z n.
Proof.
  intros Hn. change (e10 0) with (F64.of_Z 1). destruct n as [|p|p]; [reflexivity| |lia].
  apply div_one_exact, ndigits_le. lia.
Qed.

(** The quotient of a natural number below 2^53 by a power of ten up to
    10^15 is finite and carries no minus sign. *)
Lemma div_pow10_positive n k :
  0 <= n < 2 ^ 53 -> 0 <= k <= 15 ->
  F64.is_finite (F64.div (F64.of_Z n) (e10 k)) = true
  /\ F64.is_neg (F64.div (F64.of_Z n) (e10 k)) = false.
Proof.
  intros Hn Hk. unfold e10.
  assert (0 < 10 ^ k < 2 ^ 53) as Hp.
  { split; [apply Z.pow_pos_nonneg; lia|].
    eapply Z.le_lt_trans; [apply (Z.pow_le_mono_r 10 k 15); lia|].
    vm_compute. reflexivity. }
  destruct (10 ^ k) as [|q|q] eqn:Hq; [lia| |lia].
  assert (ndigits q <= 53)%nat as Hdq by (apply ndigits_le; exact (proj2 Hp)).
  destruct n as [|p|p]; [| |lia].
  - destruct (of_Z_finite_form q Hdq) as (m & e & ->). split; reflexivity.
  - apply (div_finite false p q); [apply ndigits_le; lia|exact Hdq].
Qed.

(** A text that starts with a digit carries no sign. *)
Lemma sign_of_digit (c : N) (p : str) :
  isdigit_ascii c = true ->
  match c :: p with
  | 45%N :: p' => (true, p')
  | 43%N :: p' => (false, p')
  | _ => (false, c :: p)
  end = (false, c :: p).
Proof.
  intros Hc.
  assert (c = 48 \/ c = 49 \/ c = 50 \/ c = 51 \/ c = 52 \/ c = 53 \/ c = 54
          \/ c = 55 \/ c = 56 \/ c = 57)%N as Hcases.
  { unfold isdigit_ascii in Hc. apply andb_true_iff in Hc as [H1 H2].
    apply N.leb_le in H1, H2. lia. }
  repeat (destruct Hcases as [-> | Hcases]; [reflexivity|]). subst c. reflexivity.
Qed.

Lemma digit_not_space c : isdigit_ascii c = true -> isspace_ascii c = false.
Proof.
  unfold isdigit_ascii, isspace_ascii. rewrite andb_true_iff, !N.leb_le.
  intros [H1 H2].
  destruct (N.eqb_spec c 32); [lia|].
  destruct (N.leb_spec 9 c); destruct (N.leb_spec c 13); try reflexivity. lia.
Qed.

Lemma scan_int_all ds x nd e :
  all_digits ds -> (nd + length ds <= max_digits)%nat ->
  scan_int ds x nd e = (foldl push_digit x ds, (nd + length ds)%nat, e, []).
Proof.
  intros Hds. revert x nd.
  induction Hds as [|d ds Hd Hds IH]; intros x nd Hlen.
  - cbn [scan_int foldl length]. rewrite Nat.add_0_r. reflexivity.
  - cbn [scan_int foldl length] in *. rewrite Hd.
    replace (nd <? max_digits)%nat with true
      by (symmetry; apply Nat.ltb_lt; lia).
    replace (nd + S (length ds))%nat with (S nd + length ds)%nat by lia.
    apply IH. lia.
Qed.

(** [precise_xstrtod] on digits, a decimal point and digits. *)
Lemma precise_xstrtod_unsigned ip fp :
  all_digits ip -> all_digits fp ->
  (0 < length ip + length fp <= 15)%nat ->
  precise_xstrtod (ip ++ 46%N :: fp)
  = Some (F64.div (F64.of_Z (digits_value (ip ++ fp)))
            (e10 (Z.of_nat (length fp))), [], false).
Proof.
  intros Hip Hfp Hlen. unfold precise_xstrtod.
  assert (skip_space (ip ++ 46%N :: fp) = ip ++ 46%N :: fp) as ->.
  { destruct Hip as [|c ip Hc _]; [reflexivity|].
    cbn [app skip_space]. rewrite (digit_not_space c Hc). reflexivity. }
  assert (match ip ++ 46%N :: fp with
          | 45%N :: p' => (true, p')
          | 43%N :: p' => (false, p')
          | _ => (false, ip ++ 46%N :: fp)
          end = (false, ip ++ 46%N :: fp)) as ->.
  { destruct Hip as [|c ip Hc _]; [reflexivity|].
    cbn [app]. apply sign_of_digit, Hc. }
  cbv beta iota zeta.
  rewrite (scan_int_digits ip 46%N fp)
    by (try reflexivity; try assumption; unfold max_digits; lia).
  cbv beta iota zeta.
  rewrite (scan_frac_digits fp) by (try assumption; unfold max_digits; lia).
  cbv beta iota zeta. rewrite <- foldl_push_app.
  change F64.zero with (F64.of_Z 0).
  assert (all_digits (ip ++ fp)) as Hall by (apply Forall_app; split; assumption).
  assert (length (ip ++ fp) <= 15)%nat as Hl15 by (rewrite length_app; lia).
  pose proof (digits_value_small _ Hall Hl15) as Hsmall.
  rewrite accumulate_exact by (try lia; try assumption; apply Hsmall).
  fold (digits_value (ip ++ fp)).
  replace ((0 + length ip + length fp =? 0)%nat) with false
    by (symmetry; apply Nat.eqb_neq; lia).
  assert ((if (max_digits <=? 0 + length ip + length fp)%nat
           then skip_digits [] else []) = @nil N) as -> by (destruct (_ <=? _)%nat; reflexivity).
  cbv beta iota zeta.
  replace (308 <? 0 - (0 + Z.of_nat (length fp))) with false
    by (symmetry; apply Z.ltb_ge; lia).
  unfold scale.
  replace (0 <? 0 - (0 + Z.of_nat (length fp))) with false
    by (symmetry; apply Z.ltb_ge; lia).
  replace (0 - (0 + Z.of_nat (length fp)) <? -308) with false
    by (symmetry; apply Z.ltb_ge; lia).
  replace (- (0 - (0 + Z.of_nat (length fp)))) with (Z.of_nat (length fp)) by lia.
  destruct (div_pow10_positive (digits_value (ip ++ fp)) (Z.of_nat (length fp)))
    as [Hfin _]; [exact Hsmall|lia|].
  rewrite (is_finite_not_inf _ Hfin). reflexivity.
Qed.

(** [precise_xstrtod] on digits alone. *)
Lemma precise_xstrtod_natural ds :
  all_digits ds -> (0 < length ds <= 15)%nat ->
  precise_xstrtod ds = Some (F64.of_Z (digits_value ds), [], true).
Proof.
  intros Hds Hlen. unfold precise_xstrtod.
  assert (skip_space ds = ds) as ->.
  { destruct Hds as [|c ds Hc _]; [reflexivity|].
    cbn [skip_space]. rewrite (digit_not_space c Hc). reflexivity. }
  assert (match ds with
          | 45%N :: p' => (true, p')
          | 43%N :: p' => (false, p')
          | _ => (false, ds)
          end = (false, ds)) as ->.
  { destruct Hds as [|c ds Hc _]; [reflexivity|]. apply sign_of_digit, Hc. }
  cbv beta iota zeta.
  rewrite (scan_int_all ds) by (try assumption; unfold max_digits; lia).
  cbv beta iota zeta.
  change F64.zero with (F64.of_Z 0).
  pose proof (digits_value_small _ Hds ltac:(lia)) as Hsmall.
  rewrite accumulate_exact by (try lia; try assumption; apply Hsmall).
  fold (digits_value ds).
  replace ((0 + length ds =? 0)%nat) with false
    by (symmetry; apply Nat.eqb_neq; lia).
  change (308 <? 0) with false. cbv beta iota zeta.
  unfold scale. change (0 <? 0) with false. change (0 <? -308) with false.
  cbv beta iota. change (- 0) with 0.
  rewrite div_one_natural by exact Hsmall.
  assert (F64.is_inf (F64.of_Z (digits_value ds)) = false) as ->.
  { destruct (digits_value ds) as [|p|p] eqn:Hv; [reflexivity| |lia].
    rewrite of_Z_pos by (apply ndigits_le; lia). reflexivity. }
  reflexivity.
Qed.

Lemma all_digits_no_nul ds : all_digits ds -> Forall (fun c => c <> 0%N) ds.
Proof. apply all_digits_differ. reflexivity. Qed.

Lemma to_numeric_unsigned ip fp :
  all_digits ip -> all_digits fp ->
  (0 < length ip + length fp <= 15)%nat ->
  to_numeric (ip ++ 46%N :: fp)
  = F64.div (F64.of_Z (digits_value (ip ++ fp))) (e10 (Z.of_nat (length fp))).
Proof.
  intros Hip Hfp Hlen. unfold to_numeric, floatify.
  rewrite c_str_keep.
  - unfold to_double. rewrite precise_xstrtod_unsigned by assumption.
    destruct ip; reflexivity.
  - apply Forall_app. split; [apply all_digits_no_nul, Hip|].
    constructor; [discriminate|apply all_digits_no_nul, Hfp].
Qed.

Lemma to_numeric_natural ds :
  all_digits ds -> (0 < length ds <= 15)%nat ->
  to_numeric ds = F64.of_Z (digits_value ds).
Proof.
  intros Hds Hlen. unfold to_numeric, floatify.
  pose proof (all_digits_no_nul ds Hds) as Hnul.
  rewrite c_str_keep by exact Hnul.
  unfold to_double. rewrite precise_xstrtod_natural by assumption.
  destruct ds as [|c ds]; [simpl in Hlen; lia|].
  rewrite bool_decide_false; [reflexivity|].
  intros Hin. rewrite Forall_forall in Hnul. exact (Hnul _ Hin eq_refl).
Qed.
End UnsignedNumbers.

Section CurrencyText.
Context `{!Runtime}.
Local Open Scope Z_scope.

Lemma span_number_all s :
  Forall (fun c => in_number_class c = true) s -> span_number s = (s, []).
Proof.
  induction 1 as [|c s Hc Hs IH]; [reflexivity|].
  cbn [span_number]. rewrite Hc, IH. reflexivity.
Qed.

Lemma sub_trailing_minus_number s :
  Forall (fun c => in_number_class c = true) s -> sub_trailing_minus s = s.
Proof.
  intros Hs. unfold sub_trailing_minus. rewrite span_number_all by exact Hs.
  destruct s; reflexivity.
Qed.

(** The substitutions on a text of digits, periods and commas, with or
    without the currency symbol and a space before it: the periods go and
    the commas become periods. *)
Lemma clean_text_number (symbol : bool) (body : str) :
  Forall (fun c => in_number_class c = true) body ->
  clean_text ((if symbol then py "R$ " else []) ++ body)
  = flat_map (fun c => if (44 =? c)%N then [46%N] else [c])
      (flat_map (fun c => if (46 =? c)%N then [] else [c]) body).
Proof.
  intros Hb. unfold clean_text.
  change (py " ") with [32%N]. change (py "R$") with [82%N; 36%N].
  change (py "R$ ") with [82%N; 36%N; 32%N].
  change (py ",") with [44%N]. change (py ".") with [46%N].
  assert (forall c0, in_number_class c0 = false -> Forall (fun c => c <> c0) body) as Hd.
  { intros c0 H0. apply in_number_class_differs; assumption. }
  assert (replace [32%N] []
            (replace [82%N; 36%N] []
               (replace [160%N] [] ((if symbol then [82%N; 36%N; 32%N] else []) ++ body)))
          = body) as ->.
  { destruct symbol.
    - rewrite (replace_absent 160%N)
        by (cbn [app]; repeat (constructor; [discriminate|]); apply Hd; reflexivity).
      assert (replace [82%N; 36%N] [] ([82%N; 36%N; 32%N] ++ body) = 32%N :: body) as ->.
      { unfold replace. cbn [app replace_from startswith length Nat.sub].
        change (82 =? 82)%N with true. change (36 =? 36)%N with true.
        change (82 =? 32)%N with false. cbn [andb app]. f_equal.
        apply (replace_absent 82%N [36%N] [] body), Hd. reflexivity. }
      rewrite replace_single. cbn [flat_map]. change (32 =? 32)%N with true.
      cbv iota. cbn [app]. apply flat_map_keep, Hd. reflexivity.
    - cbn [app]. rewrite (replace_absent 160%N) by (apply Hd; reflexivity).
      rewrite (replace_absent 82%N) by (apply Hd; reflexivity).
      rewrite (replace_absent 32%N) by (apply Hd; reflexivity). reflexivity. }
  rewrite (replace_absent 8722%N) by (apply Hd; reflexivity).
  rewrite sub_trailing_minus_number by exact Hb.
  rewrite !replace_single. reflexivity.
Qed.

Lemma all_digits_number ds :
  all_digits ds -> Forall (fun c => in_number_class c = true) ds.
Proof.
  intros Hds. eapply Forall_impl; [exact Hds|].
  intros c Hc. unfold in_number_class. rewrite Hc. reflexivity.
Qed.

Lemma join_periods_number groups :
  Forall all_digits groups ->
  Forall (fun c => in_number_class c = true) (join [46%N] groups).
Proof.
  induction 1 as [|g gs Hg Hgs IH]; [constructor|].
  cbn [join]. destruct gs as [|g' gs']; [apply all_digits_number, Hg|].
  apply Forall_app. split; [apply all_digits_number, Hg|].
  apply Forall_app. split; [repeat constructor|exact IH].
Qed.

(** X13: a text of groups of digits joined by periods, a comma and
    decimals, with at least one and at most fifteen digits in all, written
    with or without [R$ ] before it, is read as the binary64 quotient of
    the integer its digits write by ten to the number of decimals; the
    value is finite and not negative. *)
Theorem clean_val_currency (symbol : bool) (groups : list str) (frac : str) :
  Forall all_digits groups -> all_digits frac ->
  (0 < length (concat groups) + length frac <= 15)%nat ->
  clean_val [Str ((if symbol then py "R$ " else [])
                  ++ join (py ".") groups ++ py "," ++ frac)]
  = [Num (F64.div (F64.of_Z (digits_value (concat groups ++ frac)))
            (F64.of_Z (10 ^ Z.of_nat (length frac))))]
  /\ F64.is_finite (F64.div (F64.of_Z (digits_value (concat groups ++ frac)))
                      (F64.of_Z (10 ^ Z.of_nat (length frac)))) = true
  /\ F64.is_neg (F64.div (F64.of_Z (digits_value (concat groups ++ frac)))
                   (F64.of_Z (10 ^ Z.of_nat (length frac)))) = false.
Proof.
  intros Hg Hf Hlen.
  pose proof (all_digits_concat groups Hg) as Hc. split.
  - rewrite clean_val_map. cbn [map to_str].
    change (py ",") with [44%N]. change (py ".") with [46%N].
    rewrite clean_text_number.
    2:{ apply Forall_app. split; [apply join_periods_number, Hg|].
        apply Forall_app. split; [repeat constructor|apply all_digits_number, Hf]. }
    rewrite flat_map_app, remove_periods by exact Hg.
    cbn [app flat_map]. change (46 =? 44)%N with false. cbv iota.
    rewrite (flat_map_keep 46 [] frac)
      by (apply all_digits_differ; [reflexivity|exact Hf]).
    rewrite flat_map_app. cbn [app flat_map]. change (44 =? 44)%N with true. cbv iota.
    rewrite !(flat_map_keep 44 [46%N])
      by (apply all_digits_differ; [reflexivity|assumption]).
    cbn [app]. rewrite to_numeric_unsigned by assumption. reflexivity.
  - apply div_pow10_positive.
    + apply digits_value_small; [apply Forall_app; split; assumption|].
      rewrite length_app. lia.
    + lia.
Qed.

(** X14: a period is always a grouping mark, never a decimal point: a
    text of groups of digits joined by periods, without a comma and with
    at most fifteen digits, is read as the integer all its digits write,
    so that 1.5 is read as fifteen. *)
Theorem clean_val_period_groups (groups : list str) :
  Forall all_digits groups -> (0 < length (concat groups) <= 15)%nat ->
  clean_val [Str (join (py ".") groups)]
  = [Num (F64.of_Z (digits_value (concat groups)))].
Proof.
  intros Hg Hlen. pose proof (all_digits_concat groups Hg) as Hc.
  rewrite clean_val_map. cbn [map to_str]. change (py ".") with [46%N].
  pose proof (clean_text_number false (join [46%N] groups)
                (join_periods_number groups Hg)) as Ht.
  cbv iota in Ht. cbn [app] in Ht. rewrite Ht.
  rewrite remove_periods by exact Hg.
  rewrite (flat_map_keep 44 [46%N])
    by (apply all_digits_differ; [reflexivity|assumption]).
  rewrite to_numeric_natural by assumption. reflexivity.
Qed.
End CurrencyText.

(* ===================================================================== *)
(** ** The summary per file *)
(* ===================================================================== *)

Section PerFile.
Context `{!Runtime}.

Lemma keep_map_map {A B} (f : A -> bool) (e : A -> B) (l : list A) :
  keep (map f l) (map e l) = map e (filter (fun x => f x = true) l).
Proof.
  induction l as [|a l IH]; [reflexivity|]. cbn [map keep].
  rewrite filter_cons. destruct (f a) eqn:Hf.
  - rewrite decide_True by reflexivity. cbn [map]. now rewrite IH.
  - rewrite decide_False by discriminate. exact IH.
Qed.

Lemma filter_bool_decide {A} (P : A -> Prop) `{!forall x, Decision (P x)} (l : list A) :
  filter (fun x => bool_decide (P x) = true) l = filter P l.
Proof.
  induction l as [|a l IH]; [reflexivity|]. rewrite !filter_cons, IH.
  destruct (decide (P a)) as [Hp|Hp].
  - rewrite decide_True by (apply bool_decide_eq_true; exact Hp). reflexivity.
  - rewrite decide_False; [reflexivity|].
    intros Hb. apply Hp. apply bool_decide_eq_true in Hb. exact Hb.
Qed.

(** The row with its normalised type appended, as [df_tmp] holds it. *)
Lemma cell_at_extended (r : row) v i :
  (i < length r.2)%nat -> cell_at i (r.1, r.2 ++ [v]) = cell_at i r.
Proof.
  intros Hi. unfold cell_at. cbn [snd]. rewrite lookup_app_l by exact Hi. reflexivity.
Qed.

Lemma cell_at_appended (r : row) v :
  cell_at (length r.2) (r.1, r.2 ++ [v]) = v.
Proof.
  unfold cell_at. cbn [snd]. rewrite lookup_snoc. reflexivity.
Qed.

Lemma sum_present_ext j (f : row -> row) (rs : list row) :
  (forall r, r ∈ rs -> cell_at j (f r) = cell_at j r) ->
  sum_present j (map f rs) = sum_present j rs.
Proof.
  intros Hext. unfold sum_present. f_equal. rewrite map_map.
  apply map_ext_in. intros r Hr%list_elem_of_In. rewrite (Hext r Hr). reflexivity.
Qed.

(** The total of one file for one label, on the extended rows. *)
Lemma total_eq_run (rs : list row) (label : str) :
  Forall consolidated_row rs ->
  let ext := fun r : row => (r.1, r.2 ++ [Str (normalize_text (Some (cell_at 1 r)))]) in
  total_eq (mkDF ((canonical_columns ++ [Arquivo]) ++ [Tipo_norm]) (map ext rs)) label
  = Ok (sum_present 4 (exact_rows label rs)).
Proof.
  intros Hrs ext. unfold total_eq.
  rewrite (get_series_unique _ Tipo_norm 8) by (vm_compute; reflexivity).
  unfold mbind, result_bind. unfold column_at. cbn [rows].
  rewrite !map_map.
  assert (map (fun r => bool_decide (cell_at 8 (ext r) = Str label)) rs
          = map (fun r => bool_decide (normalize_text (Some (cell_at 1 r)) = label)) rs)
    as ->.
  { apply map_ext_in. intros r Hr%list_elem_of_In.
    rewrite Forall_forall in Hrs. destruct (Hrs r Hr) as (Hlen & _).
    assert (cell_at 8 (ext r) = Str (normalize_text (Some (cell_at 1 r)))) as ->
      by (unfold ext; rewrite <- Hlen; apply cell_at_appended).
    apply bool_decide_ext.
    split; [intros Heq; injection Heq as Heq; exact Heq|intros Heq; f_equal; exact Heq]. }
  unfold getmask. cbn [columns rows].
  rewrite (keep_map_map
             (fun r => bool_decide (normalize_text (Some (cell_at 1 r)) = label)) ext rs).
  rewrite filter_bool_decide. fold (exact_rows label rs).
  rewrite (get_series_unique _ Valor 4) by (vm_compute; reflexivity).
  unfold column_at. cbn [rows].
  assert (Forall consolidated_row (exact_rows label rs)) as Hex
    by (apply Forall_filter_weaken; exact Hrs).
  rewrite nansum_numeric.
  - f_equal. apply sum_present_ext. intros r Hr.
    rewrite Forall_forall in Hex. destruct (Hex r Hr) as (Hlen & _).
    apply cell_at_extended. lia.
  - apply Forall_forall. intros r' Hr'.
    change (map ?f ?l) with (f <$> l) in Hr'.
    apply list_elem_of_fmap in Hr' as (r & -> & Hr).
    rewrite Forall_forall in Hex. destruct (Hex r Hr) as (Hlen & Hnum & _).
    unfold ext. rewrite cell_at_extended by lia. exact Hnum.
Qed.

(** The summary on a consolidated table, line by line. *)
Lemma resumo_arquivo_run (df : DataFrame) :
  columns df = canonical_columns ++ [Arquivo] ->
  Forall consolidated_row (rows df) ->
  resumo_arquivo df
  = Ok (map (resumo_line (rows df)) (group_keys (column_at 7 df))).
Proof.
  intros Hcols Hrows. destruct df as [cols rs]. cbn [columns rows] in *. subst cols.
  unfold resumo_arquivo.
  rewrite (get_series_unique _ Tipo 1) by (vm_compute; reflexivity).
  unfold mbind at 1, result_bind at 1.
  set (ext := fun r : row => (r.1, r.2 ++ [Str (normalize_text (Some (cell_at 1 r)))])).
  assert (assign Tipo_norm
            (map (fun c => Str (normalize_text (Some c)))
                 (column_at 1 (mkDF (canonical_columns ++ [Arquivo]) rs)))
            (mkDF (canonical_columns ++ [Arquivo]) rs)
          = mkDF ((canonical_columns ++ [Arquivo]) ++ [Tipo_norm]) (map ext rs)) as ->.
  { unfold assign.
    assert (positions Tipo_norm (mkDF (canonical_columns ++ [Arquivo]) rs) = []) as ->
      by (vm_compute; reflexivity).
    unfold append_column, column_at. cbn [columns rows]. f_equal.
    rewrite map_map.
    change (map ?f ?l) with (f <$> l).
    rewrite zip_with_fmap_r, zip_with_diag. reflexivity. }
  rewrite (get_series_unique _ Arquivo 7) by (vm_compute; reflexivity).
  unfold mbind at 1, result_bind at 1.
  assert (column_at 7 (mkDF ((canonical_columns ++ [Arquivo]) ++ [Tipo_norm]) (map ext rs))
          = column_at 7 (mkDF (canonical_columns ++ [Arquivo]) rs)) as ->.
  { unfold column_at. cbn [rows]. rewrite map_map. apply map_ext_in.
    intros r Hr%list_elem_of_In.
    rewrite Forall_forall in Hrows. destruct (Hrows r Hr) as (Hlen & _).
    apply cell_at_extended. lia. }
  apply traverse_ok. apply Forall_forall. intros k _.
  assert (getmask (mkDF ((canonical_columns ++ [Arquivo]) ++ [Tipo_norm]) (map ext rs))
            (map (fun c => bool_decide (c = Str k))
                 (column_at 7 (mkDF (canonical_columns ++ [Arquivo]) rs)))
          = mkDF ((canonical_columns ++ [Arquivo]) ++ [Tipo_norm])
              (map ext (file_rows k rs))) as ->.
  { unfold getmask, column_at. cbn [columns rows]. f_equal. rewrite map_map.
    rewrite (keep_map_map (fun r => bool_decide (cell_at 7 r = Str k)) ext rs).
    rewrite filter_bool_decide. reflexivity. }
  assert (Forall consolidated_row (file_rows k rs)) as Hfile
    by (apply Forall_filter_weaken; exact Hrows).
  cbv zeta. fold ext. rewrite !(total_eq_run (file_rows k rs)) by exact Hfile.
  unfold mbind, result_bind. cbn [rows]. rewrite length_map. reflexivity.
Qed.

(** Distinct keys in ascending order. *)
Lemma insert_key_elem k l x : x ∈ insert_key k l <-> x = k \/ x ∈ l.
Proof.
  induction l as [|k' l IH]; cbn [insert_key].
  - rewrite list_elem_of_singleton. rewrite elem_of_nil. tauto.
  - destruct (str_ltb k k'); [rewrite elem_of_cons; tauto|].
    unfold str_eqb. destruct (bool_decide_reflect (k = k')) as [->|Hne].
    + rewrite elem_of_cons. tauto.
    + rewrite !elem_of_cons, IH. tauto.
Qed.

Lemma insert_key_sorted k l :
  StronglySorted (fun a b => str_ltb a b = true) l ->
  StronglySorted (fun a b => str_ltb a b = true) (insert_key k l).
Proof.
  induction 1 as [|k' l Hl IH Hk']; cbn [insert_key].
  - repeat constructor.
  - destruct (str_ltb k k') eqn:Hlt.
    + constructor; [constructor; assumption|].
      constructor; [exact Hlt|].
      eapply Forall_impl; [exact Hk'|]. intros x Hx.
      exact (str_ltb_trans k k' x Hlt Hx).
    + unfold str_eqb. destruct (bool_decide_reflect (k = k')) as [->|Hne].
      * constructor; assumption.
      * constructor; [exact IH|].
        apply Forall_forall. intros x Hx. apply insert_key_elem in Hx as [->|Hx].
        -- destruct (str_ltb k' k) eqn:Hgt; [reflexivity|].
           exfalso. apply Hne. exact (str_ltb_total k k' Hlt Hgt).
        -- rewrite Forall_forall in Hk'. apply Hk'. exact Hx.
Qed.

Lemma group_keys_sorted col :
  StronglySorted (fun a b => str_ltb a b = true) (group_keys col).
Proof.
  unfold group_keys. induction col as [|c col IH]; cbn [foldr]; [constructor|].
  destruct c; [apply insert_key_sorted, IH|exact IH].
Qed.

Lemma group_keys_elem col k : k ∈ group_keys col <-> Str k ∈ col.
Proof.
  unfold group_keys. induction col as [|c col IH]; cbn [foldr].
  - rewrite !elem_of_nil. tauto.
  - destruct c as [s|x].
    + rewrite insert_key_elem, elem_of_cons, IH. split.
      * intros [->|Hk]; [left; reflexivity|right; exact Hk].
      * intros [[= ->]|Hk]; [left; reflexivity|right; exact Hk].
    + rewrite elem_of_cons, IH. split; [intros Hk; right; exact Hk|].
      intros [Heq|Hk]; [discriminate|exact Hk].
Qed.

Lemma sorted_keys_nodup l :
  StronglySorted (fun a b => str_ltb a b = true) l -> NoDup l.
Proof.
  induction 1 as [|k l Hl IH Hk]; constructor; [|exact IH].
  intros Hin. rewrite Forall_forall in Hk. specialize (Hk k Hin).
  rewrite str_ltb_irrefl in Hk. discriminate.
Qed.

Lemma count_once (keys : list str) k0 :
  NoDup keys -> k0 ∈ keys ->
  sum_list (map (fun k => if decide (k0 = k) then 1%nat else 0%nat) keys) = 1%nat.
Proof.
  induction 1 as [|k keys Hk Hnd IH]; intros Hin; [inversion Hin|].
  cbn [map sum_list]. destruct (decide (k0 = k)) as [->|Hne].
  - assert (sum_list (map (fun k' => if decide (k = k') then 1%nat else 0%nat) keys)
            = 0%nat) as ->; [|reflexivity].
    clear IH Hnd Hin. induction keys as [|k' keys IH]; [reflexivity|].
    cbn [map sum_list]. rewrite decide_False.
    + apply IH. intros Hin. apply Hk. right. exact Hin.
    + intros ->. apply Hk. left.
  - apply elem_of_cons in Hin as [Heq|Hin]; [contradiction|].
    rewrite IH by exact Hin. reflexivity.
Qed.

Lemma sum_list_add {A} (f g : A -> nat) (l : list A) :
  sum_list (map (fun a => f a + g a)%nat l)
  = (sum_list (map f l) + sum_list (map g l))%nat.
Proof. induction l as [|a l IH]; [reflexivity|]. simpl. rewrite IH. lia. Qed.

(** Every row with a listed file name is counted under exactly one key. *)
Lemma file_rows_partition (keys : list str) (rs : list row) :
  NoDup keys ->
  Forall (fun r => exists k, cell_at 7 r = Str k /\ k ∈ keys) rs ->
  sum_list (map (fun k => length (file_rows k rs)) keys) = length rs.
Proof.
  intros Hnd. induction 1 as [|r rs (k0 & Hr & Hk0) Hrs IH].
  - induction keys as [|k keys IHk]; [reflexivity|].
    cbn [map sum_list]. apply NoDup_cons in Hnd as [_ Hnd]. rewrite IHk by exact Hnd.
    reflexivity.
  - assert (map (fun k => length (file_rows k (r :: rs))) keys
            = map (fun k => ((if decide (k0 = k) then 1 else 0)
                             + length (file_rows k rs))%nat) keys) as ->.
    { apply map_ext. intros k. unfold file_rows. rewrite filter_cons, Hr.
      destruct (decide (k0 = k)) as [->|Hne].
      - rewrite decide_True by reflexivity. reflexivity.
      - rewrite decide_False by (intros [= Heq]; contradiction). reflexivity. }
    rewrite sum_list_add, IH, (count_once keys k0 Hnd Hk0). reflexivity.
Qed.


(** X16: the lines of the summary come in strictly ascending order of
    the file name, so no file has two lines, and their row counts add up
    to the number of rows of the table: every row is counted once. *)
Theorem resumo_arquivo_counts (df : DataFrame) res :
  columns df = canonical_columns ++ [Arquivo] ->
  Forall consolidated_row (rows df) ->
  resumo_arquivo df = Ok res ->
  StronglySorted (fun a b => str_ltb a b = true) (map (fun l => l.1.1.1) res)
  /\ sum_list (map (fun l => l.1.1.2) res) = length (rows df).
Proof.
  intros Hcols Hrows. rewrite resumo_arquivo_run by assumption. intros [= <-].
  rewrite !map_map. cbn [fst snd resumo_line]. split.
  - rewrite map_id. apply group_keys_sorted.
  - apply file_rows_partition.
    + apply sorted_keys_nodup, group_keys_sorted.
    + apply Forall_forall. intros r Hr.
      rewrite Forall_forall in Hrows. destruct (Hrows r Hr) as (_ & _ & name & Hname).
      exists name. split; [exact Hname|].
      apply group_keys_elem. rewrite <- Hname.
      unfold column_at. change (map ?f ?l) with (f <$> l).
      apply list_elem_of_fmap. exists r. split; [reflexivity|exact Hr].
Qed.
End PerFile.

(* ===================================================================== *)
(** ** Tables: labels, positions and selections *)
(* ===================================================================== *)

Section TableFacts.

Lemma positions_from_elem k c cols j :
  j ∈ positions_from k c cols <-> (k <= j)%nat /\ cols !! (j - k)%nat = Some c.
Proof.
  revert k. induction cols as [|c' cols IH]; intros k; cbn [positions_from].
  - rewrite elem_of_nil, lookup_nil. split; [tauto|intros [_ [=]]].
  - unfold str_eqb. destruct (bool_decide_reflect (c = c')) as [<-|Hne].
    + rewrite elem_of_cons, IH. split.
      * intros [->|[Hk Hl]].
        -- split; [lia|]. rewrite Nat.sub_diag. reflexivity.
        -- split; [lia|]. replace (j - k)%nat with (S (j - S k)) by lia. exact Hl.
      * intros [Hk Hl]. destruct (decide (j = k)) as [->|Hjk]; [left; reflexivity|].
        right. split; [lia|].
        replace (j - k)%nat with (S (j - S k)) in Hl by lia. exact Hl.
    + rewrite IH. split.
      * intros [Hk Hl]. split; [lia|].
        replace (j - k)%nat with (S (j - S k)) by lia. exact Hl.
      * intros [Hk Hl]. destruct (decide (j = k)) as [->|Hjk].
        -- rewrite Nat.sub_diag in Hl. injection Hl as Hl. congruence.
        -- split; [lia|].
           replace (j - k)%nat with (S (j - S k)) in Hl by lia. exact Hl.
Qed.

Lemma positions_elem c d j : j ∈ positions c d <-> columns d !! j = Some c.
Proof.
  unfold positions. rewrite positions_from_elem, Nat.sub_0_r.
  split; [intros [_ H]; exact H|intros H; split; [lia|exact H]].
Qed.

Lemma positions_from_app k c l1 l2 :
  positions_from k c (l1 ++ l2)
  = positions_from k c l1 ++ positions_from (k + length l1) c l2.
Proof.
  revert k. induction l1 as [|c' l1 IH]; intros k; cbn [app positions_from length].
  - rewrite Nat.add_0_r. reflexivity.
  - rewrite IH. replace (S k + length l1)%nat with (k + S (length l1))%nat by lia.
    destruct (str_eqb c c'); reflexivity.
Qed.

Lemma positions_from_other k c c' :
  c <> c' -> positions_from k c [c'] = [].
Proof.
  intros Hne. cbn [positions_from]. unfold str_eqb.
  rewrite bool_decide_false by exact Hne. reflexivity.
Qed.

Lemma traverse_inv {A B} (f : A -> result B) (l : list A) bs :
  traverse f l = Ok bs -> Forall2 (fun a b => f a = Ok b) l bs.
Proof.
  revert bs. induction l as [|a l IH]; intros bs; cbn [traverse].
  - intros [= <-]. constructor.
  - unfold mbind, result_bind. destruct (f a) as [b|e] eqn:Hfa; [|discriminate].
    destruct (traverse f l) as [bs'|e]; [|discriminate].
    intros [= <-]. constructor; [exact Hfa|apply IH; reflexivity].
Qed.

(** A selection that succeeds: every requested label is present, and the
    result holds, for each requested label in turn, every column that
    carries it. *)
Lemma select_inv d names df :
  select d names = Ok df ->
  Forall (fun c => positions c d <> []) names
  /\ df = mkDF (concat (map (fun c => map (fun _ => c) (positions c d)) names))
               (map (project (concat (map (fun c => positions c d) names))) (rows d)).
Proof.
  unfold select. unfold mbind, result_bind.
  destruct (traverse _ names) as [pss|e] eqn:Ht; [|discriminate].
  apply traverse_inv in Ht. intros [= <-].
  assert (Forall (fun c => positions c d <> []) names
          /\ pss = map (fun c => map (fun i => (c, i)) (positions c d)) names)
    as [Hne ->].
  { induction Ht as [|c ps names pss Hc _ [IH1 IH2]]; [split; [constructor|reflexivity]|].
    cbv beta in Hc. destruct (positions c d) as [|i l] eqn:Hp; [discriminate|].
    injection Hc as <-. split.
    - constructor; [rewrite Hp; discriminate|exact IH1].
    - cbn [map]. rewrite Hp, IH2. reflexivity. }
  split; [exact Hne|]. cbv zeta. rewrite snd_concat_pairs. f_equal.
  clear. induction names as [|c names IH]; [reflexivity|].
  cbn [map concat]. rewrite map_app, IH. f_equal.
  rewrite map_map. reflexivity.
Qed.

Lemma project_length ps r : length (project ps r).2 = length ps.
Proof. unfold project. cbn [snd]. apply length_map. Qed.

Lemma cell_at_project ps r p i :
  ps !! p = Some i -> cell_at p (project ps r) = cell_at i r.
Proof.
  intros Hp. unfold cell_at at 1, project. cbn [snd].
  change (map ?f ?l) with (f <$> l). rewrite list_lookup_fmap, Hp. reflexivity.
Qed.
End TableFacts.

Section ReaderStages.
Context `{!Runtime}.

Lemma columns_assign c vs d :
  columns (assign c vs d)
  = if bool_decide (positions c d = []) then columns d ++ [c] else columns d.
Proof.
  unfold assign. destruct (positions c d) as [|i ps]; reflexivity.
Qed.

Lemma positions_assign_other c c' vs d :
  c' <> c -> positions c' (assign c vs d) = positions c' d.
Proof.
  intros Hne. unfold positions. rewrite columns_assign.
  destruct (bool_decide _); [|reflexivity].
  rewrite positions_from_app, positions_from_other by exact Hne. apply app_nil_r.
Qed.

Lemma positions_assign_same c vs d i ps :
  positions c d = i :: ps -> positions c (assign c vs d) = i :: ps.
Proof.
  intros Hp. unfold positions at 1. rewrite columns_assign, Hp.
  rewrite bool_decide_false by discriminate. exact Hp.
Qed.

(** The reader, stage by stage. *)
Lemma read_bs2_csv_eq (b : bytes) :
  read_bs2_csv b
  = (t ← sliced_text b;
     match t with
     | None => Ok no_frame
     | Some text => d0 ← read_csv text; finish_columns (with_canonical_columns d0)
     end).
Proof.
  unfold read_bs2_csv, sliced_text, finish_columns, with_canonical_columns.
  unfold mbind, result_bind. cbv zeta.
  destruct (decode _ b) as [text|e]; [|reflexivity].
  destruct (find_header 0 (splitlines text)); reflexivity.
Qed.

(** A table the last steps accept has exactly one column labelled
    Valor. *)
Lemma finish_columns_inv (d3 df : DataFrame) :
  finish_columns d3 = Ok df ->
  exists i,
    positions Valor d3 = [i]
    /\ select
         (assign Valor
            (clean_val (column_at i (assign Valor_raw (column_at i d3) d3)))
            (assign Valor_raw (column_at i d3) d3))
         [Data; Tipo; Detalhe; Identificador; Valor; Observacao; Valor_raw]
       = Ok df.
Proof.
  unfold finish_columns. intros Hrun.
  unfold getitem in Hrun.
  destruct (positions Valor d3) as [|i [|j l]] eqn:Hp.
  - discriminate Hrun.
  - exists i. split; [reflexivity|].
    unfold mbind at 1, result_bind at 1 in Hrun. cbn [setitem] in Hrun.
    unfold mbind at 1, result_bind at 1 in Hrun.
    assert (positions Valor (assign Valor_raw (column_at i d3) d3) = [i]) as Hp4.
    { rewrite positions_assign_other by discriminate. exact Hp. }
    rewrite (get_series_unique _ Valor i Hp4) in Hrun.
    unfold mbind at 1, result_bind at 1 in Hrun. cbn [setitem] in Hrun.
    unfold mbind at 1, result_bind at 1 in Hrun.
    exact Hrun.
  - exfalso. unfold mbind at 1, result_bind at 1 in Hrun.
    unfold setitem in Hrun. cbn [columns map] in Hrun.
    destruct (positions Valor_raw d3) as [|p ps] eqn:Hraw; [discriminate Hrun|].
    destruct (_ =? _)%nat; [|discriminate Hrun].
    unfold mbind at 1, result_bind at 1 in Hrun.
    unfold get_series, getitem, positions in Hrun. cbn [columns] in Hrun.
    fold (positions Valor d3) in Hrun. rewrite Hp in Hrun. discriminate Hrun.
Qed.

(** The stages of a successful read: no header line and the table without
    columns, or a parsed table the last steps accept. *)
Lemma read_bs2_csv_inv (b : bytes) (df : DataFrame) :
  read_bs2_csv b = Ok df ->
  (sliced_text b = Ok None /\ df = no_frame)
  \/ exists text d0,
       sliced_text b = Ok (Some text)
       /\ read_csv text = Ok d0
       /\ finish_columns (with_canonical_columns d0) = Ok df.
Proof.
  rewrite read_bs2_csv_eq. unfold mbind at 1, result_bind at 1.
  destruct (sliced_text b) as [[text|]|e]; [| |discriminate].
  - unfold mbind at 1, result_bind at 1.
    destruct (read_csv text) as [d0|e] eqn:Hcsv; [|discriminate].
    intros Hrun. right. exists text, d0. auto.
  - intros [= <-]. left. auto.
Qed.
End ReaderStages.

Section ReaderShape.
Context `{!Runtime}.

Lemma lookup_labelled {A} (g : str -> list A) (names : list str) p c :
  concat (map (fun c => map (fun _ => c) (g c)) names) !! p = Some c ->
  exists j, concat (map g names) !! p = Some j /\ j ∈ g c.
Proof.
  revert p. induction names as [|c0 names IH]; intros p; cbn [map concat].
  - rewrite lookup_nil. discriminate.
  - intros Hp. apply lookup_app_Some in Hp as [Hp|[Hlen Hp]].
    + change (map ?f ?l) with (f <$> l) in Hp.
      apply list_lookup_fmap_Some in Hp as (j & -> & Hj)
        || apply list_lookup_fmap_Some in Hp as (j & Hj & ->).
      exists j. split; [apply lookup_app_l_Some; exact Hj|].
      eapply list_elem_of_lookup_2, Hj.
    + rewrite length_map in Hlen, Hp. destruct (IH _ Hp) as (j & Hj & Hin).
      exists j. split; [|exact Hin].
      rewrite lookup_app_r by exact Hlen. exact Hj.
Qed.

Lemma length_labelled {A} (g : str -> list A) (names : list str) :
  length (concat (map (fun c => map (fun _ => c) (g c)) names))
  = length (concat (map g names)).
Proof.
  induction names as [|c names IH]; [reflexivity|].
  cbn [map concat]. rewrite !length_app, length_map, IH. reflexivity.
Qed.

Lemma labelled_replicate {A} (g : str -> list A) (names : list str) :
  concat (map (fun c => map (fun _ => c) (g c)) names)
  = flat_map (fun c => replicate (length (g c)) c) names.
Proof.
  induction names as [|c names IH]; [reflexivity|].
  cbn [map concat flat_map]. rewrite IH. f_equal.
  induction (g c) as [|a l IHl]; [reflexivity|]. cbn [map length replicate].
  now rewrite IHl.
Qed.

Lemma Forall_zip_with {A B C} (f : A -> B -> C) (P : B -> Prop) (Q : C -> Prop)
    (l : list A) (k : list B) :
  Forall P k -> (forall a b, P b -> Q (f a b)) -> Forall Q (zip_with f l k).
Proof.
  intros Hk Hf. revert l. induction Hk as [|b k Hb Hk IH]; intros [|a l];
    cbn [zip_with]; constructor; auto.
Qed.

Lemma clean_val_numbers (series : list cell) :
  Forall (fun c => exists x, c = Num x) (clean_val series).
Proof.
  rewrite clean_val_map. apply Forall_forall. intros c Hc.
  change (map ?f ?l) with (f <$> l) in Hc.
  apply list_elem_of_fmap in Hc as (c0 & -> & _). eauto.
Qed.

Lemma cell_at_written (r : row) i v :
  (exists x, v = Num x) -> exists x, cell_at i (r.1, <[i := v]> r.2) = Num x.
Proof.
  intros [x ->]. unfold cell_at. cbn [snd].
  destruct (decide (i < length r.2)%nat) as [Hlt|Hge].
  - rewrite list_lookup_insert_eq by exact Hlt. eauto.
  - rewrite list_insert_ge by lia. rewrite lookup_ge_None_2 by lia.
    exists F64.nan. reflexivity.
Qed.

(** The columns Valor holds after its parsing: numbers only. *)
Lemma assign_valor_numbers (d : DataFrame) i (vs : list cell) :
  positions Valor d = [i] -> Forall (fun c => exists x, c = Num x) vs ->
  Forall (fun r => exists x, cell_at i r = Num x) (rows (assign Valor vs d)).
Proof.
  intros Hp Hvs. unfold assign. rewrite Hp. unfold write_at. cbn [rows foldr].
  eapply Forall_zip_with; [exact Hvs|].
  intros r v Hv. apply (cell_at_written r i v Hv).
Qed.

(** The shape of a table the reader returns. *)
Lemma reader_shape (b : bytes) (df : DataFrame) :
  read_bs2_csv b = Ok df ->
  df = no_frame
  \/ ((exists n : str -> nat,
         Forall (fun c => 1 <= n c)%nat canonical_columns
         /\ n Valor = 1%nat
         /\ columns df = flat_map (fun c => replicate (n c) c) canonical_columns)
      /\ rectangular df
      /\ Forall (fun r => forall p, columns df !! p = Some Valor ->
                          exists x, cell_at p r = Num x) (rows df)).
Proof.
  intros Hread. apply read_bs2_csv_inv in Hread as [[_ ->]|(text & d0 & _ & _ & Hfin)];
    [left; reflexivity|right].
  apply finish_columns_inv in Hfin as (i & Hp & Hsel).
  set (d3 := with_canonical_columns d0) in *.
  set (d4 := assign Valor_raw (column_at i d3) d3) in *.
  set (d5 := assign Valor (clean_val (column_at i d4)) d4) in *.
  assert (positions Valor d4 = [i]) as Hp4
    by (unfold d4; rewrite positions_assign_other by discriminate; exact Hp).
  assert (positions Valor d5 = [i]) as Hp5
    by (apply positions_assign_same; exact Hp4).
  apply select_inv in Hsel as [Hpresent ->]. cbn [columns rows].
  split; [|split].
  - exists (fun c => length (positions c d5)). split; [|split].
    + eapply Forall_impl; [exact Hpresent|]. intros c Hc.
      destruct (positions c d5) eqn:Hpc; [exfalso; exact (Hc Hpc)|simpl; lia].
    + rewrite Hp5. reflexivity.
    + apply labelled_replicate.
  - unfold rectangular. cbn [columns rows]. apply Forall_forall. intros r Hr.
    change (map ?f ?l) with (f <$> l) in Hr.
    apply list_elem_of_fmap in Hr as (r0 & -> & _).
    rewrite project_length. symmetry. apply length_labelled.
  - apply Forall_forall. intros r Hr p Hcol.
    change (map ?f ?l) with (f <$> l) in Hr.
    apply list_elem_of_fmap in Hr as (r0 & -> & Hr0).
    apply lookup_labelled in Hcol as (j & Hj & Hin).
    rewrite Hp5 in Hin. apply list_elem_of_singleton in Hin as ->.
    rewrite (cell_at_project _ r0 p i Hj).
    pose proof (assign_valor_numbers d4 i (clean_val (column_at i d4)) Hp4
                  (clean_val_numbers _)) as Hnum.
    fold d5 in Hnum. rewrite Forall_forall in Hnum. exact (Hnum r0 Hr0).
Qed.

(** X17: a table the reader returns for a file with a header line has the
    seven canonical labels in the canonical order, each at least once and
    Valor exactly once; every row has one cell per column; and every cell
    of the Valor column is a number or NaN, never text. *)
Theorem read_bs2_csv_shape (b : bytes) (df : DataFrame) :
  read_bs2_csv b = Ok df ->
  df = no_frame
  \/ ((exists n : str -> nat,
         Forall (fun c => 1 <= n c)%nat canonical_columns
         /\ n Valor = 1%nat
         /\ columns df = flat_map (fun c => replicate (n c) c) canonical_columns)
      /\ rectangular df
      /\ Forall (fun r => forall p, columns df !! p = Some Valor ->
                          exists x, cell_at p r = Num x) (rows df)).
Proof. apply reader_shape. Qed.
End ReaderShape.

(* ===================================================================== *)
(** ** The CSV parser returns a rectangular table of text *)
(* ===================================================================== *)

Section Tokenizer.

Lemma end_line_aligned (t t' : tokenizer) :
  lines_aligned (lines t) -> end_line t = Ok t' -> lines_aligned (lines t').
Proof.
  intros Hinv. unfold end_line.
  destruct (_ && _) eqn:Herr; [discriminate|]. intros [= <-]. cbn [lines].
  right. destruct Hinv as [HL|(hdr & data & w & HL & Hw & Hdata)]; rewrite HL in *.
  - cbn [length Nat.leb]. exists (rev (line t)), [], (length (rev (line t))).
    split; [reflexivity|]. split; [lia|constructor].
  - destruct data as [|l rest].
    + cbn [app length Nat.leb].
      exists hdr, [rev (line t) ++ replicate (length hdr - length (rev (line t))) []].
      eexists. split; [reflexivity|]. split; [|repeat constructor].
      rewrite length_app, length_replicate. lia.
    + cbn [app length] in *. apply Forall_cons in Hdata as [Hl Hrest].
      rewrite Hl in Herr.
      assert ((2 <=? S (length (rest ++ [hdr])))%nat = true) as H2
        by (apply Nat.leb_le; rewrite length_app; cbn [length]; lia).
      rewrite H2 in Herr. cbn [andb] in Herr. apply Nat.ltb_ge in Herr.
      cbn [Nat.leb]. rewrite Hl.
      exists hdr, ((rev (line t) ++ replicate (w - length (rev (line t))) []) :: l :: rest), w.
      split; [reflexivity|]. split; [exact Hw|].
      constructor; [|constructor; assumption].
      rewrite length_app, length_replicate. lia.
Qed.

Lemma end_field_lines st t : lines (end_field st t) = lines t.
Proof. reflexivity. Qed.

Lemma tok_step_aligned (t t' : tokenizer) c :
  lines_aligned (lines t) -> tok_step t c = Ok t' -> lines_aligned (lines t').
Proof.
  intros Hinv. unfold tok_step.
  assert (forall st, lines_aligned (lines (end_field st t))) as Hef
    by (intros st; exact Hinv).
  destruct (state t), (c =? 10)%N, (c =? 59)%N, (c =? 34)%N, (isblank c);
    try (intros [= <-]; exact Hinv);
    try (apply end_line_aligned, Hef).
Qed.

Lemma tokenize_aligned (text : str) (t0 t : tokenizer) :
  lines_aligned (lines t0) ->
  foldl (fun acc c => t ← acc; tok_step t c) (Ok t0) text = Ok t ->
  lines_aligned (lines t).
Proof.
  revert t0. induction text as [|c text IH]; intros t0 Hinv; cbn [foldl].
  - intros [= <-]. exact Hinv.
  - unfold mbind at 2, result_bind at 2.
    destruct (tok_step t0 c) as [t1|e] eqn:Hstep.
    + apply IH. exact (tok_step_aligned t0 t1 c Hinv Hstep).
    + intros Hrun. exfalso. revert Hrun. clear.
      induction text as [|c' text IH]; cbn [foldl]; [discriminate|exact IH].
Qed.

Lemma tok_eof_aligned (t t' : tokenizer) :
  lines_aligned (lines t) -> tok_eof t = Ok t' -> lines_aligned (lines t').
Proof.
  intros Hinv. unfold tok_eof.
  destruct (state t); try (intros [= <-]; exact Hinv); try discriminate;
    apply end_line_aligned; exact Hinv.
Qed.

(** What the tokenizer returns: a header and data lines of one width. *)
Lemma tokenize_widths (text : str) ls :
  tokenize text = Ok ls ->
  ls = [] \/
  exists hdr data w,
    ls = hdr :: data /\ (length hdr <= w)%nat /\ Forall (fun l => length l = w) data.
Proof.
  unfold tokenize. unfold mbind, result_bind.
  destruct (foldl _ _ text) as [t|e] eqn:Hfold; [|discriminate].
  destruct (tok_eof t) as [t'|e] eqn:Heof; [|discriminate].
  intros [= <-].
  assert (lines_aligned (lines t')) as [HL|(hdr & data & w & HL & Hw & Hdata)].
  { eapply tok_eof_aligned; [|exact Heof].
    eapply tokenize_aligned; [|exact Hfold]. left. reflexivity. }
  - left. rewrite HL. reflexivity.
  - right. exists hdr, (rev data), w. split; [|split; [exact Hw|]].
    + rewrite HL, rev_app_distr. reflexivity.
    + apply Forall_rev. exact Hdata.
Qed.

Lemma dedup_names_length (raw : list str) : length (dedup_names raw) = length raw.
Proof.
  unfold dedup_names.
  set (step := fun '(header, counts) i => _).
  assert (forall idx (acc : list str * gmap str nat),
            length (foldl step acc idx).1 = length acc.1) as Hgen.
  { induction idx as [|i idx IH]; intros [header counts]; [reflexivity|].
    cbn [foldl]. rewrite IH. unfold step.
    destruct (dedup_loop _ _ _ _ _ _) as [[counts' col] cur].
    cbn [fst]. apply length_insert. }
  rewrite Hgen. cbn [fst]. apply length_imap.
Qed.

(** The parsed table is rectangular and holds text only. *)
Lemma read_csv_rectangular (text : str) (d : DataFrame) :
  read_csv text = Ok d -> rectangular d /\ all_text d.
Proof.
  unfold read_csv. unfold mbind, result_bind.
  destruct (tokenize text) as [ls|e] eqn:Htok; [|discriminate].
  apply tokenize_widths in Htok as [->|(hdr & data & w & -> & Hw & Hdata)];
    [discriminate|].
  intros [= <-]. unfold rectangular, all_text. cbn [columns rows].
  rewrite dedup_names_length.
  assert (match data with l :: _ => length l | [] => length hdr end - length hdr
          = match data with _ :: _ => w - length hdr | [] => 0 end)%nat as ->.
  { destruct data as [|l data]; [lia|]. apply Forall_cons in Hdata as [-> _].
    reflexivity. }
  split; apply Forall_forall; intros r Hr;
    apply elem_of_lookup_imap in Hr as (i & fields & -> & Hf);
    cbn [snd].
  - apply list_elem_of_lookup_2 in Hf. rewrite Forall_forall in Hdata.
    specialize (Hdata fields Hf). destruct data; [inversion Hf|].
    rewrite length_map, length_drop. lia.
  - apply Forall_forall. intros c Hc. change (map ?f ?l) with (f <$> l) in Hc.
    apply list_elem_of_fmap in Hc as (s & -> & _). eauto.
Qed.
End Tokenizer.

(* ===================================================================== *)
(** ** Valor is the parsed Valor_raw *)
(* ===================================================================== *)

Section ValorRaw.
Context `{!Runtime}.

Lemma Forall_zip_with_both {A B C} (f : A -> B -> C) (P : A -> Prop) (P' : B -> Prop)
    (Q : C -> Prop) (l : list A) (k : list B) :
  Forall P l -> Forall P' k -> (forall a b, P a -> P' b -> Q (f a b)) ->
  Forall Q (zip_with f l k).
Proof.
  intros Hl Hk Hf. revert k Hk. induction Hl as [|a l Ha Hl IH]; intros k Hk;
    [constructor|].
  destruct Hk as [|b k Hb Hk]; cbn [zip_with]; constructor; auto.
Qed.

Lemma length_foldr_insert {A} (v : A) (l : list A) (ps : list nat) :
  length (foldr (fun j cells => <[j := v]> cells) l ps) = length l.
Proof.
  induction ps as [|j ps IH]; [reflexivity|]. cbn [foldr].
  rewrite length_insert. exact IH.
Qed.

Lemma lookup_foldr_insert_in {A} (v : A) (l : list A) (ps : list nat) j :
  j ∈ ps -> (j < length l)%nat ->
  foldr (fun j cells => <[j := v]> cells) l ps !! j = Some v.
Proof.
  intros Hin Hlt. induction ps as [|j' ps IH]; [inversion Hin|]. cbn [foldr].
  destruct (decide (j' = j)) as [->|Hne].
  - apply list_lookup_insert_eq. rewrite length_foldr_insert. exact Hlt.
  - rewrite list_lookup_insert_ne by exact Hne.
    apply IH. apply elem_of_cons in Hin as [Heq|Hin]; [congruence|exact Hin].
Qed.

Lemma lookup_foldr_insert_out {A} (v : A) (l : list A) (ps : list nat) i :
  i ∉ ps -> foldr (fun j cells => <[j := v]> cells) l ps !! i = l !! i.
Proof.
  intros Hout. induction ps as [|j' ps IH]; [reflexivity|]. cbn [foldr].
  rewrite list_lookup_insert_ne by (intros ->; apply Hout; left).
  apply IH. intros Hin. apply Hout. right. exact Hin.
Qed.

Lemma assign_rectangular c vs d : rectangular d -> rectangular (assign c vs d).
Proof.
  unfold rectangular, assign. intros Hd.
  destruct (positions c d) as [|i ps]; cbn [columns rows append_column write_at].
  - eapply (Forall_zip_with_both _ _ (fun _ => True)); [exact Hd| |].
    + apply Forall_forall. auto.
    + intros r v Hr _. cbn [snd]. rewrite !length_app, Hr. reflexivity.
  - eapply (Forall_zip_with_both _ _ (fun _ => True)); [exact Hd| |].
    + apply Forall_forall. auto.
    + intros r v Hr _. cbn [snd].
      rewrite (length_foldr_insert v r.2 (i :: ps)). exact Hr.
Qed.

Lemma assign_all_text c vs d :
  all_text d -> Forall (fun c => exists s, c = Str s) vs -> all_text (assign c vs d).
Proof.
  unfold all_text, assign. intros Hd Hvs.
  destruct (positions c d) as [|i ps]; cbn [columns rows append_column write_at].
  - eapply Forall_zip_with_both; [exact Hd|exact Hvs|].
    intros r v Hr Hv. cbn [snd]. apply Forall_app. split; [exact Hr|].
    constructor; [exact Hv|constructor].
  - eapply Forall_zip_with_both; [exact Hd|exact Hvs|].
    intros r v Hr Hv. cbn [snd].
    generalize (i :: ps). intros qs. induction qs as [|j qs IH]; [exact Hr|].
    cbn [foldr]. apply Forall_insert; assumption.
Qed.

Lemma add_missing_rectangular (names : list str) (d : DataFrame) :
  rectangular d /\ all_text d ->
  rectangular (foldl (fun df c =>
                        if bool_decide (c ∈ columns df) then df
                        else setitem_scalar df c (Str [])) d names)
  /\ all_text (foldl (fun df c =>
                        if bool_decide (c ∈ columns df) then df
                        else setitem_scalar df c (Str [])) d names).
Proof.
  revert d. induction names as [|c ns IH]; intros d Hd; [exact Hd|]. cbn [foldl].
  apply IH. destruct (bool_decide (c ∈ columns d)); [exact Hd|].
  destruct Hd as [Hdr Hdt]. unfold setitem_scalar. split.
  - apply assign_rectangular, Hdr.
  - apply assign_all_text; [exact Hdt|]. apply Forall_forall. intros x Hx.
    change (map ?f ?l) with (f <$> l) in Hx.
    apply list_elem_of_fmap in Hx as (? & -> & _). eauto.
Qed.

Lemma with_canonical_columns_rectangular d0 :
  rectangular d0 -> all_text d0 ->
  rectangular (with_canonical_columns d0) /\ all_text (with_canonical_columns d0).
Proof.
  intros Hr Ht. unfold with_canonical_columns. cbv zeta.
  apply add_missing_rectangular. split.
  - unfold rectangular, rename in *. cbn [columns rows].
    rewrite !length_map. exact Hr.
  - exact Ht.
Qed.

Lemma cell_at_text (d : DataFrame) r j :
  rectangular d -> all_text d -> r ∈ rows d -> (j < length (columns d))%nat ->
  exists s, cell_at j r = Str s.
Proof.
  intros Hr Ht Hin Hj. unfold rectangular, all_text in *.
  rewrite Forall_forall in Hr, Ht. specialize (Hr r Hin). specialize (Ht r Hin).
  unfold cell_at. destruct (r.2 !! j) as [c|] eqn:Hc.
  - rewrite Forall_forall in Ht. apply Ht. eapply list_elem_of_lookup_2, Hc.
  - apply lookup_ge_None in Hc. lia.
Qed.

Lemma position_lt c d j : j ∈ positions c d -> (j < length (columns d))%nat.
Proof. intros Hj%positions_elem. eapply lookup_lt_Some, Hj. Qed.

Lemma rows_assign_column (d : DataFrame) c (g : row -> cell) :
  rows (assign c (map g (rows d)) d)
  = map (fun r => match positions c d with
                  | [] => (r.1, r.2 ++ [g r])
                  | ps => (r.1, foldr (fun j cells => <[j := g r]> cells) r.2 ps)
                  end) (rows d).
Proof.
  unfold assign. destruct (positions c d) as [|i ps];
    cbn [rows append_column write_at]; change (map ?f ?l) with (f <$> l);
    rewrite zip_with_fmap_r, zip_with_diag; reflexivity.
Qed.

(** After the raw copy, the Valor_raw columns repeat the Valor column. *)
Lemma raw_copy (d3 : DataFrame) i :
  rectangular d3 -> positions Valor d3 = [i] ->
  Forall (fun r4 => forall j, j ∈ positions Valor_raw (assign Valor_raw (column_at i d3) d3) ->
                      cell_at j r4 = cell_at i r4)
         (rows (assign Valor_raw (column_at i d3) d3)).
Proof.
  intros Hrect Hp. unfold column_at. rewrite rows_assign_column.
  assert (i < length (columns d3))%nat as Hi
    by (apply (position_lt Valor); rewrite Hp; left).
  assert (Valor <> Valor_raw) as Hlab by (intros Heq; vm_compute in Heq; discriminate).
  apply Forall_forall. intros r4 Hr4. change (map ?f ?l) with (f <$> l) in Hr4.
  apply list_elem_of_fmap in Hr4 as (r & -> & Hr).
  unfold rectangular in Hrect. rewrite Forall_forall in Hrect.
  pose proof (Hrect r Hr) as Hlen.
  intros j Hj. unfold positions in Hj. rewrite columns_assign in Hj.
  fold (cell_at i r) in *.
  destruct (positions Valor_raw d3) as [|p ps] eqn:Hraw.
  - rewrite bool_decide_true in Hj by reflexivity.
    rewrite positions_from_app in Hj. fold (positions Valor_raw d3) in Hj.
    rewrite Hraw in Hj. cbn [app positions_from] in Hj.
    unfold str_eqb in Hj. rewrite bool_decide_true in Hj by reflexivity.
    apply list_elem_of_singleton in Hj as ->. cbn [Nat.add].
    rewrite <- Hlen. rewrite cell_at_appended.
    symmetry. apply cell_at_extended. lia.
  - rewrite bool_decide_false in Hj by discriminate.
    fold (positions Valor_raw d3) in Hj. rewrite Hraw in Hj.
    assert (j < length r.2)%nat as Hjlt
      by (rewrite Hlen; apply (position_lt Valor_raw); rewrite Hraw; exact Hj).
    assert (i ∉ p :: ps) as Hout.
    { intros Hin. apply Hlab.
      assert (columns d3 !! i = Some Valor) as H1
        by (apply positions_elem; rewrite Hp; left).
      assert (columns d3 !! i = Some Valor_raw) as H2
        by (apply positions_elem; rewrite Hraw; exact Hin).
      congruence. }
    pose proof (lookup_foldr_insert_in (cell_at i r) r.2 (p :: ps) j Hj Hjlt) as Hl1.
    pose proof (lookup_foldr_insert_out (cell_at i r) r.2 (p :: ps) i Hout) as Hl2.
    unfold cell_at in *. cbn [snd]. rewrite Hl1, Hl2. reflexivity.
Qed.

(** X18: in every table the reader returns, Valor_raw holds text and the
    Valor cell of a row is the number the parser reads from the Valor_raw
    cell of that row. *)
Theorem read_bs2_csv_valor (b : bytes) (df : DataFrame) :
  read_bs2_csv b = Ok df ->
  Forall (fun r => forall p q,
            columns df !! p = Some Valor -> columns df !! q = Some Valor_raw ->
            exists s, cell_at q r = Str s
                      /\ cell_at p r = Num (to_numeric (clean_text s)))
         (rows df).
Proof.
  intros Hread.
  apply read_bs2_csv_inv in Hread as [[_ ->]|(text & d0 & _ & Hcsv & Hfin)];
    [constructor|].
  apply read_csv_rectangular in Hcsv as [Hr0 Ht0].
  destruct (with_canonical_columns_rectangular d0 Hr0 Ht0) as [Hr3 Ht3].
  apply finish_columns_inv in Hfin as (i & Hp & Hsel).
  remember (with_canonical_columns d0) as d3 eqn:Hd3. clear Hd3 Hr0 Ht0 d0.
  assert (i < length (columns d3))%nat as Hi
    by (apply (position_lt Valor); rewrite Hp; left).
  assert (Forall (fun c => exists s, c = Str s) (column_at i d3)) as Hcol.
  { apply Forall_forall. intros c Hc. unfold column_at in Hc.
    change (map ?f ?l) with (f <$> l) in Hc.
    apply list_elem_of_fmap in Hc as (r & -> & Hr).
    exact (cell_at_text d3 r i Hr3 Ht3 Hr Hi). }
  pose proof (raw_copy d3 i Hr3 Hp) as Hcopy.
  pose proof (assign_rectangular Valor_raw (column_at i d3) d3 Hr3) as Hr4.
  pose proof (assign_all_text Valor_raw (column_at i d3) d3 Ht3 Hcol) as Ht4.
  assert (positions Valor (assign Valor_raw (column_at i d3) d3) = [i]) as Hp4
    by (rewrite positions_assign_other by discriminate; exact Hp).
  remember (assign Valor_raw (column_at i d3) d3) as d4 eqn:Hd4.
  clear Hd4 Hcol Hr3 Ht3 Hp Hi d3.
  assert (i < length (columns d4))%nat as Hi
    by (apply (position_lt Valor); rewrite Hp4; left).
  apply select_inv in Hsel as [_ ->]. cbn [columns rows].
  apply Forall_forall. intros r Hr p q Hcp Hcq.
  change (map ?f ?l) with (f <$> l) in Hr.
  apply list_elem_of_fmap in Hr as (r5 & -> & Hr5).
  apply lookup_labelled in Hcp as (i' & Hpi & Hin).
  apply lookup_labelled in Hcq as (j & Hqj & Hjn).
  rewrite (positions_assign_same Valor _ d4 i [] Hp4) in Hin.
  apply list_elem_of_singleton in Hin as ->.
  rewrite positions_assign_other in Hjn
    by (intros Heq; vm_compute in Heq; discriminate).
  rewrite (cell_at_project _ r5 p i Hpi), (cell_at_project _ r5 q j Hqj).
  unfold column_at in Hr5. rewrite clean_val_map, map_map in Hr5.
  rewrite rows_assign_column, Hp4 in Hr5.
  change (map ?f ?l) with (f <$> l) in Hr5.
  apply list_elem_of_fmap in Hr5 as (r4 & -> & Hr4in).
  cbn [foldr].
  assert (length r4.2 = length (columns d4)) as Hlen.
  { unfold rectangular in Hr4. rewrite Forall_forall in Hr4. exact (Hr4 r4 Hr4in). }
  rewrite Forall_forall in Hcopy. pose proof (Hcopy r4 Hr4in j Hjn) as Hsame.
  assert (j <> i) as Hji.
  { intros ->. apply positions_elem in Hjn.
    assert (columns d4 !! i = Some Valor) as H1
      by (apply positions_elem; rewrite Hp4; left).
    rewrite Hjn in H1. injection H1 as H1. vm_compute in H1. discriminate. }
  destruct (cell_at_text d4 r4 i Hr4 Ht4 Hr4in Hi) as [s Hs].
  exists s. split.
  - unfold cell_at at 1. cbn [snd]. rewrite list_lookup_insert_ne by congruence.
    fold (cell_at j r4). rewrite Hsame. exact Hs.
  - unfold cell_at at 1. cbn [snd]. rewrite list_lookup_insert_eq by lia.
    cbn [default]. rewrite Hs. reflexivity.
Qed.
End ValorRaw.

(* ===================================================================== *)
(** ** One row per record *)
(* ===================================================================== *)

Section RowCount.
Context `{!Runtime}.





End RowCount.

(* ===================================================================== *)
(** ** The cells outside Valor are text *)
(* ===================================================================== *)

Section TextCells.
Context `{!Runtime}.

(** The cells outside Valor. *)
Lemma reader_text_cells (b : bytes) (df : DataFrame) :
  read_bs2_csv b = Ok df ->
  Forall (fun r => forall p c,
            columns df !! p = Some c -> c <> Valor ->
            exists s, cell_at p r = Str s)
         (rows df).
Proof.
  intros Hread.
  apply read_bs2_csv_inv in Hread as [[_ ->]|(text & d0 & _ & Hcsv & Hfin)];
    [constructor|].
  apply read_csv_rectangular in Hcsv as [Hr0 Ht0].
  destruct (with_canonical_columns_rectangular d0 Hr0 Ht0) as [Hr3 Ht3].
  apply finish_columns_inv in Hfin as (i & Hp & Hsel).
  remember (with_canonical_columns d0) as d3 eqn:Hd3. clear Hd3 Hr0 Ht0 d0.
  assert (i < length (columns d3))%nat as Hi
    by (apply (position_lt Valor); rewrite Hp; left).
  assert (Forall (fun c => exists s, c = Str s) (column_at i d3)) as Hcol.
  { apply Forall_forall. intros c Hc. unfold column_at in Hc.
    change (map ?f ?l) with (f <$> l) in Hc.
    apply list_elem_of_fmap in Hc as (r & -> & Hr).
    exact (cell_at_text d3 r i Hr3 Ht3 Hr Hi). }
  pose proof (assign_rectangular Valor_raw (column_at i d3) d3 Hr3) as Hr4.
  pose proof (assign_all_text Valor_raw (column_at i d3) d3 Ht3 Hcol) as Ht4.
  assert (positions Valor (assign Valor_raw (column_at i d3) d3) = [i]) as Hp4
    by (rewrite positions_assign_other by discriminate; exact Hp).
  remember (assign Valor_raw (column_at i d3) d3) as d4 eqn:Hd4.
  clear Hd4 Hcol Hr3 Ht3 Hp Hi d3.
  apply select_inv in Hsel as [_ ->]. cbn [columns rows].
  apply Forall_forall. intros r Hr p c Hcp Hcv.
  change (map ?f ?l) with (f <$> l) in Hr.
  apply list_elem_of_fmap in Hr as (r5 & -> & Hr5).
  apply lookup_labelled in Hcp as (j & Hpj & Hjn).
  rewrite positions_assign_other in Hjn by exact Hcv.
  rewrite (cell_at_project _ r5 p j Hpj).
  unfold column_at in Hr5. rewrite clean_val_map, map_map in Hr5.
  rewrite rows_assign_column, Hp4 in Hr5.
  change (map ?f ?l) with (f <$> l) in Hr5.
  apply list_elem_of_fmap in Hr5 as (r4 & -> & Hr4in).
  cbn [foldr].
  assert (j <> i) as Hji.
  { intros ->. apply positions_elem in Hjn.
    assert (columns d4 !! i = Some Valor) as H1
      by (apply positions_elem; rewrite Hp4; left).
    congruence. }
  unfold cell_at. cbn [snd]. rewrite list_lookup_insert_ne by congruence.
  apply (cell_at_text d4 r4 j Hr4 Ht4 Hr4in). eapply position_lt, Hjn.
Qed.

(** X22: in every table the reader returns, the cells of the columns
    other than Valor are text: dates, types, details, identifiers, notes
    and the raw value are never parsed or replaced by a missing value. *)
Theorem read_bs2_csv_text (b : bytes) (df : DataFrame) :
  read_bs2_csv b = Ok df ->
  Forall (fun r => forall p c,
            columns df !! p = Some c -> c <> Valor ->
            exists s, cell_at p r = Str s)
         (rows df).
Proof. apply reader_text_cells. Qed.
End TextCells.

(* ===================================================================== *)
(** ** The consolidated table is well formed *)
(* ===================================================================== *)

Section WellFormed.
Context `{!Runtime}.

Lemma zip_traverse {A B} (f : A -> result B) (g : A -> str) (l : list A) (bs : list B) nd :
  Forall2 (fun a b => f a = Ok b) l bs ->
  nd ∈ zip (map g l) bs ->
  exists a, a ∈ l /\ nd.1 = g a /\ f a = Ok nd.2.
Proof.
  induction 1 as [|a b l bs Hab _ IH]; cbn [map zip zip_with]; [inversion 1|].
  intros [->|Hin]%elem_of_cons.
  - exists a. split; [left|]. split; [reflexivity|exact Hab].
  - destruct (IH Hin) as (a' & Ha' & Hrest). exists a'. split; [right; exact Ha'|exact Hrest].
Qed.

(** The rows of a consolidation in which no file has two columns of one
    canonical name. *)
Lemma consolidate_rows (files : list (str * bytes)) (df : DataFrame) :
  consolidate files = Ok df -> rows df <> [] ->
  Forall (fun f => forall d, read_bs2_csv f.2 = Ok d ->
                   d = no_frame \/ columns d = canonical_columns) files ->
  columns df = canonical_columns ++ [Arquivo]
  /\ Forall consolidated_row (rows df)
  /\ Forall (fun r => exists f, f ∈ files /\ cell_at 7 r = Str f.1) (rows df)
  /\ Forall (fun r => exists s, cell_at 0 r = Str s) (rows df).
Proof.
  intros Hcons Hrows Hfiles. unfold consolidate in Hcons.
  rewrite consolidate_loop in Hcons. unfold mbind, result_bind in Hcons.
  destruct (traverse _ files) as [dfs|e] eqn:Htr; [|discriminate].
  apply traverse_inv in Htr. rewrite app_nil_l in Hcons.
  set (surviving := filter nonempty (zip (map fst files) dfs)) in *.
  assert (Forall (fun nd => exists f, f ∈ files /\ nd.1 = f.1
                            /\ read_bs2_csv f.2 = Ok nd.2
                            /\ columns nd.2 = canonical_columns) surviving) as Hsurv.
  { apply Forall_forall. intros nd Hnd.
    apply list_elem_of_filter in Hnd as [Hne Hnd].
    destruct (zip_traverse _ fst files dfs nd Htr Hnd) as (f & Hf & Hname & Hread).
    exists f. split; [exact Hf|]. split; [exact Hname|]. split; [exact Hread|].
    rewrite Forall_forall in Hfiles.
    destruct (Hfiles f Hf _ Hread) as [Hno|Hc]; [|exact Hc].
    unfold nonempty in Hne. rewrite Hno in Hne. discriminate. }
  assert (map stamp surviving
          = map (mkDF (canonical_columns ++ [Arquivo])) (map stamped_rows surviving))
    as Hstamp.
  { rewrite map_map. apply map_ext_in. intros nd Hnd%list_elem_of_In.
    apply stamp_canonical. rewrite Forall_forall in Hsurv.
    destruct (Hsurv nd Hnd) as (_ & _ & _ & _ & Hc). exact Hc. }
  destruct surviving as [|nd rest] eqn:Hs.
  { injection Hcons as <-. contradiction. }
  rewrite Hstamp, concat_frames_same in Hcons by discriminate.
  injection Hcons as <-. cbn [columns rows]. split; [reflexivity|].
  assert (Forall (fun r => consolidated_row r
                           /\ (exists f, f ∈ files /\ cell_at 7 r = Str f.1)
                           /\ exists s, cell_at 0 r = Str s)
                 (reindex (concat (map stamped_rows (nd :: rest))))) as Hall.
  { apply Forall_forall. intros r Hr. unfold reindex in Hr.
    apply elem_of_lookup_imap in Hr as (k & r1 & -> & Hr1).
    apply list_elem_of_lookup_2 in Hr1.
    apply list_elem_of_In, in_concat in Hr1 as (rs & Hrs & Hr1).
    apply in_map_iff in Hrs as (nd' & <- & Hnd').
    apply list_elem_of_In in Hnd'. rewrite Forall_forall in Hsurv.
    destruct (Hsurv nd' Hnd') as (f & Hf & Hname & Hread & Hc).
    unfold stamped_rows in Hr1. apply in_map_iff in Hr1 as (r0 & <- & Hr0).
    apply list_elem_of_In in Hr0. cbn [snd].
    destruct (reader_shape _ _ Hread) as [Hno|(_ & Hrect & Hnum)].
    { rewrite Hno in Hr0. inversion Hr0. }
    unfold rectangular in Hrect. rewrite Forall_forall in Hrect, Hnum.
    pose proof (Hrect r0 Hr0) as Hlen. rewrite Hc in Hlen.
    change (length canonical_columns) with 7%nat in Hlen.
    destruct (Hnum r0 Hr0 4%nat) as [x Hx]; [rewrite Hc; reflexivity|].
    assert (cell_at 7 (Pos k, r0.2 ++ [Str nd'.1]) = Str nd'.1) as H7.
    { unfold cell_at. cbn [snd]. rewrite <- Hlen, lookup_snoc. reflexivity. }
    split.
    - unfold consolidated_row. cbn [snd]. split; [|split].
      + rewrite length_app, Hlen. reflexivity.
      + exists x. rewrite <- Hx. unfold cell_at. cbn [snd].
        rewrite lookup_app_l by (rewrite Hlen; lia). reflexivity.
      + exists nd'.1. exact H7.
    - split; [exists f; split; [exact Hf|]; rewrite H7, Hname; reflexivity|].
      pose proof (reader_text_cells _ _ Hread) as Htext.
      rewrite Forall_forall in Htext.
      destruct (Htext r0 Hr0 0%nat Data) as [s Hdata];
        [rewrite Hc; reflexivity|intros Heq; vm_compute in Heq; discriminate|].
      exists s. rewrite <- Hdata. unfold cell_at. cbn [snd].
      rewrite lookup_app_l by (rewrite Hlen; lia). reflexivity. }
  split; [|split]; eapply Forall_impl; try exact Hall; intros r (H1 & H2 & H3); assumption.
Qed.

(** X20: when no file of the session has two columns of one canonical
    name, a consolidated table with rows has the seven canonical columns
    followed by Arquivo, every row has eight cells with a number or NaN as
    Valor and text as Data, and the Arquivo cell is the name of one of the
    files. *)
Theorem consolidate_well_formed (files : list (str * bytes)) (df : DataFrame) :
  consolidate files = Ok df -> rows df <> [] ->
  Forall (fun f => forall d, read_bs2_csv f.2 = Ok d ->
                   d = no_frame \/ columns d = canonical_columns) files ->
  columns df = canonical_columns ++ [Arquivo]
  /\ Forall consolidated_row (rows df)
  /\ Forall (fun r => exists f, f ∈ files /\ cell_at 7 r = Str f.1) (rows df)
  /\ Forall (fun r => exists s, cell_at 0 r = Str s) (rows df).
Proof. apply consolidate_rows. Qed.

(** X21: for such a session the summary per file does not raise, has its
    lines in ascending order of file name, each named after a file of the
    session, and the row counts of the lines add up to the number of rows
    of the consolidated table. *)
Theorem resumo_arquivo_of_consolidate (files : list (str * bytes)) (df : DataFrame) :
  consolidate files = Ok df -> rows df <> [] ->
  Forall (fun f => forall d, read_bs2_csv f.2 = Ok d ->
                   d = no_frame \/ columns d = canonical_columns) files ->
  exists res,
    resumo_arquivo df = Ok res
    /\ StronglySorted (fun a b => str_ltb a b = true) (map (fun l => l.1.1.1) res)
    /\ Forall (fun l => l.1.1.1 ∈ map fst files) res
    /\ sum_list (map (fun l => l.1.1.2) res) = length (rows df).
Proof.
  intros Hcons Hrows Hfiles.
  destruct (consolidate_rows files df Hcons Hrows Hfiles) as (Hcols & Hwf & Hnames & _).
  eexists. split; [apply resumo_arquivo_run; assumption|].
  rewrite !map_map. cbn [fst snd resumo_line]. split; [|split].
  - rewrite map_id. apply group_keys_sorted.
  - apply Forall_forall. intros l Hl. change (map ?f ?l) with (f <$> l) in Hl.
    apply list_elem_of_fmap in Hl as (k & -> & Hk). cbn [fst].
    apply group_keys_elem in Hk. unfold column_at in Hk.
    change (map ?f ?l) with (f <$> l) in Hk.
    apply list_elem_of_fmap in Hk as (r & Hr & Hin).
    rewrite Forall_forall in Hnames. destruct (Hnames r Hin) as (f & Hf & Hcell).
    rewrite Hcell in Hr. injection Hr as ->.
    change (map ?f ?l) with (f <$> l). apply list_elem_of_fmap. exists f. auto.
  - apply file_rows_partition.
    + apply sorted_keys_nodup, group_keys_sorted.
    + apply Forall_forall. intros r Hr.
      rewrite Forall_forall in Hwf. destruct (Hwf r Hr) as (_ & _ & name & Hname).
      exists name. split; [exact Hname|].
      apply group_keys_elem. rewrite <- Hname.
      unfold column_at. change (map ?f ?l) with (f <$> l).
      apply list_elem_of_fmap. exists r. split; [reflexivity|exact Hr].
Qed.
End WellFormed.

(* ===================================================================== *)
(** ** The processing block of the page *)
(* ===================================================================== *)

Section Page.
Context `{!Runtime}.

Lemma empty_rows d : rows d = [] -> empty d = true.
Proof. unfold empty. intros ->. destruct (columns d); reflexivity. Qed.

Lemma detail_sheet_empty (h : heap) sub d name :
  h !! sub = Some d -> empty d = true ->
  detail_sheet sub name h = (Ok (mkSheet name detail_columns []), h).
Proof.
  intros Hsub He. rewrite (detail_sheet_eq h sub d name Hsub), He. reflexivity.
Qed.

(** The two detail sheets of subsets whose dates are text: a workbook, or
    an exception of the writer, and a workbook when the subsets fit a
    sheet and every cell can be written. *)
Lemma to_excel_bytes_outcome x y devol tarifa (h : heap) d t :
  h !! devol = Some d -> h !! tarifa = Some t -> devol <> tarifa ->
  positions Data d = [0%nat] -> positions Data t = [0%nat] ->
  Forall (fun r => exists s, cell_at 0 r = Str s) (rows d) ->
  Forall (fun r => exists s, cell_at 0 r = Str s) (rows t) ->
  ((exists wb, (to_excel_bytes x y devol tarifa h).1 = Ok wb /\ length wb = 3%nat)
   \/ (to_excel_bytes x y devol tarifa h).1 = Raise IllegalCharacterError
   \/ ((to_excel_bytes x y devol tarifa h).1 = Raise ValueError
       /\ ~ (fits_sheet (length (rows d)) (length (detail_positions d))
             /\ fits_sheet (length (rows t)) (length (detail_positions t)))))
  /\ (writable_rows (rows d) -> writable_rows (rows t) ->
      fits_sheet (length (rows d)) (length (detail_positions d)) ->
      fits_sheet (length (rows t)) (length (detail_positions t)) ->
      exists wb, (to_excel_bytes x y devol tarifa h).1 = Ok wb).
Proof.
  intros Hd Ht Hne Hpd Hpt Htd Htt.
  assert (forall rs : list row,
            Forall (fun r => exists s, cell_at 0 r = Str s) rs ->
            Forall (fun r => text_or_missing (cell_at 0 r)) rs) as Htext.
  { intros rs Hrs. eapply Forall_impl; [exact Hrs|]. intros r [s ->]. exact I. }
  destruct (to_excel_bytes_sorted h devol tarifa d t 0 0 x y Hd Ht Hne
              Hpd (Htext _ Htd) Hpt (Htext _ Htt))
    as (sd & st & _ & _ & Herr & Hwb & Hok).
  split; [|exact Hok].
  destruct (to_excel_bytes x y devol tarifa h).1 as [wb|e].
  - left. exists wb. split; [reflexivity|].
    destruct (Hwb wb eq_refl) as (s0 & s1 & s2 & -> & _). reflexivity.
  - right. destruct (Herr e eq_refl) as [->|[-> Hno]]; [left; reflexivity|].
    right. split; [reflexivity|exact Hno].
Qed.

(** A subset of a consolidated table with fewer rows than a sheet fits a
    sheet: seven of its columns are shown. *)
Lemma subset_fits_sheet (all : DataFrame) (rs : list row) :
  columns all = canonical_columns ++ [Arquivo] ->
  (length rs <= length (rows all))%nat ->
  (Z.of_nat (length (rows all)) < max_rows)%Z ->
  fits_sheet (length rs) (length (detail_positions (mkDF (columns all) rs))).
Proof.
  intros Hcols Hlen Hall. split; [lia|].
  unfold detail_positions, positions. cbn [columns]. rewrite Hcols.
  vm_compute. discriminate.
Qed.

(** X23: for a session in which no file has two columns of one canonical
    name and the consolidation succeeds, the processing block either
    returns the consolidated table with the totals, the summary per file
    (none when the table has no row) and a workbook of three sheets, or
    raises an exception of the workbook writer: its IllegalCharacterError
    or, only when the table has at least as many rows as a sheet, a
    ValueError. No other step of it raises. It returns when the table has
    fewer rows than a sheet and no cell of it holds a character the
    writer refuses. *)
Theorem processamento_outcome (files : list (str * bytes)) (all : DataFrame) :
  consolidate files = Ok all ->
  Forall (fun f => forall d, read_bs2_csv f.2 = Ok d ->
                   d = no_frame \/ columns d = canonical_columns) files ->
  ((exists tt td resumo wb,
      (processamento files []).1 = Ok (0%nat, tt, td, resumo, wb)
      /\ length wb = 3%nat
      /\ (rows all = [] -> tt = F64.zero /\ td = F64.zero /\ resumo = None)
      /\ (rows all <> [] -> resumo_arquivo all = Ok (default [] resumo)
                            /\ resumo <> None))
   \/ (processamento files []).1 = Raise IllegalCharacterError
   \/ ((processamento files []).1 = Raise ValueError
       /\ (max_rows <= Z.of_nat (length (rows all)))%Z))
  /\ (writable_rows (rows all) ->
      (Z.of_nat (length (rows all)) < max_rows)%Z ->
      exists res, (processamento files []).1 = Ok res).
Proof.
  intros Hcons Hfiles.
  destruct (processamento files []) as [res hf] eqn:Hrun. cbn [fst].
  unfold processamento in Hrun.
  rewrite run_bind in Hrun. unfold lift at 1 in Hrun. rewrite Hcons in Hrun.
  cbv beta iota in Hrun.
  rewrite run_bind in Hrun. unfold alloc at 1 in Hrun. cbv beta iota in Hrun.
  cbn [length app] in Hrun. rewrite run_bind in Hrun.
  rewrite (filter_and_totals_run [all] 0 all eq_refl) in Hrun.
  destruct (rows all) as [|r0 rs0] eqn:Hrows.
  - rewrite (empty_rows all Hrows) in Hrun. cbv beta iota zeta in Hrun.
    cbn [length app] in Hrun.
    rewrite run_bind, (load_run [all; all; all] 0 all eq_refl) in Hrun.
    cbv beta iota in Hrun.
    rewrite (empty_rows all Hrows) in Hrun. unfold negb in Hrun. cbv iota in Hrun.
    rewrite run_bind in Hrun. unfold mret at 1, M_ret at 1 in Hrun.
    cbv beta iota in Hrun.
    rewrite run_bind, to_excel_bytes_run in Hrun.
    rewrite (detail_sheet_empty [all; all; all] 2 all _ eq_refl (empty_rows all Hrows))
      in Hrun.
    rewrite (detail_sheet_empty [all; all; all] 1 all _ eq_refl (empty_rows all Hrows))
      in Hrun.
    cbv beta iota in Hrun. injection Hrun as <- <-.
    split; [|intros _ _; eexists; reflexivity].
    left. do 4 eexists. split; [reflexivity|].
    split; [reflexivity|]. split; [auto|]. intros Hne. contradiction.
  - assert (rows all <> []) as Hne by (rewrite Hrows; discriminate).
    destruct (consolidate_rows files all Hcons Hne Hfiles) as (Hcols & Hwf & _ & Hdata).
    rewrite <- Hrows in *. clear Hrows r0 rs0.
    assert (empty all = false) as He.
    { unfold empty. rewrite Hcols. destruct (rows all); [contradiction|reflexivity]. }
    rewrite He in Hrun.
    rewrite (get_series_unique all Tipo 1) in Hrun
      by (unfold positions; rewrite Hcols; vm_compute; reflexivity).
    rewrite !getmask_type_mask in Hrun. cbv zeta in Hrun.
    set (fees := filter (matches tarifa_label 1) (rows all)) in *.
    set (refunds := filter (matches devol_label 1) (rows all)) in *.
    assert (forall rs : list row, Forall consolidated_row rs ->
              total_pure (mkDF (columns all) rs) = Ok (sum_present 4 rs)) as Htot.
    { intros rs Hrs. apply total_pure_numeric.
      - unfold positions. cbn [columns]. rewrite Hcols. vm_compute. reflexivity.
      - eapply Forall_impl; [exact Hrs|]. intros r (_ & Hx & _). exact Hx. }
    rewrite !Htot in Hrun by (apply Forall_filter_weaken; exact Hwf).
    unfold mbind at 1 2, result_bind at 1 2 in Hrun. cbv beta iota zeta in Hrun.
    cbn [length app] in Hrun.
    set (h1 := [all; mkDF (columns all) fees; mkDF (columns all) fees;
                mkDF (columns all) refunds; mkDF (columns all) refunds]) in *.
    rewrite run_bind, (load_run h1 0 all eq_refl) in Hrun. cbv beta iota in Hrun.
    rewrite He in Hrun. unfold negb in Hrun. cbv iota in Hrun.
    rewrite run_bind, run_bind in Hrun. unfold lift at 1 in Hrun.
    rewrite (resumo_arquivo_run all Hcols Hwf) in Hrun. cbv beta iota in Hrun.
    unfold mret at 1, M_ret at 1 in Hrun. cbv beta iota in Hrun.
    rewrite run_bind in Hrun.
    assert (forall rs : list row,
              positions Data (mkDF (columns all) rs) = [0%nat]) as Hpos.
    { intros rs. unfold positions. cbn [columns]. rewrite Hcols. vm_compute. reflexivity. }
    assert ((Z.of_nat (length (rows all)) < max_rows)%Z ->
            fits_sheet (length (rows (mkDF (columns all) refunds)))
              (length (detail_positions (mkDF (columns all) refunds)))
            /\ fits_sheet (length (rows (mkDF (columns all) fees)))
                 (length (detail_positions (mkDF (columns all) fees)))) as Hfit.
    { intros Hsmall. split; cbn [rows]; apply subset_fits_sheet;
        [exact Hcols|apply length_filter|exact Hsmall
        |exact Hcols|apply length_filter|exact Hsmall]. }
    destruct (to_excel_bytes_outcome (sum_present 4 fees) (sum_present 4 refunds)
                4 2 h1 (mkDF (columns all) refunds) (mkDF (columns all) fees)
                eq_refl eq_refl ltac:(discriminate) (Hpos _) (Hpos _)
                ltac:(apply Forall_filter_weaken; exact Hdata)
                ltac:(apply Forall_filter_weaken; exact Hdata))
      as [Hcases Hreturns].
    destruct (to_excel_bytes _ _ 4 2 h1) as [rwb h2]. cbn [fst] in Hcases, Hreturns.
    destruct Hcases as [(wb & -> & Hlen)|[->|[-> Hno]]].
    + cbv beta iota in Hrun. injection Hrun as <- <-.
      split; [|intros _ _; eexists; reflexivity].
      left. do 4 eexists. split; [reflexivity|].
      split; [exact Hlen|]. split; [intros Hnil; contradiction|].
      intros _. split; [apply resumo_arquivo_run; assumption|discriminate].
    + injection Hrun as <- <-. split; [right; left; reflexivity|].
      intros Hw Hsmall. destruct (Hfit Hsmall) as [Hfr Hff].
      destruct (Hreturns ltac:(cbn [rows]; apply Forall_filter_weaken; exact Hw)
                         ltac:(cbn [rows]; apply Forall_filter_weaken; exact Hw)
                         Hfr Hff) as [wb Hwb].
      discriminate Hwb.
    + injection Hrun as <- <-. split.
      * right. right. split; [reflexivity|].
        destruct (Z.lt_ge_cases (Z.of_nat (length (rows all))) max_rows) as [Hsmall|Hbig];
          [|exact Hbig].
        exfalso. apply Hno, Hfit, Hsmall.
      * intros _ Hsmall. exfalso. apply Hno, Hfit, Hsmall.
Qed.
End Page.

(* ===================================================================== *)
(** ** Normalised text carries no surrounding whitespace *)
(* ===================================================================== *)

Section Normalise.
Context `{!Runtime}.

Lemma lstrip_fixed c s : isspace c = false -> lstrip (c :: s) = c :: s.
Proof. intros Hc. cbn [lstrip]. rewrite Hc. reflexivity. Qed.

Lemma lstrip_cases s :
  lstrip s = [] \/ exists c t, lstrip s = c :: t /\ isspace c = false.
Proof.
  induction s as [|c s IH]; [left; reflexivity|]. cbn [lstrip].
  destruct (isspace c) eqn:Hc; [exact IH|right; eauto].
Qed.

Lemma lstrip_snoc s c : isspace c = false -> lstrip (s ++ [c]) = lstrip s ++ [c].
Proof.
  intros Hc. induction s as [|x s IH]; cbn [app lstrip]; [rewrite Hc; reflexivity|].
  destruct (isspace x); [exact IH|reflexivity].
Qed.

Lemma lstrip_idempotent s : lstrip (lstrip s) = lstrip s.
Proof.
  destruct (lstrip_cases s) as [->|(c & t & -> & Hc)]; [reflexivity|].
  apply lstrip_fixed, Hc.
Qed.

Lemma strip_form s c t :
  lstrip s = c :: t -> isspace c = false -> strip s = c :: rev (lstrip (rev t)).
Proof.
  intros Hs Hc. unfold strip. rewrite Hs. cbn [rev].
  rewrite (lstrip_snoc (rev t) c Hc), rev_app_distr. reflexivity.
Qed.

Lemma strip_idempotent s : strip (strip s) = strip s.
Proof.
  destruct (lstrip_cases s) as [Hnil|(c & t & Ht & Hc)].
  - unfold strip at 2 3. rewrite Hnil. reflexivity.
  - rewrite (strip_form s c t Ht Hc).
    rewrite (strip_form _ c (rev (lstrip (rev t))) (lstrip_fixed c _ Hc) Hc).
    rewrite rev_involutive, lstrip_idempotent. reflexivity.
Qed.

(** X24: the normalised text of a missing value is empty, and normalised
    text never starts or ends with whitespace: stripping it again, at
    either end, changes nothing. *)
Theorem normalize_text_stripped (s : option cell) :
  normalize_text None = []
  /\ strip (normalize_text s) = normalize_text s
  /\ lstrip (normalize_text s) = normalize_text s.
Proof.
  split; [reflexivity|]. destruct s as [c|]; [|split; reflexivity].
  unfold normalize_text. split; [apply strip_idempotent|].
  set (a := lower _).
  destruct (lstrip_cases a) as [Hnil|(x & t & Ht & Hx)].
  - unfold strip. rewrite Hnil. reflexivity.
  - rewrite (strip_form a x t Ht Hx). apply lstrip_fixed, Hx.
Qed.
End Normalise.

(* ===================================================================== *)
(** ** The further properties at concrete inputs *)
(* ===================================================================== *)

Section MoreInstances.
Local Open Scope Z_scope.

Lemma read_file_regular :
  @read_bs2_csv ascii_runtime file_regular = Ok table_regular.
Proof. vm_compute. reflexivity. Qed.

Lemma read_file_no_header :
  @read_bs2_csv ascii_runtime file_no_header = Ok no_frame.
Proof. vm_compute. reflexivity. Qed.

Lemma consolidate_files_two :
  @consolidate ascii_runtime files_two = Ok table_consolidated.
Proof. vm_compute. reflexivity. Qed.

Lemma files_two_no_collision :
  Forall (fun f => forall d, @read_bs2_csv ascii_runtime f.2 = Ok d ->
                   d = no_frame \/ columns d = canonical_columns) files_two.
Proof.
  unfold files_two. constructor; [|constructor; [|constructor]]; intros d; cbn [snd].
  - rewrite read_file_regular. intros [= <-]. right. reflexivity.
  - rewrite read_file_no_header. intros [= <-]. left. reflexivity.
Qed.

Lemma table_consolidated_rows : Forall consolidated_row (rows table_consolidated).
Proof.
  repeat constructor; cbn [cell_at]; eexists; reflexivity.
Qed.

(** Two uploads of one file into an empty session are both added. *)
Lemma add_files_all_new_witness :
  add_files [] [(py "a.csv", file_regular); (py "a.csv", file_regular)]
  = ([] ++ [(py "a.csv", file_regular); (py "a.csv", file_regular)], 2%nat).
Proof.
  apply (add_files_all_new [] [(py "a.csv", file_regular); (py "a.csv", file_regular)]).
  repeat constructor; apply not_elem_of_empty.
Defined.

(** A file of the same name and length, the bytes reversed, is not added. *)
Lemma add_files_same_key_witness :
  add_files [(py "a.csv", file_regular)] [(py "a.csv", rev file_regular)]
  = ([(py "a.csv", file_regular)], 0%nat).
Proof.
  apply (add_files_same_key [(py "a.csv", file_regular)] (py "a.csv")
           file_regular (rev file_regular)).
  - apply list_elem_of_here.
  - apply length_rev.
Defined.

(** No bytes, no guess: utf-8. *)
Lemma detect_encoding_cases_witness :
  @detect_encoding ascii_runtime [] = py "utf-8".
Proof.
  apply (proj1 (proj2 (@detect_encoding_cases ascii_runtime []))).
  - reflexivity.
  - left. reflexivity.
  - reflexivity.
Defined.

(** A preamble line, then the header. *)
Lemma find_header_first_witness :
  exists line,
    [py "BS2 extrato"; py " DATA;Valor"] !! 1%nat = Some line
    /\ startswith (py "data;") (@lower ascii_runtime (strip line)) = true
    /\ Forall (fun l => startswith (py "data;") (@lower ascii_runtime (strip l)) = false)
         (take 1 [py "BS2 extrato"; py " DATA;Valor"]).
Proof.
  apply (proj1 (@find_header_first ascii_runtime [py "BS2 extrato"; py " DATA;Valor"])).
  vm_compute. reflexivity.
Defined.

Lemma consolidate_no_header_witness :
  Forall (fun f => @read_bs2_csv ascii_runtime f.2 = Ok no_frame)
         [(py "b.csv", file_no_header)]
  /\ @consolidate ascii_runtime [(py "b.csv", file_no_header)]
     = Ok (empty_with [Arquivo; Data; Tipo; Detalhe; Identificador; Valor;
                       Observacao; Valor_raw]).
Proof.
  apply (@consolidate_no_header ascii_runtime [(py "b.csv", file_no_header)]).
  repeat constructor. exists (py "nada"). split; vm_compute; reflexivity.
Defined.

Lemma consolidate_raises_witness :
  @consolidate ascii_runtime
    ([(py "a.csv", file_regular)] ++ (py "b.csv", file_two_valor)
       :: [(py "c.csv", file_regular)])
  = Raise ValueError.
Proof.
  apply (@consolidate_raises ascii_runtime).
  - repeat constructor. exists table_regular. exact read_file_regular.
  - vm_compute. reflexivity.
Defined.

Lemma filter_and_totals_missing_columns_witness :
  (@filter_and_totals ascii_runtime 0%nat [table_type_only]).1 = Raise KeyError.
Proof.
  apply (proj2 (proj2 (@filter_and_totals_missing_columns ascii_runtime
                         [table_type_only] 0%nat table_type_only eq_refl eq_refl)
                  0%nat eq_refl eq_refl)).
  left. vm_compute. discriminate.
Defined.

Lemma to_excel_bytes_sheets_witness :
  exists s1 s2,
    returned (to_excel_bytes F64.zero F64.zero 0%nat 1%nat [table_dates; table_dates]).1 []
    = [mkSheet (py "Resumo Tarifa Pix") [py "Transação"; py "Valor Total (R$)"]
         [[Str (py "Total Tarifa Operações Pix"); Num (round2 F64.zero)];
          [Str (py "Total Devolução Recebida Pix"); Num (round2 F64.zero)]];
       s1; s2]
    /\ sheet_name s1 = py "Devolução Recebida Pix"
    /\ sheet_name s2 = py "Detalhe Tarifas Pix"
    /\ (forall d, [table_dates; table_dates] !! 0%nat = Some d -> empty d = true ->
          sheet_header s1 = detail_columns /\ sheet_rows s1 = [])
    /\ (forall t, [table_dates; table_dates] !! 1%nat = Some t -> empty t = true ->
          sheet_header s2 = detail_columns /\ sheet_rows s2 = []).
Proof.
  apply (to_excel_bytes_sheets F64.zero F64.zero 0%nat 1%nat [table_dates; table_dates]).
  vm_compute. reflexivity.
Defined.

(** Rows of one date keep the order they had: the second and third rows
    of [table_same_date] come out before the first, in that order. *)
Lemma sort_values_keeps_order :
  exists sd, sort_values table_same_date Data = Ok sd
             /\ map fst (rows sd) = [Pos 1; Pos 2; Pos 0].
Proof. eexists. split; vm_compute; reflexivity. Qed.

Lemma to_excel_bytes_sorts_in_place_witness :
  exists wb sd st,
    (to_excel_bytes F64.zero F64.zero 0%nat 1%nat [table_same_date; table_dates]).1
    = Ok wb
    /\ sorted_by_date 0 table_same_date sd /\ sorted_by_date 0 table_dates st
    /\ (to_excel_bytes F64.zero F64.zero 0%nat 1%nat [table_same_date; table_dates]).2
       = <[1%nat := st]> (<[0%nat := sd]> [table_same_date; table_dates]).
Proof.
  destruct (to_excel_bytes_sorts_in_place F64.zero F64.zero 0%nat 1%nat
              [table_same_date; table_dates] table_same_date table_dates 0%nat 0%nat)
    as [Hok _].
  - reflexivity.
  - reflexivity.
  - discriminate.
  - reflexivity.
  - reflexivity.
  - vm_compute. reflexivity.
  - repeat constructor.
  - vm_compute. reflexivity.
  - repeat constructor.
  - destruct (Hok (returned (to_excel_bytes F64.zero F64.zero 0%nat 1%nat
                               [table_same_date; table_dates]).1 [])
                  (to_excel_bytes F64.zero F64.zero 0%nat 1%nat
                     [table_same_date; table_dates]).2)
      as (sd & st & Hsd & Hst & Hh).
    + vm_compute. reflexivity.
    + exists (returned (to_excel_bytes F64.zero F64.zero 0%nat 1%nat
                          [table_same_date; table_dates]).1 []), sd, st.
      split; [vm_compute; reflexivity|]. split; [exact Hsd|]. split; [exact Hst|exact Hh].
Defined.

Lemma detail_sheet_exported_witness :
  exists sd,
    sorted_by_date 0 table_same_date sd
    /\ (detail_sheet 0 (py "Detalhe Tarifas Pix") [table_same_date]).2
       = <[0%nat := sd]> [table_same_date]
    /\ sheet_header
         (returned (detail_sheet 0 (py "Detalhe Tarifas Pix") [table_same_date]).1
                   (mkSheet [] [] []))
       = detail_columns
    /\ sheet_rows
         (returned (detail_sheet 0 (py "Detalhe Tarifas Pix") [table_same_date]).1
                   (mkSheet [] [] []))
       = map (fun r => [cell_at 7 r; cell_at 0 r; cell_at 1 r; cell_at 2 r;
                        cell_at 3 r; cell_at 4 r; cell_at 5 r]) (rows sd).
Proof.
  apply (detail_sheet_exported [table_same_date] 0%nat table_same_date
           (py "Detalhe Tarifas Pix")).
  - reflexivity.
  - reflexivity.
  - discriminate.
  - repeat constructor.
  - vm_compute. reflexivity.
Defined.

Lemma clean_val_trailing_minus_witness :
  sub_trailing_minus (py "0,45" ++ py "-") = py "-" ++ py "0,45"
  /\ @clean_val ascii_runtime [Str (py "0,45" ++ py "-")]
     = @clean_val ascii_runtime [Str (py "-" ++ py "0,45")].
Proof.
  apply (@clean_val_trailing_minus ascii_runtime (py "0,45")).
  - discriminate.
  - repeat constructor.
Defined.

Lemma clean_val_currency_witness :
  @clean_val ascii_runtime [Str (py "R$ " ++ join (py ".") [py "1"; py "234"]
                                 ++ py "," ++ py "56")]
  = [Num (F64.div (F64.of_Z (digits_value (concat [py "1"; py "234"] ++ py "56")))
            (F64.of_Z (10 ^ Z.of_nat (length (py "56")))))]
  /\ F64.is_finite (F64.div (F64.of_Z (digits_value (concat [py "1"; py "234"] ++ py "56")))
                      (F64.of_Z (10 ^ Z.of_nat (length (py "56"))))) = true
  /\ F64.is_neg (F64.div (F64.of_Z (digits_value (concat [py "1"; py "234"] ++ py "56")))
                   (F64.of_Z (10 ^ Z.of_nat (length (py "56"))))) = false.
Proof.
  apply (@clean_val_currency ascii_runtime true [py "1"; py "234"] (py "56")).
  - repeat constructor.
  - repeat constructor.
  - vm_compute. split; repeat constructor.
Defined.

Lemma clean_val_period_groups_witness :
  @clean_val ascii_runtime [Str (join (py ".") [py "1"; py "5"])]
  = [Num (F64.of_Z (digits_value (concat [py "1"; py "5"])))].
Proof.
  apply (@clean_val_period_groups ascii_runtime [py "1"; py "5"]).
  - repeat constructor.
  - vm_compute. split; repeat constructor.
Defined.



Lemma resumo_arquivo_counts_witness :
  StronglySorted (fun a b => str_ltb a b = true)
    (map (fun l => l.1.1.1)
         (returned (@resumo_arquivo ascii_runtime table_consolidated) []))
  /\ sum_list (map (fun l => l.1.1.2)
                   (returned (@resumo_arquivo ascii_runtime table_consolidated) []))
     = length (rows table_consolidated).
Proof.
  apply (@resumo_arquivo_counts ascii_runtime table_consolidated).
  - reflexivity.
  - exact table_consolidated_rows.
  - vm_compute. reflexivity.
Defined.

Lemma read_bs2_csv_shape_witness :
  table_regular = no_frame
  \/ ((exists n : str -> nat,
         Forall (fun c => 1 <= n c)%nat canonical_columns
         /\ n Valor = 1%nat
         /\ columns table_regular
            = flat_map (fun c => replicate (n c) c) canonical_columns)
      /\ rectangular table_regular
      /\ Forall (fun r => forall p, columns table_regular !! p = Some Valor ->
                          exists x, cell_at p r = Num x) (rows table_regular)).
Proof.
  exact (@read_bs2_csv_shape ascii_runtime file_regular table_regular read_file_regular).
Defined.

Lemma read_bs2_csv_valor_witness :
  Forall (fun r => forall p q,
            columns table_regular !! p = Some Valor ->
            columns table_regular !! q = Some Valor_raw ->
            exists s, cell_at q r = Str s
                      /\ cell_at p r = Num (to_numeric (clean_text s)))
         (rows table_regular).
Proof.
  exact (@read_bs2_csv_valor ascii_runtime file_regular table_regular read_file_regular).
Defined.


Lemma read_bs2_csv_text_witness :
  Forall (fun r => forall p c,
            columns table_regular !! p = Some c -> c <> Valor ->
            exists s, cell_at p r = Str s)
         (rows table_regular).
Proof.
  exact (@read_bs2_csv_text ascii_runtime file_regular table_regular read_file_regular).
Defined.

Lemma consolidate_well_formed_witness :
  columns table_consolidated = canonical_columns ++ [Arquivo]
  /\ Forall consolidated_row (rows table_consolidated)
  /\ Forall (fun r => exists f, f ∈ files_two /\ cell_at 7 r = Str f.1)
            (rows table_consolidated)
  /\ Forall (fun r => exists s, cell_at 0 r = Str s) (rows table_consolidated).
Proof.
  apply (@consolidate_well_formed ascii_runtime files_two table_consolidated).
  - exact consolidate_files_two.
  - discriminate.
  - exact files_two_no_collision.
Defined.

Lemma resumo_arquivo_of_consolidate_witness :
  exists res,
    @resumo_arquivo ascii_runtime table_consolidated = Ok res
    /\ StronglySorted (fun a b => str_ltb a b = true) (map (fun l => l.1.1.1) res)
    /\ Forall (fun l => l.1.1.1 ∈ map fst files_two) res
    /\ sum_list (map (fun l => l.1.1.2) res) = length (rows table_consolidated).
Proof.
  apply (@resumo_arquivo_of_consolidate ascii_runtime files_two table_consolidated).
  - exact consolidate_files_two.
  - discriminate.
  - exact files_two_no_collision.
Defined.

Lemma table_consolidated_writable : writable_rows (rows table_consolidated).
Proof.
  apply Forall_forall. intros r Hr. apply Forall_forall. intros c Hc.
  unfold table_consolidated in Hr. cbn [rows] in Hr.
  repeat (apply elem_of_cons in Hr as [->|Hr];
          [cbn [snd] in Hc;
           repeat (apply elem_of_cons in Hc as [->|Hc]; [vm_compute; reflexivity|]);
           inversion Hc|]).
  inversion Hr.
Qed.

(** The block returns on [files_two]: the disjunction is decided. *)
Lemma processamento_outcome_witness :
  exists tt td resumo wb,
    (@processamento ascii_runtime files_two []).1 = Ok (0%nat, tt, td, resumo, wb)
    /\ length wb = 3%nat
    /\ (rows table_consolidated = [] ->
        tt = F64.zero /\ td = F64.zero /\ resumo = None)
    /\ (rows table_consolidated <> [] ->
        @resumo_arquivo ascii_runtime table_consolidated = Ok (default [] resumo)
        /\ resumo <> None).
Proof.
  destruct (@processamento_outcome ascii_runtime files_two table_consolidated
              consolidate_files_two files_two_no_collision)
    as [[Hreturned|Hraised] Hreturns]; [exact Hreturned|].
  destruct (Hreturns table_consolidated_writable) as [res Hres];
    [vm_compute; reflexivity|].
  destruct Hraised as [Hraised|[Hraised _]]; rewrite Hraised in Hres;
    discriminate Hres.
Defined.
End MoreInstances.
